(** * The gru minion agent over etcd: a shallow embedding of [minion/etcd.go]

    The development follows the Go source function by function.  The pieces
    of the Go standard library and of third-party packages that the minion
    calls ([strconv], [strings], [path/filepath], [uuid], [backoff], the etcd
    [KeysAPI]) are modelled in small modules of their own; the minion itself
    lives in [Section Minion], over the class [Imports] of what the file takes
    from the rest of the repository (the task codec, the classifier registry,
    the UUID derivation). *)

From Stdlib Require Import ZArith Ascii String List Lia Bool.
From stdpp Require Import gmap strings list.

Set Warnings "-register-all".
Local Open Scope Z_scope.

(** ** Package [strconv] *)
Module strconv.

(** The byte ['0' + d]. *)
Definition digit_byte (d : Z) : ascii := ascii_of_nat (Z.to_nat (48 + d)).

(** The loop of [formatBits] for base 10: digits are produced from the least
    significant one and written right to left into a buffer of 65 bytes,
    [for u >= 10 { q := u / 10; a[i] = '0' + u - q*10; u = q }; a[i] = '0' + u].
    [room] is what is left of the buffer and [acc] the part already written. *)
Fixpoint formatBits (room : nat) (u : Z) (acc : string) : string :=
  match room with
  | O => acc
  | S room' =>
      if 10 <=? u
      then let q := u / 10 in formatBits room' q (String (digit_byte (u - q * 10)) acc)
      else String (digit_byte u) acc
  end.

(** [strconv.FormatInt(i, 10)] on an [int64]: a minus sign and the digits of the
    magnitude for a negative [i], the digits alone otherwise. *)
Definition FormatInt (i : Z) : string :=
  if i <? 0 then String "-"%char (formatBits 65 (- i) EmptyString)
  else formatBits 65 i EmptyString.

(** What a reader of a decimal string understands: the value of a digit byte,
    and of a string of them read left to right (Horner). *)
Definition digit_value (c : ascii) : option Z :=
  let n := Z.of_nat (nat_of_ascii c) in
  if (48 <=? n) && (n <=? 57) then Some (n - 48) else None.

Fixpoint decimal_value_from (acc : Z) (s : string) : option Z :=
  match s with
  | EmptyString => Some acc
  | String c s' =>
      match digit_value c with
      | Some d => decimal_value_from (acc * 10 + d) s'
      | None => None
      end
  end.

Definition decimal_value (s : string) : option Z :=
  match s with
  | EmptyString => None
  | _ => decimal_value_from 0 s
  end.

(** A canonical decimal numeral has no leading zero, except ["0"] itself. *)
Definition no_leading_zero (s : string) : bool :=
  match s with
  | String "0"%char (String _ _) => false
  | _ => true
  end.

End strconv.

(** ** Package [strings] (on the ASCII range) *)
Module gostrings.

Definition is_upper (c : ascii) : bool :=
  let n := nat_of_ascii c in (Nat.leb 65 n) && (Nat.leb n 90).

Definition lower_byte (c : ascii) : ascii :=
  if is_upper c then ascii_of_nat (nat_of_ascii c + 32) else c.

(** [strings.ToLower]: upper-case ASCII letters are mapped to lower case, all other
    bytes are kept. *)
Fixpoint ToLower (s : string) : string :=
  match s with
  | EmptyString => EmptyString
  | String c s' => String (lower_byte c) (ToLower s')
  end.

(** [strings.EqualFold]: equality up to the case of ASCII letters. *)
Fixpoint EqualFold (s t : string) : bool :=
  match s, t with
  | EmptyString, EmptyString => true
  | String a s', String b t' => Ascii.eqb (lower_byte a) (lower_byte b) && EqualFold s' t'
  | _, _ => false
  end.

End gostrings.

(** ** Package [path/filepath] *)
Module filepath.

Definition slash : ascii := "/"%char.

(** The elements of a path between its separators. [cur] collects, reversed,
    the bytes of the element being read. *)
Fixpoint split_from (cur : string) (s : string) : list string :=
  match s with
  | EmptyString => [cur]
  | String c s' =>
      if Ascii.eqb c slash then cur :: split_from EmptyString s'
      else split_from (cur +:+ String c EmptyString) s'
  end.

Definition split (s : string) : list string := split_from EmptyString s.

Fixpoint join (elems : list string) : string :=
  match elems with
  | [] => EmptyString
  | [e] => e
  | e :: rest => e +:+ String slash (join rest)
  end.

Definition rooted (s : string) : bool :=
  match s with
  | String c _ => Ascii.eqb c slash
  | EmptyString => false
  end.

(** One element of the path against the elements kept so far ([out], innermost
    last): empty elements and [.] are dropped, [..] removes the element before
    it, is dropped at the root, and is kept at the start of a relative path. *)
Definition clean_step (isrooted : bool) (out : list string) (e : string) : list string :=
  if String.eqb e "" then out
  else if String.eqb e "." then out
  else if String.eqb e ".." then
    match List.rev out with
    | last :: before =>
        if String.eqb last ".." then out ++ [e] else List.rev before
    | [] => if isrooted then out else [e]
    end
  else out ++ [e].

(** [filepath.Clean]. *)
Definition Clean (p : string) : string :=
  if String.eqb p "" then "."
  else
    let r := rooted p in
    let out := fold_left (clean_step r) (split p) [] in
    let body := join out in
    if r then String slash body
    else if String.eqb body "" then "." else body.

(** [filepath.Join]: empty elements are ignored, the rest is joined with the
    separator and cleaned; with no element left the result is empty. *)
Definition Join (elems : list string) : string :=
  match List.filter (fun e => negb (String.eqb e "")) elems with
  | [] => EmptyString
  | nonempty => Clean (join nonempty)
  end.

End filepath.

(** ** Package [uuid] *)
Module uuid.

(** A UUID is a slice of bytes. *)
Definition UUID := list Byte.byte.

Definition hex_digit (n : N) : ascii :=
  if (n <? 10)%N then ascii_of_N (48 + n) else ascii_of_N (87 + n).

Definition hex_byte (b : Byte.byte) : string :=
  let n := Byte.to_N b in
  String (hex_digit (n / 16)%N) (String (hex_digit (n mod 16)%N) EmptyString).

Definition hex (bs : list Byte.byte) : string :=
  fold_right (fun b s => hex_byte b +:+ s) EmptyString bs.

(** [UUID.String]: the form xxxxxxxx-xxxx-xxxx-xxxx-xxxxxxxxxxxx, or the empty
    string for a slice that is not 16 bytes long. *)
Definition String_ (u : UUID) : string :=
  if Nat.eqb (List.length u) 16 then
    hex (firstn 4 u) +:+ "-" +:+ hex (firstn 2 (skipn 4 u)) +:+ "-" +:+
    hex (firstn 2 (skipn 6 u)) +:+ "-" +:+ hex (firstn 2 (skipn 8 u)) +:+ "-" +:+
    hex (skipn 10 u)
  else EmptyString.

End uuid.

(** ** Errors

    A Go [error] value.  The minion tells apart the errors of the etcd API
    (type [etcdclient.Error], with a numeric code) from every other error
    (cluster unreachable, context cancelled, a JSON syntax error, ...). *)
Inductive error : Type :=
| EtcdError (Code : Z) (Message : string)
| OtherError (msg : string).

(** ** Package [task] and package [classifier] *)
Module task.

(** Modelled from the spec: package [task] is not among the sources at hand.
    The states are the four of the spec, [queued], [processing], [success] and
    [failed], and the zero value of the type. *)
Inductive TaskState : Type :=
| TaskStateUnknown
| TaskStateQueued
| TaskStateProcessing
| TaskStateSuccess
| TaskStateFailed.

(** Modelled from the spec: the catalog of a task is an opaque executable that
    runs to completion, writes its output to a sink and returns success or
    failure.  The minion only asks for its number of resources, [Len], and
    runs it against a buffer: [Run] is what the run writes to the buffer and
    the error it ends with. *)
Record Catalog : Type := mkCatalog {
  Len : Z;
  Run : string * option error
}.

(** Modelled from the spec: a task has the attributes of the data model of the
    spec, under the names by which [minion/etcd.go] reads and writes them. *)
Record Task : Type := mkTask {
  TaskID : uuid.UUID;
  Catalog_ : Catalog;
  IsConcurrent : bool;
  State : TaskState;
  TimeReceived : Z;
  TimeProcessed : Z;
  Result : string
}.

Definition set_State (s : TaskState) (t : Task) : Task :=
  mkTask (TaskID t) (Catalog_ t) (IsConcurrent t) s (TimeReceived t) (TimeProcessed t) (Result t).

Definition set_TimeReceived (z : Z) (t : Task) : Task :=
  mkTask (TaskID t) (Catalog_ t) (IsConcurrent t) (State t) z (TimeProcessed t) (Result t).

Definition set_TimeProcessed (z : Z) (t : Task) : Task :=
  mkTask (TaskID t) (Catalog_ t) (IsConcurrent t) (State t) (TimeReceived t) z (Result t).

Definition set_Result (r : string) (t : Task) : Task :=
  mkTask (TaskID t) (Catalog_ t) (IsConcurrent t) (State t) (TimeReceived t) (TimeProcessed t) r.

End task.

Module classifier.

(** Modelled from the spec: a classifier is a key and an opaque value. *)
Record Classifier : Type := mkClassifier {
  Key : string;
  Value : string
}.

End classifier.

(** ** Package [time] *)
Module time.

(** Durations and instants are counted in nanoseconds. *)
Definition Second : Z := 1000000000.
Definition Minute : Z := 60 * Second.
Definition Hour : Z := 60 * Minute.

(** [Time.Unix]: the seconds since the epoch of an instant. *)
Definition Unix (t : Z) : Z := t / Second.

End time.

(** ** Package [backoff] *)
Module backoff.

(** The settings of a generator, as [TaskListener] fills them in, and the count
    of the attempts made.  [Min] and [Max] are durations; [Factor], a float in
    the package, is a whole number here, 2 for the listener. *)
Record Backoff : Type := mkBackoff {
  Min : Z;
  Max : Z;
  Factor : Z;
  Jitter : bool;
  attempts : Z
}.

(** Modelled from the spec: the exponential ceiling of the current attempt,
    before the cap. *)
Definition ceiling (b : Backoff) : Z := Min b * Factor b ^ attempts b.

(** Modelled from the spec: full jitter.  A sample [r] of [rand.Float64],
    given as the numerator of a fraction of [2^53], is moved into the interval
    from [lo] up to [hi]. *)
Definition jitter (r lo hi : Z) : Z := lo + ((r mod 2 ^ 53) * (hi - lo)) / 2 ^ 53.

(** Modelled from the spec: the generator of package [backoff] (type
    [Backoff], methods [Duration] and [Reset]) is imported by the minion and is
    not part of its sources.  After the spec it is an exponential backoff with
    full jitter, a minimum, a maximum and a factor: the delay of the attempt
    number [attempts] is the minimum times the factor to that power, a jittered
    delay is drawn between the minimum and that ceiling, nothing exceeds the
    maximum, and every call counts one more attempt. *)
Definition Duration (b : Backoff) (r : Z) : Z * Backoff :=
  let dur := if Jitter b then jitter r (Min b) (ceiling b) else ceiling b in
  let dur := if Max b <? dur then Max b else dur in
  (dur, mkBackoff (Min b) (Max b) (Factor b) (Jitter b) (attempts b + 1)).

(** Modelled from the spec: [Reset] brings the generator back to its minimum,
    that is to attempt number zero. *)
Definition Reset (b : Backoff) : Backoff :=
  mkBackoff (Min b) (Max b) (Factor b) (Jitter b) 0.

End backoff.

(** ** Package [etcdclient]: the key-value store behind [KeysAPI] *)
Module etcdclient.

Definition ErrorCodeKeyNotFound : Z := 100.
Definition ErrorCodeNotFile : Z := 102.

Inductive Node : Type :=
| mkNode (Key : string) (Value : string) (Dir : bool) (Nodes : list Node).

Definition Key (n : Node) : string := let '(mkNode k _ _ _) := n in k.
Definition Value (n : Node) : string := let '(mkNode _ v _ _) := n in v.
Definition Dir (n : Node) : bool := let '(mkNode _ _ d _) := n in d.
Definition Nodes (n : Node) : list Node := let '(mkNode _ _ _ ns) := n in ns.

Record Response : Type := mkResponse {
  Action : string;
  Node_ : Node
}.

(** The store keeps files (a key with a value) and directories. *)
Inductive Entry : Type :=
| File (value : string)
| Directory.

(** The files below a directory, as nodes. *)
Definition file_below (d : string) (kv : string * Entry) : option Node :=
  match kv.2 with
  | File v => if String.prefix (d +:+ "/") kv.1 then Some (mkNode kv.1 v false []) else None
  | Directory => None
  end.

Fixpoint insert_sorted (n : Node) (ns : list Node) : list Node :=
  match ns with
  | [] => [n]
  | n' :: rest =>
      if String.leb (Key n) (Key n') then n :: ns else n' :: insert_sorted n rest
  end.

Definition sort_nodes (ns : list Node) : list Node := fold_right insert_sorted [] ns.

Definition children (d : string) (s : gmap string Entry) : list Node :=
  sort_nodes (omap (file_below d) (map_to_list s)).

(** A recursive, sorted get: a file, or a directory with the files below it; a
    directory exists when it is recorded or has a file below it. *)
Definition lookup_node (k : string) (s : gmap string Entry) : option Node :=
  match s !! k with
  | Some (File v) => Some (mkNode k v false [])
  | Some Directory => Some (mkNode k "" true (children k s))
  | None =>
      match children k s with
      | [] => None
      | ns => Some (mkNode k "" true ns)
      end
  end.

End etcdclient.

(** ** The world of a minion process

    Everything outside the minion's own code is gathered in one state: the
    store behind the etcd API and the outcome of the coming round trips, the
    two channels of the minion, the clock, the random source, the goroutines
    started, and the trace of what the process did. *)

(** The goroutines the minion starts. *)
Inductive Worker : Type :=
| WClassify
| WCheckQueue
| WPeriodicRunner
| WTaskRunner
| WTaskListener
| WProcessTask (t : task.Task).

(** Lines written with [log.Printf] and [log.Println], by call site. *)
Inductive LogLine : Type :=
| LogFoundPending (n : nat)
| LogPeriodicSchedule (schedule : Z)
| LogProcessing (id : uuid.UUID)
| LogFailedProcess (id : uuid.UUID) (err : error)
| LogFinished (id : uuid.UUID)
| LogFailedGetClassifier (key : string) (err : error)
| LogFailedSetName (err : error)
| LogFailedSetLastseen (err : error)
| LogFailedSerializeClassifier (key : string) (err : error)
| LogFailedSetClassifier (key : string) (err : error)
| LogWatching (dir : string)
| LogRetrying (err : error) (duration : Z)
| LogInvalidTask (key : string) (err : error)
| LogReceivedTask (id : uuid.UUID)
| LogStartingRunner
| LogFailedSerializeTask (id : uuid.UUID) (err : error)
| LogFailedSaveTask (id : uuid.UUID) (err : error)
| LogReady (id : uuid.UUID)
| LogShuttingDown.

Inductive Event : Type :=
| EvGet (key : string)
| EvSet (key value : string) (ttl : Z)
| EvDelete (key : string)
| EvSend (t : option task.Task)
| EvRecv (t : option task.Task)
| EvGo (g : Worker)
| EvSleep (d : Z)
| EvLog (l : LogLine).

Record World : Type := mkWorld {
  store : gmap string etcdclient.Entry;
  outcomes : list (option error);
  taskQueue_closed : bool;
  done_closed : bool;
  clock : Z;
  random : list Z;
  started : list Worker;
  trace : list Event
}.

Definition set_store (s : gmap string etcdclient.Entry) (w : World) : World :=
  mkWorld s (outcomes w) (taskQueue_closed w) (done_closed w) (clock w) (random w)
    (started w) (trace w).

Definition set_outcomes (o : list (option error)) (w : World) : World :=
  mkWorld (store w) o (taskQueue_closed w) (done_closed w) (clock w) (random w)
    (started w) (trace w).

Definition set_taskQueue_closed (b : bool) (w : World) : World :=
  mkWorld (store w) (outcomes w) b (done_closed w) (clock w) (random w)
    (started w) (trace w).

Definition set_done_closed (b : bool) (w : World) : World :=
  mkWorld (store w) (outcomes w) (taskQueue_closed w) b (clock w) (random w)
    (started w) (trace w).

Definition set_clock (c : Z) (w : World) : World :=
  mkWorld (store w) (outcomes w) (taskQueue_closed w) (done_closed w) c (random w)
    (started w) (trace w).

Definition set_random (r : list Z) (w : World) : World :=
  mkWorld (store w) (outcomes w) (taskQueue_closed w) (done_closed w) (clock w) r
    (started w) (trace w).

Definition set_started (g : list Worker) (w : World) : World :=
  mkWorld (store w) (outcomes w) (taskQueue_closed w) (done_closed w) (clock w) (random w)
    g (trace w).

Definition emit (e : Event) (w : World) : World :=
  mkWorld (store w) (outcomes w) (taskQueue_closed w) (done_closed w) (clock w) (random w)
    (started w) (trace w ++ [e]).

(** ** Computations of the process: a state monad that can panic *)

Inductive Res (A : Type) : Type :=
| Val (a : A)
| Panic (msg : string).
Arguments Val {A} a.
Arguments Panic {A} msg.

Definition M (A : Type) : Type := World -> Res A * World.

Definition ret {A} (a : A) : M A := fun w => (Val a, w).

Definition bind {A B} (c : M A) (k : A -> M B) : M B :=
  fun w => match c w with
           | (Val a, w') => k a w'
           | (Panic msg, w') => (Panic msg, w')
           end.

Definition panic {A} (msg : string) : M A := fun w => (Panic msg, w).

Declare Scope go_scope.
Delimit Scope go_scope with go.
Notation "x <- c ;; k" := (bind c (fun x => k))
  (at level 100, c at next level, right associativity) : go_scope.
Notation "c ;; k" := (bind c (fun _ => k))
  (at level 100, right associativity) : go_scope.
Local Open Scope go_scope.

Definition nil_dereference : string := "invalid memory address or nil pointer dereference".
Definition send_on_closed : string := "send on closed channel".
Definition close_of_closed : string := "close of closed channel".

Definition record (e : Event) : M unit := fun w => (Val tt, emit e w).

Definition log_Printf (l : LogLine) : M unit := record (EvLog l).

(** [go f()]: the goroutine is started and runs on its own; [started] keeps the
    goroutines that have not run yet. *)
Definition go (g : Worker) : M unit :=
  fun w => (Val tt, set_started (started w ++ [g]) (emit (EvGo g) w)).

(** [time.Now()]. *)
Definition time_Now : M Z := fun w => (Val (clock w), w).

(** [time.Sleep(d)]. *)
Definition time_Sleep (d : Z) : M unit :=
  fun w => (Val tt, set_clock (clock w + d) (emit (EvSleep d) w)).

(** [rand.Float64()], as the numerator of a fraction of [2^53]. *)
Definition rand_Float64 : M Z :=
  fun w => match random w with
           | [] => (Val 0, w)
           | r :: rest => (Val r, set_random rest w)
           end.

(** [c <- t] on the task channel: a send on a closed channel panics; on an open
    channel, which has no buffer, the send is over once the runner has taken
    the task. *)
Definition send (t : option task.Task) : M unit :=
  fun w => if taskQueue_closed w then (Panic send_on_closed, emit (EvSend t) w)
           else (Val tt, emit (EvSend t) w).

(** [<-c] on the task channel, when a sender offers [offer]: a closed channel
    yields the zero value, a nil task. *)
Definition recv (offer : option task.Task) : M (option task.Task) :=
  fun w => let t := if taskQueue_closed w then None else offer in
           (Val t, emit (EvRecv t) w).

(** [close(m.taskQueue)] and [close(m.done)]. *)
Definition close_taskQueue : M unit :=
  fun w => if taskQueue_closed w then (Panic close_of_closed, w)
           else (Val tt, set_taskQueue_closed true w).

Definition close_done : M unit :=
  fun w => if done_closed w then (Panic close_of_closed, w)
           else (Val tt, set_done_closed true w).

(** *** The etcd [KeysAPI]

    Each call is one round trip.  The head of [outcomes] says whether the
    coming round trip fails, and with which error; a round trip that goes
    through acts on the store. *)
Definition round_trip : M (option error) :=
  fun w => match outcomes w with
           | [] => (Val None, w)
           | o :: rest => (Val o, set_outcomes rest w)
           end.

Definition kapi_Get (key : string) : M (option etcdclient.Response * option error) :=
  record (EvGet key) ;;
  fault <- round_trip ;;
  match fault with
  | Some e => ret (None, Some e)
  | None =>
      fun w => match etcdclient.lookup_node key (store w) with
               | Some n => (Val (Some (etcdclient.mkResponse "get" n), None), w)
               | None => (Val (None, Some (EtcdError etcdclient.ErrorCodeKeyNotFound "Key not found")), w)
               end
  end.

Definition kapi_Set (key value : string) (ttl : Z) : M (option error) :=
  record (EvSet key value ttl) ;;
  fault <- round_trip ;;
  match fault with
  | Some e => ret (Some e)
  | None =>
      fun w => match store w !! key with
               | Some etcdclient.Directory =>
                   (Val (Some (EtcdError etcdclient.ErrorCodeNotFile "Not a file")), w)
               | _ => (Val None, set_store (<[key := etcdclient.File value]> (store w)) w)
               end
  end.

Definition kapi_Delete (key : string) : M (option error) :=
  record (EvDelete key) ;;
  fault <- round_trip ;;
  match fault with
  | Some e => ret (Some e)
  | None =>
      fun w => match store w !! key with
               | Some (etcdclient.File _) => (Val None, set_store (delete key (store w)) w)
               | Some etcdclient.Directory =>
                   (Val (Some (EtcdError etcdclient.ErrorCodeNotFile "Not a file")), w)
               | None => (Val (Some (EtcdError etcdclient.ErrorCodeKeyNotFound "Key not found")), w)
               end
  end.

(** What [watcher.Next] hands to the listener. *)
Inductive WatchNext : Type :=
| WatchErr (err : error)
| WatchEvent (resp : etcdclient.Response).

(** How far a loop without end has come when its inputs are used up. *)
Inductive Loop : Type :=
| Returned (err : option error)
| Iterating
| NotReady.

(** ** The minion *)

(** EtcdMinionSpace is the keyspace in etcd used by minions. *)
Definition EtcdMinionSpace : string := "/gru/minion".

(** The fields of [etcdMinion] that are fixed at construction.  The client
    [kapi] and the channels [taskQueue] and [done] are in the [World]. *)
Record etcdMinion : Type := mkMinion {
  name : string;
  rootDir : string;
  queueDir : string;
  logDir : string;
  classifierDir : string;
  id : uuid.UUID
}.

(** What the selects of the two loops can fire on. *)
Inductive RunnerCase : Type :=
| RunnerDone
| RunnerTask (offer : option task.Task).

Inductive TickerCase : Type :=
| TickerDone
| TickerTick (now : Z).

(** The parts of the repository and of its libraries that [minion/etcd.go]
    imports and whose sources are elsewhere: the minion is an agent over any
    of them. *)
Class Imports : Type := mkImports {
  (** [utils.GenerateUUID], the derivation of the identifier from the name. *)
  GenerateUUID : string -> uuid.UUID;
  (** [json.Unmarshal(data, &task)] for [task] a pointer to a fresh
      [task.Task]: the pointer after the call (the decoder may leave the struct
      partly filled, or reset the pointer to nil) and the error. *)
  json_Unmarshal_Task : string -> option task.Task * option error;
  (** [json.Marshal] of a task and of a classifier. *)
  json_Marshal_Task : task.Task -> string * option error;
  json_Marshal_Classifier : classifier.Classifier -> string * option error;
  (** [classifier.Registry], its keys in the order the range statement visits
      them, and [classifier.Get]. *)
  Registry : list string;
  classifier_Get : string -> classifier.Classifier + error
}.

Section Minion.

Context {imports : Imports}.

(** NewEtcdMinion creates a new minion with etcd backend.  The etcd client is
    the store of the [World]; the two channels are made open. *)
Definition NewEtcdMinion (name : string) : etcdMinion :=
  let id := GenerateUUID name in
  let rootDir := filepath.Join [EtcdMinionSpace; uuid.String_ id] in
  let queueDir := filepath.Join [rootDir; "queue"] in
  let classifierDir := filepath.Join [rootDir; "classifier"] in
  let logDir := filepath.Join [rootDir; "log"] in
  mkMinion name rootDir queueDir logDir classifierDir id.

(** EtcdUnmarshalTask unmarshals tasks from an etcd node. *)
Definition EtcdUnmarshalTask (node : etcdclient.Node) : option task.Task * option error :=
  json_Unmarshal_Task (etcdclient.Value node).

(** ID returns the minion unique identifier. *)
Definition ID (m : etcdMinion) : uuid.UUID := id m.

(** SetName sets the human-readable name of the minion in etcd. *)
Definition SetName (m : etcdMinion) (name : string) : M (option error) :=
  let nameKey := filepath.Join [rootDir m; "name"] in
  err <- kapi_Set nameKey name 0 ;;
  match err with
  | Some e => log_Printf (LogFailedSetName e)
  | None => ret tt
  end ;;
  ret err.

(** SetLastseen sets the time the minion was last seen in seconds since the
    Epoch. *)
Definition SetLastseen (m : etcdMinion) (s : Z) : M (option error) :=
  let lastseenKey := filepath.Join [rootDir m; "lastseen"] in
  let lastseenValue := strconv.FormatInt s in
  err <- kapi_Set lastseenKey lastseenValue 0 ;;
  match err with
  | Some e => log_Printf (LogFailedSetLastseen e)
  | None => ret tt
  end ;;
  ret err.

(** SetClassifier sets a classifier for the minion in etcd; classifiers expire
    after an hour. *)
Definition SetClassifier (m : etcdMinion) (c : classifier.Classifier) : M (option error) :=
  match json_Marshal_Classifier c with
  | (_, Some e) =>
      log_Printf (LogFailedSerializeClassifier (classifier.Key c) e) ;;
      ret (Some e)
  | (data, None) =>
      let klassifierKey := filepath.Join [classifierDir m; classifier.Key c] in
      err <- kapi_Set klassifierKey data time.Hour ;;
      match err with
      | Some e =>
          log_Printf (LogFailedSetClassifier (classifier.Key c) e) ;;
          ret (Some e)
      | None => ret None
      end
  end.

(** SaveTaskResult stores the result of a task in etcd. *)
Definition SaveTaskResult (m : etcdMinion) (t : task.Task) : M (option error) :=
  let taskKey := filepath.Join [logDir m; uuid.String_ (task.TaskID t)] in
  match json_Marshal_Task t with
  | (_, Some e) =>
      log_Printf (LogFailedSerializeTask (task.TaskID t) e) ;;
      ret (Some e)
  | (data, None) =>
      err <- kapi_Set taskKey data 0 ;;
      match err with
      | Some e => log_Printf (LogFailedSaveTask (task.TaskID t) e)
      | None => ret tt
      end ;;
      ret err
  end.

(** The body of the range loop of [checkQueue]: every node is decoded and
    deleted, and a decoded task goes to the task channel. *)
Fixpoint checkQueue_range (m : etcdMinion) (backlog : list etcdclient.Node) : M unit :=
  match backlog with
  | [] => ret tt
  | node :: rest =>
      let '(t, err) := EtcdUnmarshalTask node in
      kapi_Delete (etcdclient.Key node) ;;
      match err with
      | Some _ => checkQueue_range m rest
      | None => send t ;; checkQueue_range m rest
      end
  end.

(** Checks for any pending tasks and sends them for processing if there are
    any. *)
Definition checkQueue (m : etcdMinion) : M (option error) :=
  got <- kapi_Get (queueDir m) ;;
  let '(resp, err) := got in
  match
    match err with
    | Some (EtcdError code msg) =>
        if code =? etcdclient.ErrorCodeKeyNotFound then Some (EtcdError code msg) else None
    | Some e => Some e
    | None => None
    end
  with
  | Some e => ret (Some e)
  | None =>
      match resp with
      | None => panic nil_dereference
      | Some resp =>
          let backlog := etcdclient.Nodes (etcdclient.Node_ resp) in
          if Nat.eqb (List.length backlog) 0 then ret None
          else
            log_Printf (LogFoundPending (List.length backlog)) ;;
            checkQueue_range m backlog ;;
            ret None
      end
  end.

(** Classifies the minion. *)
Fixpoint classify_range (m : etcdMinion) (keys : list string) : M unit :=
  match keys with
  | [] => ret tt
  | key :: rest =>
      match classifier_Get key with
      | inr e => log_Printf (LogFailedGetClassifier key e) ;; classify_range m rest
      | inl klassifier => SetClassifier m klassifier ;; classify_range m rest
      end
  end.

Definition classify (m : etcdMinion) : M (option error) :=
  classify_range m Registry ;; ret None.

(** Processes new tasks. *)
Definition processTask (m : etcdMinion) (t : task.Task) : M (option error) :=
  let t := task.set_State task.TaskStateProcessing t in
  SaveTaskResult m t ;;
  log_Printf (LogProcessing (task.TaskID t)) ;;
  let buf := "Loaded " +:+ strconv.FormatInt (task.Len (task.Catalog_ t)) +:+
             " resources from catalog" in
  let '(out, err) := task.Run (task.Catalog_ t) in
  let buf := buf +:+ out in
  now <- time_Now ;;
  let t := task.set_TimeProcessed (time.Unix now) t in
  let t := task.set_Result buf t in
  match err with
  | Some e =>
      log_Printf (LogFailedProcess (task.TaskID t) e) ;;
      SaveTaskResult m (task.set_State task.TaskStateFailed t)
  | None =>
      log_Printf (LogFinished (task.TaskID t)) ;;
      SaveTaskResult m (task.set_State task.TaskStateSuccess t)
  end ;;
  ret err.

(** One turn of the loop of [periodicRunner]: the select fires on [done] or on
    the ticker.  The [break] of the [done] case leaves the select statement,
    and the turn is over. *)
Definition periodicRunner_select (m : etcdMinion) (c : TickerCase) : M Loop :=
  match c with
  | TickerDone =>
      fun w => if done_closed w then (Val Iterating, w) else (Val NotReady, w)
  | TickerTick now =>
      classify m ;;
      checkQueue m ;;
      SetLastseen m (time.Unix now) ;;
      ret Iterating
  end.

Fixpoint periodicRunner_for (m : etcdMinion) (cases : list TickerCase) : M Loop :=
  match cases with
  | [] => ret Iterating
  | c :: rest =>
      st <- periodicRunner_select m c ;;
      match st with
      | Iterating => periodicRunner_for m rest
      | other => ret other
      end
  end.

(** Runs periodic jobs such as refreshing classifiers and updating the lastseen
    time every five minutes. *)
Definition periodicRunner (m : etcdMinion) (cases : list TickerCase) : M Loop :=
  let schedule := time.Minute * 5 in
  log_Printf (LogPeriodicSchedule schedule) ;;
  periodicRunner_for m cases.

(** One turn of the loop of [TaskListener] on what [watcher.Next] returned;
    the result is the backoff generator after the turn. *)
Definition TaskListener_next (m : etcdMinion) (b : backoff.Backoff) (next : WatchNext)
  : M backoff.Backoff :=
  match next with
  | WatchErr err =>
      r <- rand_Float64 ;;
      let '(duration, b) := backoff.Duration b r in
      log_Printf (LogRetrying err duration) ;;
      time_Sleep duration ;;
      ret b
  | WatchEvent resp =>
      let b := backoff.Reset b in
      let action := gostrings.ToLower (etcdclient.Action resp) in
      if gostrings.EqualFold action "delete" then ret b
      else
        let node := etcdclient.Node_ resp in
        let '(t, err) := EtcdUnmarshalTask node in
        kapi_Delete (etcdclient.Key node) ;;
        match err with
        | Some e => log_Printf (LogInvalidTask (etcdclient.Key node) e) ;; ret b
        | None =>
            match t with
            | None => panic nil_dereference
            | Some t' =>
                log_Printf (LogReceivedTask (task.TaskID t')) ;;
                send t ;;
                ret b
            end
        end
  end.

Fixpoint TaskListener_for (m : etcdMinion) (b : backoff.Backoff) (nexts : list WatchNext)
  : M Loop :=
  match nexts with
  | [] => ret Iterating
  | next :: rest => b' <- TaskListener_next m b next ;; TaskListener_for m b' rest
  end.

Definition TaskListener_backoff : backoff.Backoff :=
  backoff.mkBackoff (1 * time.Second) (10 * time.Minute) 2 true 0.

(** TaskListener monitors etcd for new tasks.  The seed of the random source
    and the watcher handle are the [random] samples of the [World] and the
    list [nexts] of what [watcher.Next] returns, one turn after the other. *)
Definition TaskListener (m : etcdMinion) (nexts : list WatchNext) : M Loop :=
  log_Printf (LogWatching (queueDir m)) ;;
  TaskListener_for m TaskListener_backoff nexts.

(** The receive case of the select of [TaskRunner], on the task received. *)
Definition TaskRunner_task (m : etcdMinion) (t : option task.Task) : M unit :=
  match t with
  | None => panic nil_dereference
  | Some t =>
      let t := task.set_State task.TaskStateQueued t in
      now <- time_Now ;;
      let t := task.set_TimeReceived (time.Unix now) t in
      SaveTaskResult m t ;;
      if task.IsConcurrent t then go (WProcessTask t)
      else processTask m t ;; ret tt
  end.

(** One turn of the loop of [TaskRunner]; as in [periodicRunner], the [break]
    of the [done] case leaves the select statement only. *)
Definition TaskRunner_select (m : etcdMinion) (c : RunnerCase) : M Loop :=
  match c with
  | RunnerDone =>
      fun w => if done_closed w then (Val Iterating, w) else (Val NotReady, w)
  | RunnerTask offer =>
      t <- recv offer ;;
      TaskRunner_task m t ;;
      ret Iterating
  end.

Fixpoint TaskRunner_for (m : etcdMinion) (cases : list RunnerCase) : M Loop :=
  match cases with
  | [] => ret Iterating
  | c :: rest =>
      st <- TaskRunner_select m c ;;
      match st with
      | Iterating => TaskRunner_for m rest
      | other => ret other
      end
  end.

(** TaskRunner processes new tasks. *)
Definition TaskRunner (m : etcdMinion) (cases : list RunnerCase) : M Loop :=
  log_Printf LogStartingRunner ;;
  TaskRunner_for m cases.

(** Serve starts the minion. *)
Definition Serve (m : etcdMinion) : M (option error) :=
  err <- SetName m (name m) ;;
  match err with
  | Some e => ret (Some e)
  | None =>
      now <- time_Now ;;
      err <- SetLastseen m (time.Unix now) ;;
      match err with
      | Some e => ret (Some e)
      | None =>
          go WClassify ;;
          go WCheckQueue ;;
          go WPeriodicRunner ;;
          go WTaskRunner ;;
          go WTaskListener ;;
          log_Printf (LogReady (ID m)) ;;
          ret None
      end
  end.

(** Stop shutdowns the minions and its services. *)
Definition Stop (m : etcdMinion) : M (option error) :=
  log_Printf LogShuttingDown ;;
  close_taskQueue ;;
  close_done ;;
  ret None.

(** The key of the log record of a task, and the record written for a
    snapshot of a task: nothing when the snapshot cannot be serialized. *)
Definition taskKey (m : etcdMinion) (id : uuid.UUID) : string :=
  filepath.Join [logDir m; uuid.String_ id].

Definition record_of (t : task.Task) : list string :=
  match json_Marshal_Task t with
  | (data, None) => [data]
  | (_, Some _) => []
  end.


Definition processing (t : task.Task) : task.Task :=
  task.set_State task.TaskStateProcessing t.

Definition outcome (t : task.Task) : task.TaskState :=
  match snd (task.Run (task.Catalog_ t)) with
  | Some _ => task.TaskStateFailed
  | None => task.TaskStateSuccess
  end.

Definition processed (now : Z) (t : task.Task) : task.Task :=
  task.set_State (outcome t)
    (task.set_Result
       (("Loaded " +:+ strconv.FormatInt (task.Len (task.Catalog_ t)) +:+
         " resources from catalog") +:+ fst (task.Run (task.Catalog_ t)))
       (task.set_TimeProcessed (time.Unix now) (processing t))).







End Minion.

(** ** Observations on a trace *)

(** The keys deleted, the tasks sent and the delays slept, in order. *)
Definition deletes (tr : list Event) : list string :=
  omap (fun e => match e with EvDelete k => Some k | _ => None end) tr.

Definition sends (tr : list Event) : list (option task.Task) :=
  omap (fun e => match e with EvSend t => Some t | _ => None end) tr.

Definition sleeps (tr : list Event) : list Z :=
  omap (fun e => match e with EvSleep d => Some d | _ => None end) tr.

(** The values written at a key, in order. *)
Definition writes_at (key : string) (tr : list Event) : list string :=
  omap (fun e => match e with
                 | EvSet k v _ => if String.eqb k key then Some v else None
                 | _ => None
                 end) tr.

(** The delays of a sequence never go down. *)
Fixpoint non_decreasing (ds : list Z) : bool :=
  match ds with
  | d1 :: ((d2 :: _) as rest) => (d1 <=? d2) && non_decreasing rest
  | _ => true
  end.

(** ** A concrete instance, to run the minion on

    A small stand-in for the imports: identifiers are the first sixteen bytes
    of the name, a task is written as the name of its state, and three queue
    payloads are understood. *)
Module Sample.

Definition pad16 (bs : list Byte.byte) : list Byte.byte :=
  firstn 16 (bs ++ repeat Byte.x00 16).

Definition derive (name : string) : uuid.UUID := pad16 (String.list_byte_of_string name).

Definition empty_catalog : task.Catalog := task.mkCatalog 0 ("", None).

Definition T1 : task.Task :=
  task.mkTask (derive "task-one") empty_catalog false task.TaskStateUnknown 0 0 "".

Definition T2 : task.Task :=
  task.mkTask (derive "task-two") empty_catalog true task.TaskStateUnknown 0 0 "".

Definition zero_task : task.Task :=
  task.mkTask [] empty_catalog false task.TaskStateUnknown 0 0 "".

Definition decode (data : string) : option task.Task * option error :=
  if String.eqb data "T1" then (Some T1, None)
  else if String.eqb data "T2" then (Some T2, None)
  else if String.eqb data "null" then (None, None)
  else (Some zero_task, Some (OtherError "invalid character")).

Definition state_name (s : task.TaskState) : string :=
  match s with
  | task.TaskStateUnknown => "unknown"
  | task.TaskStateQueued => "queued"
  | task.TaskStateProcessing => "processing"
  | task.TaskStateSuccess => "success"
  | task.TaskStateFailed => "failed"
  end.

Definition encode (t : task.Task) : string * option error :=
  (state_name (task.State t), None).

Definition encode_classifier (c : classifier.Classifier) : string * option error :=
  (classifier.Key c +:+ "=" +:+ classifier.Value c, None).

Definition lookup_classifier (key : string) : classifier.Classifier + error :=
  if String.eqb key "fqdn" then inl (classifier.mkClassifier "fqdn" "kevin.example.org")
  else inr (OtherError "classifier key not found").

Definition imports : Imports :=
  mkImports derive decode encode encode_classifier ["fqdn"] lookup_classifier.

Definition Kevin : etcdMinion := NewEtcdMinion (imports := imports) "Kevin".

(** A fresh process: an empty store that answers every call, open channels,
    and the clock at 1450357761 seconds. *)
Definition fresh : World :=
  mkWorld ∅ [] false false (1450357761 * time.Second) [] [] [].

(** The same with one entry in the queue of Kevin. *)
Definition queued (entry payload : string) : World :=
  set_store (<[filepath.Join [queueDir Kevin; entry] := etcdclient.File payload]> ∅) fresh.

Definition event (action entry payload : string) : etcdclient.Response :=
  etcdclient.mkResponse action
    (etcdclient.mkNode (filepath.Join [queueDir Kevin; entry]) payload false []).

End Sample.

(** A second instance, with a stricter codec: the payload [null] is refused
    like any other malformed payload, and a task without a sixteen-byte
    identifier cannot be serialized. *)
Module Strict.

Definition decode (data : string) : option task.Task * option error :=
  if String.eqb data "T1" then (Some Sample.T1, None)
  else if String.eqb data "T2" then (Some Sample.T2, None)
  else (Some Sample.zero_task, Some (OtherError "invalid character")).

Definition encode (t : task.Task) : string * option error :=
  if Nat.eqb (List.length (task.TaskID t)) 16 then Sample.encode t
  else ("", Some (OtherError "json: error calling MarshalJSON")).

Definition imports : Imports :=
  mkImports Sample.derive decode encode Sample.encode_classifier ["fqdn"; "os"]
    Sample.lookup_classifier.

End Strict.

(** ** Plain path elements

    An element of a path is plain when [filepath.Clean] has nothing to do on
    it: it is not empty, holds no separator, and is neither [.] nor [..]. *)
Fixpoint slash_free (s : string) : bool :=
  match s with
  | EmptyString => true
  | String c s' => negb (Ascii.eqb c filepath.slash) && slash_free s'
  end.

Definition plain (e : string) : bool :=
  slash_free e && negb (String.eqb e "") && negb (String.eqb e ".") && negb (String.eqb e "..").

(** ** Words up to case

    Two words are the same under a case-insensitive comparison when they agree
    once their letters are brought to lower case. *)
Definition same_word (s t : string) : Prop := gostrings.ToLower s = gostrings.ToLower t.

(** ** What a call leaves alone

    The calls of the etcd API and the log lines leave the channels, the clock,
    the random source and the started goroutines as they are. *)
Definition same_process (w w' : World) : Prop :=
  taskQueue_closed w' = taskQueue_closed w /\
  done_closed w' = done_closed w /\
  clock w' = clock w /\
  random w' = random w /\
  started w' = started w.

(** A computation that ends normally in [w'], having added the events [evs]
    and left the process alone. *)
Definition quietly {A} (c : M A) (w : World) (a : A) (evs : list Event) (w' : World) : Prop :=
  c w = (Val a, w') /\ trace w' = trace w ++ evs /\ same_process w w'.


(** The coming round trip to etcd goes through. *)
Definition goes_through (w : World) : Prop :=
  match outcomes w with
  | Some _ :: _ => False
  | _ => True
  end.

(** The ceiling of the delay of the [k]-th retry in a row, for the settings of
    the listener, and the generator of the listener after [k] retries in a
    row. *)
Definition envelope (k : Z) : Z := Z.min (10 * time.Minute) (1 * time.Second * 2 ^ k).

Definition retrying (k : Z) : backoff.Backoff :=
  backoff.mkBackoff (1 * time.Second) (10 * time.Minute) 2 true k.

(** ** More observations

    The writes of a trace with their time to live, the calls of the etcd API
    in a trace, and a key at which the store holds no file. *)
Definition sets (tr : list Event) : list (string * string * Z) :=
  omap (fun e => match e with EvSet k v ttl => Some (k, v, ttl) | _ => None end) tr.

Definition is_call (e : Event) : bool :=
  match e with
  | EvGet _ | EvSet _ _ _ | EvDelete _ => true
  | _ => false
  end.

Definition calls (tr : list Event) : list Event := List.filter is_call tr.

Definition no_file (key : string) (s : gmap string etcdclient.Entry) : Prop :=
  forall v, s !! key <> Some (etcdclient.File v).

(** A directory is flat in a store when all that the store holds below it are
    files directly below it: no directory and no file further down.  On a flat
    directory the nodes of a recursive get are the files of the directory, as
    the store lists them. *)
Fixpoint string_drop (n : nat) (s : string) : string :=
  match n, s with
  | O, _ => s
  | S n', String _ s' => string_drop n' s'
  | S _, EmptyString => EmptyString
  end.

Definition flat_entry (d : string) (kv : string * etcdclient.Entry) : bool :=
  if String.prefix (d +:+ "/") kv.1 then
    match kv.2 with
    | etcdclient.File _ =>
        let leaf := string_drop (String.length d + 1) kv.1 in
        slash_free leaf && negb (String.eqb leaf "")
    | etcdclient.Directory => false
    end
  else true.

Definition flat (d : string) (s : gmap string etcdclient.Entry) : bool :=
  forallb (flat_entry d) (map_to_list s).

(** What the runner may do, and what the drainer and the watcher may do: the
    runner writes log records without expiry, reads no key, deletes none and
    sends nothing; the senders write nothing, receive nothing and start no
    goroutine. *)
Definition runner_event (m : etcdMinion) (e : Event) : Prop :=
  match e with
  | EvGet _ | EvDelete _ | EvSend _ | EvSleep _ => False
  | EvSet k _ ttl => (exists id, k = taskKey m id) /\ ttl = 0
  | EvRecv _ | EvGo _ | EvLog _ => True
  end.

Definition sender_event (e : Event) : Prop :=
  match e with
  | EvSet _ _ _ | EvRecv _ | EvGo _ => False
  | EvGet _ | EvDelete _ | EvSend _ | EvSleep _ | EvLog _ => True
  end.

(** A computation all of whose events, however it ends, satisfy [P]. *)
Definition emits {A} (P : Event -> Prop) (c : M A) : Prop :=
  forall w, exists evs, trace (snd (c w)) = trace w ++ evs /\ Forall P evs.


Section Observations.

Context {imports : Imports}.


(** A decoder that never hands back a nil task without an error. *)
Definition decoder_gives_tasks : Prop :=
  forall data, json_Unmarshal_Task data <> (None, None).

End Observations.

(** * The service resource

    [resource/service.go] manages a unit of systemd over the bus of the
    system.  The bus is the environment: what it answers to a call is a
    function of all that this process has done so far (the calls made and the
    lines logged, oldest first), so that the state of a computation is that
    history alone. *)
Module service.

(** [dbus.Variant]: the value of a property; the code asserts it to be a
    string. *)
Inductive Variant : Type :=
| VString (s : string)
| VOther.

Record Property : Type := mkProperty {
  PName : string;
  Value : Variant
}.

(** [dbus.EnableUnitFileChange] and [dbus.DisableUnitFileChange]. *)
Record EnableUnitFileChange : Type := mkEnableChange {
  EType : string;
  EFilename : string;
  EDestination : string
}.

Record DisableUnitFileChange : Type := mkDisableChange {
  DType : string;
  DFilename : string;
  DDestination : string
}.

(** The lines that the resource logs. *)
Inductive Line : Type :=
| LogEnabling
| LogDisabling
| LogStarting
| LogStopping
| LogEnableChange (type filename destination : string)
| LogDisableChange (type filename : string)
| LogJob (id : Z) (result : string).

(** What the process does: [dbus.New] (with whether a connection came back),
    [conn.Close], the methods called on a connection, and [s.Log]. *)
Inductive Call : Type :=
| CNew (connected : bool)
| CClose
| CGetUnitProperty (unit name : string)
| CEnableUnitFiles (units : list string) (runtime force : bool)
| CDisableUnitFiles (units : list string) (runtime : bool)
| CStartUnit (unit mode : string)
| CStopUnit (unit mode : string)
| CReload
| CLog (l : Line).

(** The system: whether it runs systemd, and the answers of the bus after a
    given history.  A started or stopped job answers with its identifier and
    the result that systemd sends on the channel handed to it. *)
Class Bus : Type := mkBus {
  util_IsRunningSystemd : bool;
  dbus_New : list Call -> option error;
  conn_GetUnitProperty : list Call -> string -> string -> Property + error;
  conn_EnableUnitFiles :
    list Call -> list string -> bool -> bool -> (bool * list EnableUnitFileChange) + error;
  conn_DisableUnitFiles :
    list Call -> list string -> bool -> list DisableUnitFileChange + error;
  conn_StartUnit : list Call -> string -> string -> (Z * string) + error;
  conn_StopUnit : list Call -> string -> string -> (Z * string) + error;
  conn_Reload : list Call -> option error
}.

(** [Base], the part that all resources share, and [Service]. *)
Record Base : Type := mkBase {
  Name : string;
  Type_ : string;
  State_ : string;
  Require_ : list string;
  PresentStates : list string;
  AbsentStates : list string;
  Concurrent : bool
}.

Record Service : Type := mkService {
  Base_ : Base;
  Enable : bool;
  unit_ : string
}.

(** [State], the result of an evaluation. *)
Record State : Type := mkState {
  Current : string;
  Want : string;
  Outdated : bool
}.

Definition ErrNoSystemd : error := OtherError "No systemd support found".

Definition interface_conversion : string :=
  "interface conversion: interface {} is not string".

(** Computations: the history is threaded, and a computation may panic. *)
Definition M (A : Type) : Type := list Call -> Res A * list Call.

Definition ret {A} (a : A) : M A := fun tr => (Val a, tr).

Definition bind {A B} (c : M A) (k : A -> M B) : M B :=
  fun tr => match c tr with
            | (Val a, tr') => k a tr'
            | (Panic msg, tr') => (Panic msg, tr')
            end.

Definition panic {A} (msg : string) : M A := fun tr => (Panic msg, tr).

Declare Scope bus_scope.
Delimit Scope bus_scope with bus.
Notation "x <- c ;; k" := (bind c (fun x => k))
  (at level 100, c at next level, right associativity) : bus_scope.
Notation "c ;; k" := (bind c (fun _ => k))
  (at level 100, right associativity) : bus_scope.
Local Open Scope bus_scope.

(** A call whose answer the bus gives after the history so far. *)
Definition call {A} (answer : list Call -> A) (c : Call) : M A :=
  fun tr => (Val (answer tr), tr ++ [c]).

Definition Log (l : Line) : M unit := call (fun _ => tt) (CLog l).

(** [defer conn.Close()]: the connection is closed when the rest of the
    function is over, whether it returned or panicked. *)
Definition defer_Close {A} (rest : M A) : M A :=
  fun tr => let '(r, tr') := rest tr in (r, tr' ++ [CClose]).

Section Service.

Context {bus : Bus}.

(** [NewService]. *)
Definition NewService (name : string) : option Service * option error :=
  if negb util_IsRunningSystemd then (None, Some ErrNoSystemd)
  else
    (Some (mkService
             (mkBase name "service" "running" [] ["present"; "running"] ["absent"; "stopped"]
                true)
             true
             (name +:+ ".service")),
     None).

(** [dbus.New]. *)
Definition New : M (option error) :=
  fun tr =>
    let r := dbus_New tr in
    (Val r, tr ++ [CNew match r with None => true | Some _ => false end]).

(** The opening of every function that talks to the bus:
    [conn, err := dbus.New()], the return of what the function returns on
    [err != nil], and [defer conn.Close()] before the rest. *)
Definition with_conn {A} (failed : error -> A) (rest : M A) : M A :=
  err <- New ;;
  match err with
  | Some e => ret (failed e)
  | None => defer_Close rest
  end.

Definition GetUnitProperty (unit name : string) : M (option Property * option error) :=
  call (fun tr => match conn_GetUnitProperty tr unit name with
                  | inl p => (Some p, None)
                  | inr e => (None, Some e)
                  end)
       (CGetUnitProperty unit name).

Definition EnableUnitFiles (units : list string) (runtime force : bool) :
    M ((bool * list EnableUnitFileChange) + error) :=
  call (fun tr => conn_EnableUnitFiles tr units runtime force)
       (CEnableUnitFiles units runtime force).

Definition DisableUnitFiles (units : list string) (runtime : bool) :
    M (list DisableUnitFileChange + error) :=
  call (fun tr => conn_DisableUnitFiles tr units runtime) (CDisableUnitFiles units runtime).

Definition StartUnit (unit mode : string) : M ((Z * string) + error) :=
  call (fun tr => conn_StartUnit tr unit mode) (CStartUnit unit mode).

Definition StopUnit (unit mode : string) : M ((Z * string) + error) :=
  call (fun tr => conn_StopUnit tr unit mode) (CStopUnit unit mode).

Definition Reload : M (option error) := call conn_Reload CReload.

(** [unitProperty]. *)
Definition unitProperty (s : Service) (name : string) : M (option Property * option error) :=
  with_conn (fun e => (None, Some e)) (GetUnitProperty (unit_ s) name).

(** [property.Value.Value().(string)], on a property that may be nil. *)
Definition string_value (p : option Property) : M string :=
  match p with
  | None => panic nil_dereference
  | Some p =>
      match Value p with
      | VString value => ret value
      | VOther => panic interface_conversion
      end
  end.

Definition one_of (value : string) (cases : list string) : bool :=
  existsb (String.eqb value) cases.

(** [unitIsEnabled]. *)
Definition unitIsEnabled (s : Service) : M (bool * option error) :=
  r <- unitProperty s "UnitFileState" ;;
  match r with
  | (_, Some e) => ret (false, Some e)
  | (unitState, None) =>
      value <- string_value unitState ;;
      if one_of value ["enabled"; "static"; "enabled-runtime"; "linked"; "linked-runtime"]
      then ret (true, None)
      else if one_of value ["disabled"; "masked"; "masked-runtime"]
      then ret (false, None)
      else ret (false, Some (OtherError "Invalid unit state"))
  end.

Fixpoint log_enable_changes (changes : list EnableUnitFileChange) : M unit :=
  match changes with
  | [] => ret tt
  | change :: rest =>
      Log (LogEnableChange (EType change) (EFilename change) (EDestination change)) ;;
      log_enable_changes rest
  end.

Fixpoint log_disable_changes (changes : list DisableUnitFileChange) : M unit :=
  match changes with
  | [] => ret tt
  | change :: rest =>
      Log (LogDisableChange (DType change) (DFilename change)) ;;
      log_disable_changes rest
  end.

(** [enableUnit]. *)
Definition enableUnit (s : Service) : M (option error) :=
  with_conn Some
    (Log LogEnabling ;;
     r <- EnableUnitFiles [unit_ s] false false ;;
     match r with
     | inr e => ret (Some e)
     | inl (_, changes) => log_enable_changes changes ;; ret None
     end).

(** [disableUnit]. *)
Definition disableUnit (s : Service) : M (option error) :=
  with_conn Some
    (Log LogDisabling ;;
     r <- DisableUnitFiles [unit_ s] false ;;
     match r with
     | inr e => ret (Some e)
     | inl changes => log_disable_changes changes ;; ret None
     end).

(** [daemonReload]. *)
Definition daemonReload (s : Service) : M (option error) :=
  with_conn Some Reload.

(** [setUnitState]. *)
Definition setUnitState (s : Service) : M (option error) :=
  r <- unitIsEnabled s ;;
  match r with
  | (_, Some e) => ret (Some e)
  | (enabled, None) =>
      if Enable s && negb enabled then
        err <- enableUnit s ;;
        match err with
        | Some e => ret (Some e)
        | None => daemonReload s
        end
      else
        err <- disableUnit s ;;
        match err with
        | Some e => ret (Some e)
        | None => daemonReload s
        end
  end.

(** The [switch] of [Evaluate] on the active state of the unit. *)
Definition current_of (value : string) (current : string) : string :=
  if one_of value ["active"; "reloading"; "activating"] then "running"
  else if one_of value ["inactive"; "failed"; "deactivating"] then "stopped"
  else current.

(** [Evaluate]. *)
Definition Evaluate (s : Service) : M (State * option error) :=
  let state := mkState "unknown" (State_ (Base_ s)) false in
  r <- unitProperty s "ActiveState" ;;
  match r with
  | (_, Some e) => ret (state, Some e)
  | (activeState, None) =>
      value <- string_value activeState ;;
      let state := mkState (current_of value (Current state)) (Want state) (Outdated state) in
      r <- unitIsEnabled s ;;
      match r with
      | (_, Some e) => ret (state, Some e)
      | (enabled, None) =>
          if negb (Bool.eqb (Enable s) enabled)
          then ret (mkState (Current state) (Want state) true, None)
          else ret (state, None)
      end
  end.

(** [Create]: the result of the job is received from the channel before it is
    logged. *)
Definition Create (s : Service) : M (option error) :=
  with_conn Some
    (Log LogStarting ;;
     r <- StartUnit (unit_ s) "replace" ;;
     match r with
     | inr e => ret (Some e)
     | inl (jobID, result) => Log (LogJob jobID result) ;; setUnitState s
     end).

(** [Delete]. *)
Definition Delete (s : Service) : M (option error) :=
  with_conn Some
    (Log LogStopping ;;
     r <- StopUnit (unit_ s) "replace" ;;
     match r with
     | inr e => ret (Some e)
     | inl (jobID, result) => Log (LogJob jobID result) ;; setUnitState s
     end).

(** [Update]. *)
Definition Update (s : Service) : M (option error) := setUnitState s.

End Service.

(** ** Observations on a history *)

(** The connections of a stretch of history that starts with [open]
    connections open: the number left open at its end, provided that no more
    than [limit] were ever open at once, that none was closed that was not
    open, and that every method was called while one was open. *)
Fixpoint connections (limit : nat) (calls : list Call) (open : nat) : option nat :=
  match calls with
  | [] => Some open
  | c :: rest =>
      match c with
      | CNew true =>
          if Nat.leb (S open) limit then connections limit rest (S open) else None
      | CNew false => connections limit rest open
      | CLog _ => connections limit rest open
      | CClose =>
          match open with
          | O => None
          | S open' => connections limit rest open'
          end
      | _ =>
          match open with
          | O => None
          | S _ => connections limit rest open
          end
      end
  end.

(** The methods called on the connections, in order. *)
Definition method (c : Call) : bool :=
  match c with
  | CNew _ | CClose | CLog _ => false
  | _ => true
  end.

Definition asked (calls : list Call) : list Call := List.filter method calls.

(** A computation is scoped when, started with [open] connections open, it
    ends with as many, however it ends. *)
Definition scoped {A} (open limit : nat) (c : M A) : Prop :=
  forall tr, exists calls,
    snd (c tr) = tr ++ calls /\ connections limit calls open = Some open.

(** The same service, wanted in another state. *)
Definition wanted (state : string) (s : Service) : Service :=
  mkService
    (mkBase (Name (Base_ s)) (Type_ (Base_ s)) state (Require_ (Base_ s))
       (PresentStates (Base_ s)) (AbsentStates (Base_ s)) (Concurrent (Base_ s)))
    (Enable s) (unit_ s).

(** The one call of [setUnitState] that changes the unit, for a unit found
    enabled or not. *)
Definition change_of (s : Service) (enabled : bool) : Call :=
  if Enable s && negb enabled then CEnableUnitFiles [unit_ s] false false
  else CDisableUnitFiles [unit_ s] false.

(** A call that only opens or closes a connection or reads a property of the
    unit. *)
Definition reads_only (unit : string) (c : Call) : bool :=
  match c with
  | CNew _ | CClose => true
  | CGetUnitProperty u name =>
      String.eqb u unit && one_of name ["ActiveState"; "UnitFileState"]
  | _ => false
  end.

(** A host with systemd where the bus accepts every connection, reports the
    given active and unit file states, and runs every job to the given
    answer. *)
Definition host (active file : Variant) (job : (Z * string) + error) : Bus :=
  mkBus true
    (fun _ => None)
    (fun _ _ name =>
       inl (mkProperty name (if String.eqb name "ActiveState" then active else file)))
    (fun _ units _ _ =>
       inl (true, map (fun u => mkEnableChange "symlink"
                                  ("/etc/systemd/system/multi-user.target.wants/" +:+ u)
                                  ("/usr/lib/systemd/system/" +:+ u)) units))
    (fun _ units _ =>
       inl (map (fun u => mkDisableChange "unlink"
                            ("/etc/systemd/system/multi-user.target.wants/" +:+ u) "") units))
    (fun _ _ _ => job)
    (fun _ _ _ => job)
    (fun _ => None).

(** The service [nginx] as [NewService] makes it. *)
Definition nginx : Service :=
  mkService
    (mkBase "nginx" "service" "running" [] ["present"; "running"] ["absent"; "stopped"] true)
    true "nginx.service".

End service.

(** * Facts *)

Local Arguments String.append !_ _ / : simpl nomatch.

(** ** [strconv]: the digits of [FormatInt] *)

Lemma digit_value_digit_byte (d : Z) :
  0 <= d <= 9 -> strconv.digit_value (strconv.digit_byte d) = Some d.
Proof.
  intros Hd. unfold strconv.digit_value, strconv.digit_byte.
  rewrite nat_ascii_embedding by lia.
  rewrite Z2Nat.id by lia.
  replace (48 <=? 48 + d) with true by (symmetry; apply Z.leb_le; lia).
  replace (48 + d <=? 57) with true by (symmetry; apply Z.leb_le; lia).
  simpl. f_equal. lia.
Qed.

Lemma decimal_value_from_app (s1 s2 : string) : forall a,
  strconv.decimal_value_from a (s1 +:+ s2) =
  match strconv.decimal_value_from a s1 with
  | Some a' => strconv.decimal_value_from a' s2
  | None => None
  end.
Proof.
  induction s1 as [|c s1 IH]; intros a; simpl; [reflexivity|].
  destruct (strconv.digit_value c); [apply IH | reflexivity].
Qed.

Lemma string_app_assoc (s1 s2 s3 : string) :
  (s1 +:+ s2) +:+ s3 = s1 +:+ (s2 +:+ s3).
Proof. induction s1; simpl; [reflexivity | f_equal; assumption]. Qed.

Lemma string_app_empty_r (s : string) : s +:+ EmptyString = s.
Proof. induction s; simpl; [reflexivity | f_equal; assumption]. Qed.

Lemma formatBits_acc (room : nat) : forall u acc,
  strconv.formatBits room u acc = strconv.formatBits room u EmptyString +:+ acc.
Proof.
  induction room as [|room IH]; intros u acc; simpl; [reflexivity|].
  destruct (10 <=? u); [|reflexivity].
  rewrite IH. rewrite (IH _ (String _ EmptyString)).
  rewrite string_app_assoc. reflexivity.
Qed.

Lemma string_length_app (s1 s2 : string) :
  String.length (s1 +:+ s2) = (String.length s1 + String.length s2)%nat.
Proof. induction s1; simpl; [reflexivity | f_equal; assumption]. Qed.

(** Read back from an accumulator [a], the digits written for [u] shift [a] by
    as many places as there are digits and add [u]. *)
Lemma formatBits_value (room : nat) : forall u a,
  0 <= u < 10 ^ Z.of_nat room ->
  strconv.decimal_value_from a (strconv.formatBits room u EmptyString) =
  Some (a * 10 ^ Z.of_nat (String.length (strconv.formatBits room u EmptyString)) + u).
Proof.
  induction room as [|room IH]; intros u a Hu.
  - simpl in *. f_equal. lia.
  - simpl strconv.formatBits. destruct (10 <=? u) eqn:Hge.
    + apply Z.leb_le in Hge.
      rewrite formatBits_acc, decimal_value_from_app, string_length_app.
      assert (Hq : 0 <= u / 10 < 10 ^ Z.of_nat room).
      { split; [apply Z.div_pos; lia|].
        apply Z.div_lt_upper_bound; [lia|].
        rewrite Nat2Z.inj_succ, Z.pow_succ_r in Hu by lia. lia. }
      rewrite (IH _ _ Hq). simpl strconv.decimal_value_from.
      rewrite digit_value_digit_byte.
      2:{ pose proof (Z.mod_pos_bound u 10 ltac:(lia)) as Hm.
          rewrite Z.mod_eq in Hm by lia. lia. }
      f_equal. simpl String.length.
      rewrite Nat2Z.inj_add. change (Z.of_nat 1) with 1.
      rewrite Z.pow_add_r by lia. change (10 ^ 1) with 10.
      pose proof (Z.div_mod u 10 ltac:(lia)) as Hdm.
      rewrite Z.mod_eq in Hdm by lia. lia.
    + apply Z.leb_gt in Hge. simpl.
      rewrite digit_value_digit_byte by lia. f_equal; lia.
Qed.

Lemma formatBits_nonempty (room : nat) (u : Z) :
  strconv.formatBits (S room) u EmptyString <> EmptyString.
Proof.
  simpl. destruct (10 <=? u); [|discriminate].
  rewrite formatBits_acc. destruct (strconv.formatBits room (u / 10) EmptyString); discriminate.
Qed.

Lemma digit_byte_nonzero (d : Z) :
  1 <= d <= 9 -> strconv.digit_byte d <> "0"%char.
Proof.
  intros Hd.
  assert (H : d = 1 \/ d = 2 \/ d = 3 \/ d = 4 \/ d = 5 \/ d = 6 \/ d = 7 \/ d = 8 \/ d = 9) by lia.
  repeat (destruct H as [-> | H]; [discriminate|]). subst d. discriminate.
Qed.

(** The first digit written for a positive number is not a zero. *)
Lemma formatBits_first_digit (room : nat) : forall u,
  1 <= u < 10 ^ Z.of_nat room ->
  exists c s, strconv.formatBits room u EmptyString = String c s /\ c <> "0"%char.
Proof.
  induction room as [|room IH]; intros u Hu.
  - simpl in Hu. lia.
  - simpl. destruct (10 <=? u) eqn:Hge.
    + apply Z.leb_le in Hge.
      assert (Hq : 1 <= u / 10 < 10 ^ Z.of_nat room).
      { split; [apply Z.div_le_lower_bound; lia|].
        apply Z.div_lt_upper_bound; [lia|].
        rewrite Nat2Z.inj_succ, Z.pow_succ_r in Hu by lia. lia. }
      destruct (IH _ Hq) as (c & s & Heq & Hc).
      rewrite formatBits_acc, Heq. simpl. eauto.
    + apply Z.leb_gt in Hge. eexists _, _. split; [reflexivity|].
      apply digit_byte_nonzero. lia.
Qed.

Lemma formatBits_no_leading_zero (room : nat) (u : Z) :
  0 <= u < 10 ^ Z.of_nat room ->
  strconv.no_leading_zero (strconv.formatBits room u EmptyString) = true.
Proof.
  intros Hu. destruct room as [|room]; [reflexivity|].
  simpl. destruct (10 <=? u) eqn:Hge.
  - apply Z.leb_le in Hge.
    assert (Hq : 1 <= u / 10 < 10 ^ Z.of_nat room).
    { split; [apply Z.div_le_lower_bound; lia|].
      apply Z.div_lt_upper_bound; [lia|].
      rewrite Nat2Z.inj_succ, Z.pow_succ_r in Hu by lia. lia. }
    destruct (formatBits_first_digit _ _ Hq) as (c & s & Heq & Hc).
    rewrite formatBits_acc, Heq. simpl.
    destruct c as [[] [] [] [] [] [] [] []]; try reflexivity.
    exfalso. apply Hc. reflexivity.
  - destruct (strconv.digit_byte u) as [[] [] [] [] [] [] [] []]; reflexivity.
Qed.

(** For an [int64] that is not negative, [FormatInt] writes the canonical
    decimal numeral of the number: digits only, read back as the number, and
    no leading zero. *)
Lemma FormatInt_decimal (s : Z) :
  0 <= s < 2 ^ 63 ->
  strconv.decimal_value (strconv.FormatInt s) = Some s /\
  strconv.no_leading_zero (strconv.FormatInt s) = true.
Proof.
  intros Hs. unfold strconv.FormatInt.
  replace (s <? 0) with false by (symmetry; apply Z.ltb_ge; lia).
  assert (Hroom : 0 <= s < 10 ^ Z.of_nat 65).
  { split; [lia|]. eapply Z.lt_le_trans; [apply Hs|]. vm_compute. discriminate. }
  split.
  - unfold strconv.decimal_value.
    pose proof (formatBits_nonempty 64 s) as Hne.
    destruct (strconv.formatBits 65 s EmptyString) eqn:Heq; [congruence|].
    rewrite <- Heq. rewrite formatBits_value by exact Hroom. f_equal; lia.
  - apply formatBits_no_leading_zero. exact Hroom.
Qed.

(** *** A number has one canonical numeral *)

Lemma digit_value_range (c : ascii) (d : Z) :
  strconv.digit_value c = Some d -> 0 <= d <= 9.
Proof.
  unfold strconv.digit_value.
  destruct (48 <=? Z.of_nat (nat_of_ascii c)) eqn:H1;
    destruct (Z.of_nat (nat_of_ascii c) <=? 57) eqn:H2; simpl; try discriminate.
  intros H. injection H as <-.
  apply Z.leb_le in H1. apply Z.leb_le in H2. lia.
Qed.

Lemma digit_value_inj (c1 c2 : ascii) (d : Z) :
  strconv.digit_value c1 = Some d -> strconv.digit_value c2 = Some d -> c1 = c2.
Proof.
  unfold strconv.digit_value.
  destruct (48 <=? Z.of_nat (nat_of_ascii c1)) eqn:H1;
    destruct (Z.of_nat (nat_of_ascii c1) <=? 57); simpl; try discriminate.
  destruct (48 <=? Z.of_nat (nat_of_ascii c2)) eqn:H2;
    destruct (Z.of_nat (nat_of_ascii c2) <=? 57); simpl; try discriminate.
  intros Ha Hb. injection Ha as Ha. injection Hb as Hb.
  assert (Hn : nat_of_ascii c1 = nat_of_ascii c2) by lia.
  rewrite <- (ascii_nat_embedding c1), <- (ascii_nat_embedding c2), Hn. reflexivity.
Qed.

(** The digits read after an accumulator [a] leave the value in the block of
    [a]. *)
Lemma decimal_value_from_bounds (s : string) : forall a v,
  0 <= a ->
  strconv.decimal_value_from a s = Some v ->
  a * 10 ^ Z.of_nat (String.length s) <= v < (a + 1) * 10 ^ Z.of_nat (String.length s).
Proof.
  induction s as [|c s IH]; intros a v Ha Hv; simpl in Hv.
  - injection Hv as <-. simpl. lia.
  - destruct (strconv.digit_value c) as [d|] eqn:Hd; [|discriminate].
    apply digit_value_range in Hd.
    assert (Ha' : 0 <= a * 10 + d) by lia.
    specialize (IH _ _ Ha' Hv).
    simpl String.length. rewrite Nat2Z.inj_succ, Z.pow_succ_r by lia.
    assert (Hp : 0 < 10 ^ Z.of_nat (String.length s)) by (apply Z.pow_pos_nonneg; lia).
    nia.
Qed.

Lemma decimal_value_from_inj (s1 : string) : forall s2 a v,
  0 <= a ->
  String.length s1 = String.length s2 ->
  strconv.decimal_value_from a s1 = Some v ->
  strconv.decimal_value_from a s2 = Some v ->
  s1 = s2.
Proof.
  induction s1 as [|c1 s1 IH]; intros [|c2 s2] a v Ha Hlen H1 H2;
    try discriminate; [reflexivity|].
  simpl in H1, H2. injection Hlen as Hlen.
  destruct (strconv.digit_value c1) as [d1|] eqn:Hd1; [|discriminate].
  destruct (strconv.digit_value c2) as [d2|] eqn:Hd2; [|discriminate].
  pose proof (digit_value_range _ _ Hd1) as Hr1.
  pose proof (digit_value_range _ _ Hd2) as Hr2.
  assert (Ha1 : 0 <= a * 10 + d1) by lia.
  assert (Ha2 : 0 <= a * 10 + d2) by lia.
  pose proof (decimal_value_from_bounds _ _ _ Ha1 H1) as Hb1.
  pose proof (decimal_value_from_bounds _ _ _ Ha2 H2) as Hb2.
  rewrite <- Hlen in Hb2.
  assert (Hp : 0 < 10 ^ Z.of_nat (String.length s1)) by (apply Z.pow_pos_nonneg; lia).
  assert (Hd : d1 = d2) by nia.
  subst d2. rewrite (digit_value_inj _ _ _ Hd1 Hd2). f_equal.
  eapply (IH s2 (a * 10 + d1) v); eassumption.
Qed.

(** The value of a canonical numeral tells its length. *)
Lemma canonical_value_bounds (c : ascii) (s : string) (v : Z) :
  strconv.decimal_value (String c s) = Some v ->
  strconv.no_leading_zero (String c s) = true ->
  v < 10 ^ Z.of_nat (S (String.length s)) /\
  (s = EmptyString \/ 10 ^ Z.of_nat (String.length s) <= v).
Proof.
  intros Hv Hlead. unfold strconv.decimal_value in Hv.
  pose proof (decimal_value_from_bounds _ _ _ (Z.le_refl 0) Hv) as Hb.
  change (String.length (String c s)) with (S (String.length s)) in Hb.
  split; [lia|].
  destruct s as [|c' s']; [left; reflexivity | right].
  simpl in Hv. destruct (strconv.digit_value c) as [d|] eqn:Hd; [|discriminate].
  pose proof (digit_value_range _ _ Hd) as Hr.
  assert (Hnz : d <> 0).
  { intros ->. assert (c = "0"%char) as -> by (eapply digit_value_inj; [exact Hd | reflexivity]).
    discriminate Hlead. }
  change (strconv.decimal_value_from (0 * 10 + d) (String c' s') = Some v) in Hv.
  assert (Hd0 : 0 <= 0 * 10 + d) by lia.
  pose proof (decimal_value_from_bounds _ _ _ Hd0 Hv) as Hb'.
  assert (Hp : 0 < 10 ^ Z.of_nat (String.length (String c' s'))) by (apply Z.pow_pos_nonneg; lia).
  nia.
Qed.

Lemma canonical_unique (s1 s2 : string) (v : Z) :
  strconv.decimal_value s1 = Some v -> strconv.no_leading_zero s1 = true ->
  strconv.decimal_value s2 = Some v -> strconv.no_leading_zero s2 = true ->
  s1 = s2.
Proof.
  intros Hv1 Hl1 Hv2 Hl2.
  destruct s1 as [|c1 r1]; [discriminate|]. destruct s2 as [|c2 r2]; [discriminate|].
  destruct (canonical_value_bounds _ _ _ Hv1 Hl1) as [Hu1 Hlo1].
  destruct (canonical_value_bounds _ _ _ Hv2 Hl2) as [Hu2 Hlo2].
  assert (Hlen : String.length r1 = String.length r2).
  { destruct (Nat.lt_trichotomy (String.length r1) (String.length r2)) as [Hlt | [Heq | Hgt]];
      [exfalso | exact Heq | exfalso].
    - destruct Hlo2 as [-> | Hlo2]; [simpl in Hlt; lia|].
      assert (10 ^ Z.of_nat (S (String.length r1)) <= 10 ^ Z.of_nat (String.length r2))
        by (apply Z.pow_le_mono_r; lia).
      lia.
    - destruct Hlo1 as [-> | Hlo1]; [simpl in Hgt; lia|].
      assert (10 ^ Z.of_nat (S (String.length r2)) <= 10 ^ Z.of_nat (String.length r1))
        by (apply Z.pow_le_mono_r; lia).
      lia. }
  unfold strconv.decimal_value in Hv1, Hv2.
  eapply (decimal_value_from_inj _ _ 0 v); try eassumption; [lia|].
  simpl. f_equal. exact Hlen.
Qed.

(** ** [filepath]: paths made of plain elements are clean *)

Lemma split_from_slash_free (e : string) : forall cur s,
  slash_free e = true ->
  filepath.split_from cur (e +:+ s) = filepath.split_from (cur +:+ e) s.
Proof.
  induction e as [|c e IH]; intros cur s He; simpl in *.
  - rewrite string_app_empty_r. reflexivity.
  - apply andb_true_iff in He as [Hc He].
    apply negb_true_iff in Hc. rewrite Hc.
    rewrite IH by exact He. rewrite string_app_assoc. reflexivity.
Qed.

Lemma split_from_join (comps : list string) : forall cur e,
  Forall (fun x => slash_free x = true) (e :: comps) ->
  filepath.split_from cur (filepath.join (e :: comps)) = (cur +:+ e) :: comps.
Proof.
  induction comps as [|e2 rest IH]; intros cur e Hall.
  - simpl. rewrite <- (string_app_empty_r e) at 1.
    rewrite split_from_slash_free by (inversion Hall; assumption). reflexivity.
  - inversion Hall as [|? ? He Hrest]; subst.
    change (filepath.join (e :: e2 :: rest))
      with (e +:+ String filepath.slash (filepath.join (e2 :: rest))).
    rewrite split_from_slash_free by exact He.
    change (filepath.split_from (cur +:+ e)
              (String filepath.slash (filepath.join (e2 :: rest))))
      with ((cur +:+ e) :: filepath.split_from "" (filepath.join (e2 :: rest))).
    rewrite IH by exact Hrest. reflexivity.
Qed.

Lemma plain_slash_free (e : string) : plain e = true -> slash_free e = true.
Proof.
  unfold plain. intros H.
  repeat (apply andb_true_iff in H as [H ?]). exact H.
Qed.

Lemma clean_step_plain (r : bool) (out : list string) (e : string) :
  plain e = true -> filepath.clean_step r out e = out ++ [e].
Proof.
  unfold plain, filepath.clean_step. intros H.
  repeat (apply andb_true_iff in H as [H ?]).
  repeat match goal with Hn : negb _ = true |- _ => apply negb_true_iff in Hn; rewrite Hn end.
  reflexivity.
Qed.

Lemma fold_clean_step_plain (r : bool) (comps : list string) : forall out,
  Forall (fun x => plain x = true) comps ->
  fold_left (filepath.clean_step r) comps out = out ++ comps.
Proof.
  induction comps as [|e rest IH]; intros out Hall; simpl.
  - rewrite app_nil_r. reflexivity.
  - inversion Hall; subst. rewrite clean_step_plain by assumption.
    rewrite IH by assumption. rewrite <- app_assoc. reflexivity.
Qed.

(** A rooted path of plain elements is its own cleaning. *)
Lemma Clean_rooted_plain (e : string) (comps : list string) :
  Forall (fun x => plain x = true) (e :: comps) ->
  filepath.Clean (String filepath.slash (filepath.join (e :: comps))) =
  String filepath.slash (filepath.join (e :: comps)).
Proof.
  intros Hall. unfold filepath.Clean.
  change (String.eqb (String filepath.slash (filepath.join (e :: comps))) "") with false.
  cbv iota. change (filepath.rooted (String filepath.slash (filepath.join (e :: comps)))) with true.
  cbv zeta iota. f_equal.
  unfold filepath.split.
  change (filepath.split_from "" (String filepath.slash (filepath.join (e :: comps))))
    with ("" :: filepath.split_from "" (filepath.join (e :: comps))).
  rewrite split_from_join.
  2:{ eapply Forall_impl; [exact Hall|]. intros x Hx. apply plain_slash_free. exact Hx. }
  change ("" +:+ e) with e.
  change (fold_left (filepath.clean_step true) ("" :: e :: comps) [])
    with (fold_left (filepath.clean_step true) (e :: comps) []).
  rewrite fold_clean_step_plain by exact Hall. reflexivity.
Qed.

Lemma join_snoc (comps : list string) : forall e x,
  filepath.join ((e :: comps) ++ [x]) = filepath.join (e :: comps) +:+ String filepath.slash x.
Proof.
  induction comps as [|e2 rest IH]; intros e x.
  - reflexivity.
  - change (filepath.join ((e :: e2 :: rest) ++ [x]))
      with (e +:+ String filepath.slash (filepath.join ((e2 :: rest) ++ [x]))).
    rewrite IH.
    change (filepath.join (e :: e2 :: rest))
      with (e +:+ String filepath.slash (filepath.join (e2 :: rest))).
    rewrite string_app_assoc. reflexivity.
Qed.

Lemma plain_nonempty (e : string) : plain e = true -> String.eqb e "" = false.
Proof.
  unfold plain. intros H.
  repeat (apply andb_true_iff in H as [H ?]).
  apply negb_true_iff. assumption.
Qed.

(** Joining a plain element to a rooted path of plain elements appends it. *)
Lemma Join_rooted_plain (e : string) (comps : list string) (x : string) :
  Forall (fun y => plain y = true) (e :: comps) ->
  plain x = true ->
  filepath.Join [String filepath.slash (filepath.join (e :: comps)); x] =
  String filepath.slash (filepath.join ((e :: comps) ++ [x])).
Proof.
  intros Hall Hx. unfold filepath.Join.
  change (List.filter (fun e0 => negb (String.eqb e0 ""))
            [String filepath.slash (filepath.join (e :: comps)); x])
    with (String filepath.slash (filepath.join (e :: comps)) ::
          if negb (String.eqb x "") then [x] else []).
  rewrite (plain_nonempty _ Hx). cbv iota beta. simpl negb. cbv iota.
  change (filepath.join [String filepath.slash (filepath.join (e :: comps)); x])
    with (String filepath.slash (filepath.join (e :: comps) +:+ String filepath.slash x)).
  rewrite <- join_snoc.
  change ((e :: comps) ++ [x]) with (e :: (comps ++ [x])).
  apply Clean_rooted_plain.
  change (e :: comps ++ [x]) with ((e :: comps) ++ [x]).
  apply Forall_app. split; [exact Hall | repeat constructor; exact Hx].
Qed.

(** ** [uuid]: the text of an identifier is a plain path element *)

Lemma slash_free_app (s1 s2 : string) :
  slash_free (s1 +:+ s2) = slash_free s1 && slash_free s2.
Proof.
  induction s1 as [|c s1 IH]; simpl; [reflexivity|].
  rewrite IH, andb_assoc. reflexivity.
Qed.

Lemma slash_free_hex_byte (b : Byte.byte) : slash_free (uuid.hex_byte b) = true.
Proof. destruct b; reflexivity. Qed.

Lemma slash_free_hex (bs : list Byte.byte) : slash_free (uuid.hex bs) = true.
Proof.
  induction bs as [|b bs IH]; [reflexivity|].
  change (uuid.hex (b :: bs)) with (uuid.hex_byte b +:+ uuid.hex bs).
  rewrite slash_free_app, slash_free_hex_byte, IH. reflexivity.
Qed.

Lemma uuid_String_plain (u : uuid.UUID) :
  List.length u = 16%nat -> plain (uuid.String_ u) = true.
Proof.
  intros Hlen. unfold plain.
  assert (Hsf : slash_free (uuid.String_ u) = true).
  { unfold uuid.String_. rewrite Hlen. simpl Nat.eqb. cbv iota.
    repeat (rewrite slash_free_app || rewrite slash_free_hex). reflexivity. }
  rewrite Hsf.
  destruct u as [|b1 [|b2 u]]; try discriminate.
  unfold uuid.String_. rewrite Hlen. simpl Nat.eqb. cbv iota.
  change (firstn 4 (b1 :: b2 :: u)) with (b1 :: b2 :: firstn 2 u).
  unfold uuid.hex at 1. simpl fold_right. unfold uuid.hex_byte.
  simpl.
  destruct (Ascii.eqb (uuid.hex_digit (Byte.to_N b1 / 16)) ".");
    destruct (Ascii.eqb (uuid.hex_digit (Byte.to_N b1 mod 16)) "."); reflexivity.
Qed.

(** ** The primitives of the process *)

Lemma same_process_refl (w : World) : same_process w w.
Proof. unfold same_process. auto. Qed.

Lemma same_process_trans (w1 w2 w3 : World) :
  same_process w1 w2 -> same_process w2 w3 -> same_process w1 w3.
Proof. unfold same_process. intuition congruence. Qed.

Lemma quietly_ret {A} (a : A) (w : World) : quietly (ret a) w a [] w.
Proof.
  unfold quietly, ret. rewrite app_nil_r. auto using same_process_refl.
Qed.

Lemma quietly_bind {A B} (c : M A) (k : A -> M B) w a evs1 w1 b evs2 w2 :
  quietly c w a evs1 w1 -> quietly (k a) w1 b evs2 w2 ->
  quietly (bind c k) w b (evs1 ++ evs2) w2.
Proof.
  intros (Hc & Ht1 & Hp1) (Hk & Ht2 & Hp2). unfold quietly, bind.
  rewrite Hc, Hk. split; [reflexivity|]. split.
  - rewrite Ht2, Ht1, app_assoc. reflexivity.
  - eapply same_process_trans; eassumption.
Qed.

Lemma quietly_record (e : Event) (w : World) : quietly (record e) w tt [e] (emit e w).
Proof. unfold quietly, record, same_process. simpl. auto 10. Qed.

Lemma quietly_log (l : LogLine) (w : World) : quietly (log_Printf l) w tt [EvLog l] (emit (EvLog l) w).
Proof. apply quietly_record. Qed.

Lemma quietly_Get (key : string) (w : World) :
  exists r w', quietly (kapi_Get key) w r [EvGet key] w' /\ store w' = store w.
Proof.
  unfold quietly, kapi_Get, bind, record, round_trip, ret, same_process. simpl.
  destruct (outcomes w) as [|[e|] rest]; simpl;
    try destruct (etcdclient.lookup_node key (store w)); simpl;
    eexists _, _; (split; [split; [reflexivity|]|]); simpl; auto 10.
Qed.

Lemma quietly_Set (key value : string) (ttl : Z) (w : World) :
  exists err w', quietly (kapi_Set key value ttl) w err [EvSet key value ttl] w'.
Proof.
  unfold quietly, kapi_Set, bind, record, round_trip, ret, same_process. simpl.
  destruct (outcomes w) as [|[e|] rest]; simpl;
    try destruct (store w !! key) as [[]|]; simpl;
    eexists _, _; (split; [reflexivity|]); simpl; auto 10.
Qed.

Lemma quietly_Delete (key : string) (w : World) :
  exists err w', quietly (kapi_Delete key) w err [EvDelete key] w'.
Proof.
  unfold quietly, kapi_Delete, bind, record, round_trip, ret, same_process. simpl.
  destruct (outcomes w) as [|[e|] rest]; simpl;
    try destruct (store w !! key) as [[]|]; simpl;
    eexists _, _; (split; [reflexivity|]); simpl; auto 10.
Qed.

Section MinionFacts.

Context {imports : Imports}.

(** ** The writers *)

Lemma quietly_SetName (m : etcdMinion) (n : string) (w : World) :
  exists err evs w', quietly (SetName m n) w err evs w'.
Proof.
  unfold SetName.
  destruct (quietly_Set (filepath.Join [rootDir m; "name"]) n 0 w) as (err & w1 & Hset).
  destruct err as [e|].
  - eexists _, _, _. eapply quietly_bind; [exact Hset|].
    eapply quietly_bind; [apply quietly_log | apply quietly_ret].
  - eexists _, _, _. eapply quietly_bind; [exact Hset|].
    eapply quietly_bind; [apply quietly_ret | apply quietly_ret].
Qed.

Lemma quietly_SetLastseen (m : etcdMinion) (s : Z) (w : World) :
  exists err evs w', quietly (SetLastseen m s) w err evs w' /\ deletes evs = [] /\ sends evs = [].
Proof.
  unfold SetLastseen.
  destruct (quietly_Set (filepath.Join [rootDir m; "lastseen"]) (strconv.FormatInt s) 0 w)
    as (err & w1 & Hset).
  destruct err as [e|].
  - eexists _, _, _. split; [|split].
    + eapply quietly_bind; [exact Hset|].
      eapply quietly_bind; [apply quietly_log | apply quietly_ret].
    + reflexivity.
    + reflexivity.
  - eexists _, _, _. split; [|split].
    + eapply quietly_bind; [exact Hset|].
      eapply quietly_bind; [apply quietly_ret | apply quietly_ret].
    + reflexivity.
    + reflexivity.
Qed.

Lemma quietly_SetClassifier (m : etcdMinion) (c : classifier.Classifier) (w : World) :
  exists err evs w', quietly (SetClassifier m c) w err evs w' /\ deletes evs = [] /\ sends evs = [].
Proof.
  unfold SetClassifier. destruct (json_Marshal_Classifier c) as [data [e|]].
  - eexists _, _, _. split; [|split].
    + eapply quietly_bind; [apply quietly_log | apply quietly_ret].
    + reflexivity.
    + reflexivity.
  - destruct (quietly_Set (filepath.Join [classifierDir m; classifier.Key c]) data time.Hour w)
      as (err & w1 & Hset).
    destruct err as [e|]; eexists _, _, _; (split; [|split]).
    + eapply quietly_bind; [exact Hset|].
      eapply quietly_bind; [apply quietly_log | apply quietly_ret].
    + reflexivity.
    + reflexivity.
    + eapply quietly_bind; [exact Hset | apply quietly_ret].
    + reflexivity.
    + reflexivity.
Qed.

(** [SaveTaskResult] is one write at the log key of the task, of the record of
    the snapshot, when there is one. *)
Lemma quietly_SaveTaskResult (m : etcdMinion) (t : task.Task) (w : World) :
  exists err evs w',
    quietly (SaveTaskResult m t) w err evs w' /\
    deletes evs = [] /\ sends evs = [] /\
    writes_at (taskKey m (task.TaskID t)) evs = record_of t.
Proof.
  unfold SaveTaskResult, record_of, taskKey.
  destruct (json_Marshal_Task t) as [data [e|]].
  - eexists _, _, _. split.
    { eapply quietly_bind; [apply quietly_log | apply quietly_ret]. }
    repeat split.
  - destruct (quietly_Set (filepath.Join [logDir m; uuid.String_ (task.TaskID t)]) data 0 w)
      as (err & w1 & Hset).
    destruct err as [e|]; eexists _, _, _.
    + split.
      { eapply quietly_bind; [exact Hset|].
        eapply quietly_bind; [apply quietly_log | apply quietly_ret]. }
      repeat split. simpl. rewrite String.eqb_refl. reflexivity.
    + split.
      { eapply quietly_bind; [exact Hset|].
        eapply quietly_bind; [apply quietly_ret | apply quietly_ret]. }
      repeat split. simpl. rewrite String.eqb_refl. reflexivity.
Qed.

Lemma deletes_app (l1 l2 : list Event) : deletes (l1 ++ l2) = deletes l1 ++ deletes l2.
Proof. unfold deletes. apply omap_app. Qed.

Lemma sends_app (l1 l2 : list Event) : sends (l1 ++ l2) = sends l1 ++ sends l2.
Proof. unfold sends. apply omap_app. Qed.

Lemma sleeps_app (l1 l2 : list Event) : sleeps (l1 ++ l2) = sleeps l1 ++ sleeps l2.
Proof. unfold sleeps. apply omap_app. Qed.

Lemma writes_at_app (key : string) (l1 l2 : list Event) :
  writes_at key (l1 ++ l2) = writes_at key l1 ++ writes_at key l2.
Proof. unfold writes_at. apply omap_app. Qed.

Lemma processed_TaskID (now : Z) (t : task.Task) :
  task.TaskID (processed now t) = task.TaskID t.
Proof. reflexivity. Qed.

(** [processTask] writes the processing snapshot, then the final one; the
    instant of the final snapshot is that of the call, since nothing in
    between moves the clock of the model. *)
Lemma quietly_processTask (m : etcdMinion) (t : task.Task) (w : World) :
  exists evs w',
    quietly (processTask m t) w (snd (task.Run (task.Catalog_ t))) evs w' /\
    deletes evs = [] /\ sends evs = [] /\
    writes_at (taskKey m (task.TaskID t)) evs =
      record_of (processing t) ++ record_of (processed (clock w) t).
Proof.
  destruct (quietly_SaveTaskResult m (processing t) w)
    as (err1 & evs1 & w1 & Hs1 & Hd1 & Hn1 & Hw1).
  change (task.TaskID (processing t)) with (task.TaskID t) in Hw1.
  pose proof (quietly_log (LogProcessing (task.TaskID t)) w1) as Hlog.
  set (w2 := emit (EvLog (LogProcessing (task.TaskID t))) w1) in *.
  assert (Hclock : clock w2 = clock w).
  { destruct Hs1 as (_ & _ & Hp1). destruct Hp1 as (_ & _ & Hc & _). exact Hc. }
  assert (Hnow : quietly time_Now w2 (clock w) [] w2).
  { unfold quietly, time_Now. rewrite Hclock, app_nil_r. auto using same_process_refl. }
  destruct (task.Run (task.Catalog_ t)) as [out [e|]] eqn:Hrun; cbn [fst snd].
  - pose proof (quietly_log (LogFailedProcess (task.TaskID t) e) w2) as Hlog3.
    set (w3 := emit (EvLog (LogFailedProcess (task.TaskID t) e)) w2) in *.
    destruct (quietly_SaveTaskResult m (processed (clock w) t) w3)
      as (err3 & evs3 & w4 & Hs3 & Hd3 & Hn3 & Hw3).
    eexists _, _. split.
    { unfold processTask. eapply quietly_bind; [exact Hs1|].
      eapply quietly_bind; [exact Hlog|].
      cbn [task.Catalog_ task.set_State]. rewrite Hrun.
      eapply quietly_bind; [exact Hnow|].
      eapply quietly_bind; [|apply quietly_ret].
      eapply quietly_bind; [exact Hlog3|].
      unfold processed, outcome, processing in Hs3. rewrite Hrun in Hs3. exact Hs3. }
    rewrite !deletes_app, !sends_app, !writes_at_app, Hd1, Hn1, Hd3, Hn3, Hw1.
    rewrite processed_TaskID in Hw3. rewrite Hw3.
    repeat split. simpl. rewrite app_nil_r. reflexivity.
  - pose proof (quietly_log (LogFinished (task.TaskID t)) w2) as Hlog3.
    set (w3 := emit (EvLog (LogFinished (task.TaskID t))) w2) in *.
    destruct (quietly_SaveTaskResult m (processed (clock w) t) w3)
      as (err3 & evs3 & w4 & Hs3 & Hd3 & Hn3 & Hw3).
    eexists _, _. split.
    { unfold processTask. eapply quietly_bind; [exact Hs1|].
      eapply quietly_bind; [exact Hlog|].
      cbn [task.Catalog_ task.set_State]. rewrite Hrun.
      eapply quietly_bind; [exact Hnow|].
      eapply quietly_bind; [|apply quietly_ret].
      eapply quietly_bind; [exact Hlog3|].
      unfold processed, outcome, processing in Hs3. rewrite Hrun in Hs3. exact Hs3. }
    rewrite !deletes_app, !sends_app, !writes_at_app, Hd1, Hn1, Hd3, Hn3, Hw1.
    rewrite processed_TaskID in Hw3. rewrite Hw3.
    repeat split. simpl. rewrite app_nil_r. reflexivity.
Qed.

(** ** The backlog drainer on an error of the get *)

(** C1 (the code departs from the claim). When the get on the queue prefix
    reports not-found, [checkQueue] submits no task, but it hands the not-found
    error back to its caller instead of a nil error. *)
Theorem checkQueue_not_found_is_returned (m : etcdMinion) (w w1 : World) (msg : string) :
  kapi_Get (queueDir m) w =
    (Val (None, Some (EtcdError etcdclient.ErrorCodeKeyNotFound msg)), w1) ->
  checkQueue m w = (Val (Some (EtcdError etcdclient.ErrorCodeKeyNotFound msg)), w1) /\
  sends (trace w1) = sends (trace w).
Proof.
  intros Hget. split.
  - unfold checkQueue, bind. rewrite Hget. reflexivity.
  - destruct (quietly_Get (queueDir m) w) as (r & w' & (Heq & Htr & _) & _).
    rewrite Hget in Heq. injection Heq as _ <-.
    rewrite Htr, sends_app. simpl. rewrite app_nil_r. reflexivity.
Qed.

(** An error of the get that is not of the etcd API, such as an unreachable
    cluster, is returned as it is. *)
Lemma checkQueue_other_error_is_returned (m : etcdMinion) (w w1 : World) (msg : string) :
  kapi_Get (queueDir m) w = (Val (None, Some (OtherError msg)), w1) ->
  checkQueue m w = (Val (Some (OtherError msg)), w1).
Proof.
  intros Hget. unfold checkQueue, bind. rewrite Hget. reflexivity.
Qed.

(** ** The loops and the done signal *)

Lemma TaskRunner_select_result (m : etcdMinion) (c : RunnerCase) (w : World) :
  fst (TaskRunner_select m c w) = Val Iterating \/
  fst (TaskRunner_select m c w) = Val NotReady \/
  exists msg, fst (TaskRunner_select m c w) = Panic msg.
Proof.
  destruct c as [|offer]; simpl.
  - destruct (done_closed w); auto.
  - unfold bind, recv.
    destruct (TaskRunner_task m _ _) as [[[]|msg] w']; simpl; eauto.
Qed.

Lemma periodicRunner_select_result (m : etcdMinion) (c : TickerCase) (w : World) :
  fst (periodicRunner_select m c w) = Val Iterating \/
  fst (periodicRunner_select m c w) = Val NotReady \/
  exists msg, fst (periodicRunner_select m c w) = Panic msg.
Proof.
  destruct c as [|now]; simpl.
  - destruct (done_closed w); auto.
  - unfold bind.
    destruct (classify m w) as [[r1|msg] w1]; simpl; eauto.
    destruct (checkQueue m w1) as [[r2|msg] w2]; simpl; eauto.
    destruct (SetLastseen m (time.Unix now) w2) as [[r3|msg] w3]; simpl; eauto.
Qed.

Lemma TaskRunner_for_never_returns (m : etcdMinion) (cases : list RunnerCase) :
  forall w e, fst (TaskRunner_for m cases w) <> Val (Returned e).
Proof.
  induction cases as [|c rest IH]; intros w e; simpl; [discriminate|].
  unfold bind.
  destruct (TaskRunner_select_result m c w) as [H | [H | [msg H]]];
    destruct (TaskRunner_select m c w) as [r w']; simpl in H; subst r;
    simpl; try discriminate.
  apply IH.
Qed.

Lemma periodicRunner_for_never_returns (m : etcdMinion) (cases : list TickerCase) :
  forall w e, fst (periodicRunner_for m cases w) <> Val (Returned e).
Proof.
  induction cases as [|c rest IH]; intros w e; simpl; [discriminate|].
  unfold bind.
  destruct (periodicRunner_select_result m c w) as [H | [H | [msg H]]];
    destruct (periodicRunner_select m c w) as [r w']; simpl in H; subst r;
    simpl; try discriminate.
  apply IH.
Qed.

(** C2 (the code departs from the claim). Once [done] is closed, a turn of the
    loop of [TaskRunner] or of [periodicRunner] that fires on [done] ends the
    select statement and nothing more: after any number of such turns the loop
    is still iterating, in the same world; and on no sequence of turns does
    either loop return. *)
Theorem done_leaves_the_loops_iterating (m : etcdMinion) (w : World) (n : nat) :
  done_closed w = true ->
  TaskRunner_for m (repeat RunnerDone n) w = (Val Iterating, w) /\
  periodicRunner_for m (repeat TickerDone n) w = (Val Iterating, w) /\
  (forall cases w0 e, fst (TaskRunner_for m cases w0) <> Val (Returned e)) /\
  (forall cases w0 e, fst (periodicRunner_for m cases w0) <> Val (Returned e)).
Proof.
  intros Hdone. repeat split.
  - induction n as [|n IH]; simpl; [reflexivity|].
    unfold bind. simpl. rewrite Hdone. exact IH.
  - induction n as [|n IH]; simpl; [reflexivity|].
    unfold bind. simpl. rewrite Hdone. exact IH.
  - intros cases w0 e. apply TaskRunner_for_never_returns.
  - intros cases w0 e. apply periodicRunner_for_never_returns.
Qed.

Lemma Stop_closes (m : etcdMinion) (w w' : World) (r : option error) :
  Stop m w = (Val r, w') -> taskQueue_closed w' = true /\ done_closed w' = true.
Proof.
  unfold Stop, bind, log_Printf, record, close_taskQueue, close_done, ret. simpl.
  destruct (taskQueue_closed w); [discriminate|]. simpl.
  destruct (done_closed w); [discriminate|].
  intros H. injection H as _ <-. simpl. auto.
Qed.

(** C3 (the code departs from the claim). Two error paths end in a nil
    dereference: [checkQueue] when the get fails with an error of the etcd API
    other than not-found, which leaves the response nil, and the receive case
    of [TaskRunner] once [Stop] has closed the task channel, which yields a nil
    task. *)
Theorem expected_errors_panic (m : etcdMinion) (w w1 : World) (code : Z) (msg : string) :
  code <> etcdclient.ErrorCodeKeyNotFound ->
  kapi_Get (queueDir m) w = (Val (None, Some (EtcdError code msg)), w1) ->
  checkQueue m w = (Panic nil_dereference, w1) /\
  (forall w2 w3 r offer,
     Stop m w2 = (Val r, w3) ->
     fst (TaskRunner_select m (RunnerTask offer) w3) = Panic nil_dereference).
Proof.
  intros Hcode Hget. split.
  - unfold checkQueue, bind. rewrite Hget.
    replace (code =? etcdclient.ErrorCodeKeyNotFound) with false
      by (symmetry; apply Z.eqb_neq; exact Hcode).
    reflexivity.
  - intros w2 w3 r offer Hstop.
    apply Stop_closes in Hstop as [Hclosed _].
    unfold TaskRunner_select, bind, recv. rewrite Hclosed. reflexivity.
Qed.

(** ** Serve *)


(** C8. When the initial [SetName] or the initial [SetLastseen] fails, [Serve]
    returns that error and has started no goroutine; when both succeed it
    starts the five workers, in the order classify, backlog drain, ticker,
    runner, watcher, and returns nil. *)
Theorem Serve_starts_all_or_nothing (m : etcdMinion) (w : World) :
  (forall e w1,
     SetName m (name m) w = (Val (Some e), w1) ->
     Serve m w = (Val (Some e), w1) /\ started w1 = started w) /\
  (forall e w1 w2,
     SetName m (name m) w = (Val None, w1) ->
     SetLastseen m (time.Unix (clock w1)) w1 = (Val (Some e), w2) ->
     Serve m w = (Val (Some e), w2) /\ started w2 = started w) /\
  (forall w1 w2,
     SetName m (name m) w = (Val None, w1) ->
     SetLastseen m (time.Unix (clock w1)) w1 = (Val None, w2) ->
     exists w3,
       Serve m w = (Val None, w3) /\
       started w3 =
         started w ++ [WClassify; WCheckQueue; WPeriodicRunner; WTaskRunner; WTaskListener]).
Proof.
  assert (Hname : forall r w1, SetName m (name m) w = (Val r, w1) -> started w1 = started w).
  { intros r w1 H. destruct (quietly_SetName m (name m) w) as (r' & evs & w' & Hq & _ & Hp).
    rewrite H in Hq. injection Hq as _ <-. apply Hp. }
  assert (Hseen : forall s r w1 w2, SetLastseen m s w1 = (Val r, w2) -> started w2 = started w1).
  { intros s r w1 w2 H.
    destruct (quietly_SetLastseen m s w1) as (r' & evs & w' & (Hq & _ & Hp) & _).
    rewrite H in Hq. injection Hq as _ <-. apply Hp. }
  split; [|split].
  - intros e w1 H1. split.
    + unfold Serve, bind. rewrite H1. reflexivity.
    + eapply Hname. exact H1.
  - intros e w1 w2 H1 H2. split.
    + unfold Serve, bind, time_Now. rewrite H1. simpl. rewrite H2. reflexivity.
    + rewrite (Hseen _ _ _ _ H2). eapply Hname. exact H1.
  - intros w1 w2 H1 H2. eexists. split.
    + unfold Serve, bind, time_Now. rewrite H1. simpl. rewrite H2. reflexivity.
    + simpl. rewrite (Hseen _ _ _ _ H2), (Hname _ _ H1).
      rewrite <- !app_assoc. reflexivity.
Qed.

(** ** The runner on a task *)





(** ** The comparison of the watcher with the word [delete] *)

Lemma EqualFold_eqb (s : string) : forall t,
  gostrings.EqualFold s t = String.eqb (gostrings.ToLower s) (gostrings.ToLower t).
Proof.
  induction s as [|a s IH]; intros [|b t]; simpl; try reflexivity.
  rewrite IH. destruct (Ascii.eqb (gostrings.lower_byte a) (gostrings.lower_byte b)); reflexivity.
Qed.

Lemma lower_byte_idem (c : ascii) :
  gostrings.lower_byte (gostrings.lower_byte c) = gostrings.lower_byte c.
Proof. destruct c as [[] [] [] [] [] [] [] []]; reflexivity. Qed.

Lemma ToLower_idem (s : string) : gostrings.ToLower (gostrings.ToLower s) = gostrings.ToLower s.
Proof.
  induction s as [|c s IH]; simpl; [reflexivity|].
  rewrite lower_byte_idem, IH. reflexivity.
Qed.

(** Lowering the action and comparing it up to case with the word, as the
    watcher does, is the case-insensitive comparison of the two. *)
Lemma delete_event_iff (action : string) :
  gostrings.EqualFold (gostrings.ToLower action) "delete" = true <-> same_word action "delete".
Proof.
  rewrite EqualFold_eqb, ToLower_idem. unfold same_word. apply String.eqb_eq.
Qed.

Lemma not_delete_event (action : string) :
  ~ same_word action "delete" ->
  gostrings.EqualFold (gostrings.ToLower action) "delete" = false.
Proof.
  intros Hne. apply not_true_is_false. intros H. apply Hne, delete_event_iff, H.
Qed.

(** ** What a delete does to the store *)


(** ** The watcher on an event *)


(** ** From the queue to the log *)



(** ** The keys that the runner writes *)










(** ** The senders and the done signal *)

















(** ** The backoff of the watcher *)

Lemma jitter_bounds (r lo hi : Z) : lo <= hi -> lo <= backoff.jitter r lo hi <= hi.
Proof.
  intros Hle. unfold backoff.jitter.
  assert (Hpos : 0 < 2 ^ 53) by (vm_compute; reflexivity).
  pose proof (Z.mod_pos_bound r (2 ^ 53) Hpos) as Hr.
  set (x := r mod 2 ^ 53) in *.
  assert (H0 : 0 <= x * (hi - lo) / 2 ^ 53).
  { apply Z.div_pos; [|exact Hpos]. apply Z.mul_nonneg_nonneg; lia. }
  assert (H1 : x * (hi - lo) / 2 ^ 53 <= hi - lo).
  { apply Z.div_le_upper_bound; [exact Hpos|].
    apply Z.mul_le_mono_nonneg_r; lia. }
  lia.
Qed.

Lemma Duration_retrying (k r : Z) :
  0 <= k ->
  exists d,
    backoff.Duration (retrying k) r = (d, retrying (k + 1)) /\
    1 * time.Second <= d <= envelope k.
Proof.
  intros Hk. unfold backoff.Duration, backoff.ceiling, retrying, envelope.
  cbn [backoff.Min backoff.Max backoff.Factor backoff.Jitter backoff.attempts].
  assert (Hpow : 1 <= 2 ^ k) by (pose proof (Z.pow_pos_nonneg 2 k ltac:(lia) Hk); lia).
  set (p := 2 ^ k) in *.
  unfold time.Minute, time.Second.
  clearbody p.
  pose proof (jitter_bounds r (1 * 1000000000) (1 * 1000000000 * p) ltac:(lia)) as Hj.
  set (j := backoff.jitter r (1 * 1000000000) (1 * 1000000000 * p)) in *.
  clearbody j.
  destruct (10 * (60 * 1000000000) <? j) eqn:Hcap.
  - apply Z.ltb_lt in Hcap. eexists. split; [reflexivity|]. lia.
  - apply Z.ltb_ge in Hcap. eexists. split; [reflexivity|]. lia.
Qed.

Lemma TaskListener_next_error (m : etcdMinion) (k : Z) (err : error) (w : World) :
  0 <= k ->
  exists d w',
    TaskListener_next m (retrying k) (WatchErr err) w = (Val (retrying (k + 1)), w') /\
    trace w' = trace w ++ [EvLog (LogRetrying err d); EvSleep d] /\
    1 * time.Second <= d <= envelope k.
Proof.
  intros Hk. unfold TaskListener_next, bind, rand_Float64.
  destruct (random w) as [|r rest].
  - destruct (Duration_retrying k 0 Hk) as (d & Hd & Hb). rewrite Hd.
    exists d. eexists. split; [reflexivity|]. split; [|exact Hb].
    simpl. rewrite <- app_assoc. reflexivity.
  - destruct (Duration_retrying k r Hk) as (d & Hd & Hb). rewrite Hd.
    exists d. eexists. split; [reflexivity|]. split; [|exact Hb].
    simpl. rewrite <- app_assoc. reflexivity.
Qed.

Lemma TaskListener_for_errors (m : etcdMinion) (errs : list error) : forall k w,
  0 <= k ->
  exists w' ds,
    TaskListener_for m (retrying k) (map WatchErr errs) w = (Val Iterating, w') /\
    sleeps (trace w') = sleeps (trace w) ++ ds /\
    List.length ds = List.length errs /\
    (forall (i : nat) d, ds !! i = Some d ->
       1 * time.Second <= d <= envelope (k + Z.of_nat i)).
Proof.
  induction errs as [|err rest IH]; intros k w Hk.
  - exists w, []. simpl. rewrite app_nil_r.
    split; [reflexivity|]. split; [reflexivity|]. split; [reflexivity|].
    intros i d Hi. discriminate.
  - destruct (TaskListener_next_error m k err w Hk) as (d & w1 & Heq1 & Htr1 & Hb1).
    destruct (IH (k + 1) w1 ltac:(lia)) as (w2 & ds & Heq2 & Hs2 & Hlen & Hbs).
    exists w2, (d :: ds).
    change (TaskListener_for m (retrying k) (map WatchErr (err :: rest)))
      with (bind (TaskListener_next m (retrying k) (WatchErr err))
              (fun b' => TaskListener_for m b' (map WatchErr rest))).
    unfold bind. rewrite Heq1, Heq2. split; [reflexivity|]. split; [|split].
    + rewrite Hs2, Htr1, sleeps_app. simpl. rewrite <- app_assoc. reflexivity.
    + simpl. rewrite Hlen. reflexivity.
    + intros [|i] d' Hi; simpl in Hi.
      * injection Hi as <-. rewrite Z.add_0_r. exact Hb1.
      * specialize (Hbs i d' Hi).
        replace (k + Z.of_nat (S i)) with (k + 1 + Z.of_nat i) by lia. exact Hbs.
Qed.

Lemma TaskListener_next_event_resets (m : etcdMinion) (b : backoff.Backoff)
    (resp : etcdclient.Response) (w : World) (b' : backoff.Backoff) (w' : World) :
  TaskListener_next m b (WatchEvent resp) w = (Val b', w') -> b' = backoff.Reset b.
Proof.
  unfold TaskListener_next.
  destruct (gostrings.EqualFold _ _).
  - unfold ret. intros H. injection H as <- _. reflexivity.
  - destruct (EtcdUnmarshalTask _) as [t [e|]]; unfold bind.
    + destruct (kapi_Delete _ w) as [[r|msg] w1]; [|discriminate].
      unfold log_Printf, record, ret. intros H. injection H as <- _. reflexivity.
    + destruct (kapi_Delete _ w) as [[r|msg] w1]; [|discriminate].
      destruct t as [t|]; [|discriminate].
      unfold log_Printf, record, send. simpl.
      destruct (taskQueue_closed w1); [discriminate|].
      unfold ret. intros H. injection H as <- _. reflexivity.
Qed.

Lemma envelope_mono (i j : Z) :
  0 <= i <= j -> envelope i <= envelope j <= 10 * time.Minute.
Proof.
  intros Hij. unfold envelope.
  assert (Hpow : 2 ^ i <= 2 ^ j) by (apply Z.pow_le_mono_r; lia).
  unfold time.Minute, time.Second.
  generalize dependent (2 ^ i). generalize dependent (2 ^ j). intros; lia.
Qed.

(** C7 (as amended). The delays of the watcher on transport errors come from a
    backoff generator with minimum 1 second, maximum 10 minutes, factor 2 and
    jitter: the delay of the [i]-th error in a row lies between the minimum and
    a ceiling, the smaller of 10 minutes and [2^i] seconds, that never goes
    down as the errors go on; and after any event received without error the
    generator is reset, so that the next delay is the minimum again. *)
Theorem watcher_backoff_envelope (m : etcdMinion) :
  TaskListener_backoff = retrying 0 /\
  (forall errs w,
     exists w' ds,
       TaskListener_for m TaskListener_backoff (map WatchErr errs) w = (Val Iterating, w') /\
       sleeps (trace w') = sleeps (trace w) ++ ds /\
       List.length ds = List.length errs /\
       (forall (i : nat) d, ds !! i = Some d ->
          1 * time.Second <= d <= envelope (Z.of_nat i))) /\
  (forall i j, 0 <= i <= j -> envelope i <= envelope j <= 10 * time.Minute) /\
  (forall k resp w b' w1 err w2,
     0 <= k ->
     TaskListener_next m (retrying k) (WatchEvent resp) w = (Val b', w1) ->
     exists w3,
       TaskListener_next m b' (WatchErr err) w2 = (Val (retrying 1), w3) /\
       sleeps (trace w3) = sleeps (trace w2) ++ [1 * time.Second]).
Proof.
  split; [reflexivity|]. split; [|split].
  - intros errs w.
    destruct (TaskListener_for_errors m errs 0 w ltac:(lia)) as (w' & ds & Heq & Hs & Hl & Hb).
    exists w', ds. repeat split; try assumption; apply (Hb i d); assumption.
  - apply envelope_mono.
  - intros k resp w b' w1 err w2 Hk Hev.
    apply TaskListener_next_event_resets in Hev. subst b'.
    change (backoff.Reset (retrying k)) with (retrying 0).
    destruct (TaskListener_next_error m 0 err w2 ltac:(lia)) as (d & w3 & Heq & Htr & Hb).
    exists w3. split; [exact Heq|].
    rewrite Htr, sleeps_app. simpl.
    assert (Henv : envelope 0 = 1 * time.Second) by reflexivity.
    rewrite Henv in Hb. replace d with (1 * time.Second) by lia. reflexivity.
Qed.

(** ** The lastseen writer *)

Lemma rootDir_NewEtcdMinion (n : string) :
  List.length (GenerateUUID n) = 16%nat ->
  rootDir (NewEtcdMinion n) =
  String filepath.slash (filepath.join ["gru"; "minion"; uuid.String_ (GenerateUUID n)]).
Proof.
  intros Hlen. unfold NewEtcdMinion. cbn [rootDir].
  change EtcdMinionSpace with (String filepath.slash (filepath.join ["gru"; "minion"])).
  rewrite Join_rooted_plain.
  - reflexivity.
  - repeat constructor.
  - apply uuid_String_plain. exact Hlen.
Qed.

Lemma lastseenKey_NewEtcdMinion (n : string) :
  List.length (GenerateUUID n) = 16%nat ->
  filepath.Join [rootDir (NewEtcdMinion n); "lastseen"] =
  "/gru/minion/" +:+ uuid.String_ (GenerateUUID n) +:+ "/lastseen".
Proof.
  intros Hlen. rewrite rootDir_NewEtcdMinion by exact Hlen.
  rewrite Join_rooted_plain.
  - reflexivity.
  - repeat constructor. apply uuid_String_plain. exact Hlen.
  - reflexivity.
Qed.

(** C10. For an [int64] [s] that is not negative, [SetLastseen] writes at the
    key [<root>/lastseen] the decimal numeral of [s]: digits only, the first
    of which is not a zero unless it is the only one, that read back as [s];
    there is no other such text.  When the round trip goes through, a reader of
    the store finds that text at the key; and for a minion made from a name,
    Kevin among them, whose identifier has sixteen bytes, the key is
    [/gru/minion/<id>/lastseen]. *)
Theorem SetLastseen_writes_decimal (m : etcdMinion) (s : Z) (w : World) :
  0 <= s < 2 ^ 63 ->
  goes_through w ->
  store w !! filepath.Join [rootDir m; "lastseen"] <> Some etcdclient.Directory ->
  exists w',
    SetLastseen m s w = (Val None, w') /\
    trace w' = trace w ++ [EvSet (filepath.Join [rootDir m; "lastseen"]) (strconv.FormatInt s) 0] /\
    etcdclient.lookup_node (filepath.Join [rootDir m; "lastseen"]) (store w') =
      Some (etcdclient.mkNode (filepath.Join [rootDir m; "lastseen"])
              (strconv.FormatInt s) false []) /\
    strconv.decimal_value (strconv.FormatInt s) = Some s /\
    strconv.no_leading_zero (strconv.FormatInt s) = true /\
    (forall numeral,
       strconv.decimal_value numeral = Some s ->
       strconv.no_leading_zero numeral = true ->
       numeral = strconv.FormatInt s) /\
    (forall n,
       m = NewEtcdMinion n ->
       List.length (GenerateUUID n) = 16%nat ->
       filepath.Join [rootDir m; "lastseen"] =
       "/gru/minion/" +:+ uuid.String_ (GenerateUUID n) +:+ "/lastseen").
Proof.
  intros Hs Hgo Hfile.
  destruct (FormatInt_decimal s Hs) as [Hval Hlead].
  set (key := filepath.Join [rootDir m; "lastseen"]) in *.
  assert (Hset : exists w', kapi_Set key (strconv.FormatInt s) 0 w = (Val None, w') /\
            trace w' = trace w ++ [EvSet key (strconv.FormatInt s) 0] /\
            store w' = <[key := etcdclient.File (strconv.FormatInt s)]> (store w)).
  { unfold kapi_Set, bind, record, round_trip, ret. simpl.
    unfold goes_through in Hgo.
    destruct (outcomes w) as [|[e|] rest]; [|contradiction|]; simpl;
      (destruct (store w !! key) as [[v|]|] eqn:Hlook; [|congruence|]);
      eexists; repeat split. }
  destruct Hset as (w' & Heq & Htr & Hst).
  exists w'. split; [|split; [|split; [|split; [|split; [|split]]]]]; try assumption.
  - unfold SetLastseen, bind. fold key. rewrite Heq. reflexivity.
  - unfold etcdclient.lookup_node. rewrite Hst, lookup_insert_eq. reflexivity.
  - intros numeral Hnum Hcanon. eapply canonical_unique; eassumption.
  - intros n -> Hlen. apply lastseenKey_NewEtcdMinion. exact Hlen.
Qed.

(** * Further properties of the minion *)

(** ** The key layout *)

Lemma Join_under_root (n leaf : string) :
  List.length (GenerateUUID n) = 16%nat ->
  plain leaf = true ->
  filepath.Join [rootDir (NewEtcdMinion n); leaf] =
  "/gru/minion/" +:+ uuid.String_ (GenerateUUID n) +:+ String filepath.slash leaf.
Proof.
  intros Hlen Hleaf. rewrite rootDir_NewEtcdMinion by exact Hlen.
  rewrite Join_rooted_plain.
  - simpl filepath.join. reflexivity.
  - repeat constructor. apply uuid_String_plain. exact Hlen.
  - exact Hleaf.
Qed.

(** X1. A minion made by [NewEtcdMinion] from a name whose identifier has
    sixteen bytes keeps the name and the identifier, and its four prefixes are
    [/gru/minion/<id>] and, below it, [queue], [classifier] and [log]; the log
    record of a task with a sixteen-byte identifier is at
    [/gru/minion/<id>/log/<task-id>]. *)
Theorem NewEtcdMinion_layout (n : string) (tid : uuid.UUID) :
  List.length (GenerateUUID n) = 16%nat ->
  List.length tid = 16%nat ->
  name (NewEtcdMinion n) = n /\
  ID (NewEtcdMinion n) = GenerateUUID n /\
  rootDir (NewEtcdMinion n) = "/gru/minion/" +:+ uuid.String_ (GenerateUUID n) /\
  queueDir (NewEtcdMinion n) = "/gru/minion/" +:+ uuid.String_ (GenerateUUID n) +:+ "/queue" /\
  classifierDir (NewEtcdMinion n) =
    "/gru/minion/" +:+ uuid.String_ (GenerateUUID n) +:+ "/classifier" /\
  logDir (NewEtcdMinion n) = "/gru/minion/" +:+ uuid.String_ (GenerateUUID n) +:+ "/log" /\
  taskKey (NewEtcdMinion n) tid =
    "/gru/minion/" +:+ uuid.String_ (GenerateUUID n) +:+ "/log/" +:+ uuid.String_ tid.
Proof.
  intros Hlen Htid.
  pose proof (uuid_String_plain _ Hlen) as Hid.
  pose proof (uuid_String_plain _ Htid) as Htp.
  split; [reflexivity|]. split; [reflexivity|].
  split; [rewrite rootDir_NewEtcdMinion by exact Hlen; reflexivity|].
  split; [exact (Join_under_root n "queue" Hlen eq_refl)|].
  split; [exact (Join_under_root n "classifier" Hlen eq_refl)|].
  assert (Hlog : logDir (NewEtcdMinion n) =
            String filepath.slash
              (filepath.join ["gru"; "minion"; uuid.String_ (GenerateUUID n); "log"])).
  { change (logDir (NewEtcdMinion n)) with (filepath.Join [rootDir (NewEtcdMinion n); "log"]).
    rewrite rootDir_NewEtcdMinion by exact Hlen.
    rewrite Join_rooted_plain; [reflexivity | | reflexivity].
    repeat constructor. exact Hid. }
  split; [rewrite Hlog; reflexivity|].
  unfold taskKey. rewrite Hlog. rewrite Join_rooted_plain.
  - simpl filepath.join. reflexivity.
  - repeat constructor. exact Hid.
  - exact Htp.
Qed.

(** ** Stop *)

(** X2. [Stop] on a minion whose two channels are open logs, closes the task
    channel and the done signal, touches neither the store nor the goroutines,
    and returns nil; a [Stop] after that panics on the close of the closed task
    channel, as does any [Stop] that finds the task channel closed. *)
Theorem Stop_closes_once (m : etcdMinion) (w : World) :
  (taskQueue_closed w = false ->
   done_closed w = false ->
   exists w',
     Stop m w = (Val None, w') /\
     taskQueue_closed w' = true /\ done_closed w' = true /\
     store w' = store w /\ started w' = started w /\
     trace w' = trace w ++ [EvLog LogShuttingDown] /\
     fst (Stop m w') = Panic close_of_closed) /\
  (taskQueue_closed w = true -> fst (Stop m w) = Panic close_of_closed).
Proof.
  split.
  - intros Hq Hd.
    unfold Stop, bind, log_Printf, record, close_taskQueue, close_done, ret. simpl.
    rewrite Hq. simpl. rewrite Hd. eexists. split; [reflexivity|]. simpl.
    repeat split; reflexivity.
  - intros Hq. unfold Stop, bind, log_Printf, record, close_taskQueue. simpl.
    rewrite Hq. reflexivity.
Qed.

(** ** The drainer after a get that succeeded *)


(** ** The writers *)

Lemma kapi_Set_outcome (key value : string) (ttl : Z) (w : World) :
  exists err w',
    kapi_Set key value ttl w = (Val err, w') /\
    trace w' = trace w ++ [EvSet key value ttl] /\
    match err with
    | None => store w' = <[key := etcdclient.File value]> (store w)
    | Some _ => store w' = store w
    end.
Proof.
  unfold kapi_Set, bind, record, round_trip, ret. simpl.
  destruct (outcomes w) as [|[e|] rest]; simpl;
    try destruct (store w !! key) as [[]|]; simpl;
    eexists _, _; (split; [reflexivity|]); simpl; auto.
Qed.

(** X4. [SaveTaskResult] returns nil only when the task was serialized and
    written: a reader then finds the serialized task at the log key.  When the
    task cannot be serialized, the error is logged and returned without any
    call to etcd; when the write fails, its error is returned and the store is
    as before. *)
Theorem SaveTaskResult_outcomes (m : etcdMinion) (t : task.Task) (w : World) :
  exists err w',
    SaveTaskResult m t w = (Val err, w') /\
    match err with
    | None =>
        exists data,
          json_Marshal_Task t = (data, None) /\
          store w' !! taskKey m (task.TaskID t) = Some (etcdclient.File data)
    | Some e => store w' = store w
    end /\
    (forall data e,
       json_Marshal_Task t = (data, Some e) ->
       err = Some e /\
       trace w' = trace w ++ [EvLog (LogFailedSerializeTask (task.TaskID t) e)] /\
       outcomes w' = outcomes w).
Proof.
  unfold SaveTaskResult, taskKey.
  destruct (json_Marshal_Task t) as [data [e|]] eqn:Hm.
  - unfold bind, log_Printf, record, ret. simpl. eexists _, _.
    split; [reflexivity|]. split; [reflexivity|].
    intros data' e' H. injection H as <- <-. auto.
  - destruct (kapi_Set_outcome (filepath.Join [logDir m; uuid.String_ (task.TaskID t)]) data 0 w)
      as (err & w1 & Heq & Htr & Hst).
    unfold bind. rewrite Heq. destruct err as [e|].
    + unfold log_Printf, record, ret. simpl. eexists _, _.
      split; [reflexivity|]. split; [exact Hst|]. intros data' e' H. discriminate.
    + unfold ret. simpl. eexists _, _.
      split; [reflexivity|]. split.
      * exists data. split; [reflexivity|]. rewrite Hst. apply lookup_insert_eq.
      * intros data' e' H. discriminate.
Qed.

(** X5. [SetName] returns the error of its one write: on nil a reader finds the
    name at [<root>/name], and on an error the store is as before and the
    failure is the last line logged. *)
Theorem SetName_outcomes (m : etcdMinion) (n : string) (w : World) :
  exists err w',
    SetName m n w = (Val err, w') /\
    match err with
    | None =>
        store w' !! filepath.Join [rootDir m; "name"] = Some (etcdclient.File n) /\
        trace w' = trace w ++ [EvSet (filepath.Join [rootDir m; "name"]) n 0]
    | Some e =>
        store w' = store w /\
        trace w' = trace w ++
          [EvSet (filepath.Join [rootDir m; "name"]) n 0; EvLog (LogFailedSetName e)]
    end.
Proof.
  unfold SetName.
  destruct (kapi_Set_outcome (filepath.Join [rootDir m; "name"]) n 0 w)
    as (err & w1 & Heq & Htr & Hst).
  unfold bind. rewrite Heq. destruct err as [e|].
  - unfold log_Printf, record, ret. simpl. eexists _, _. split; [reflexivity|].
    simpl. rewrite Htr, <- app_assoc. auto.
  - unfold ret. simpl. eexists _, _. split; [reflexivity|].
    rewrite Hst, lookup_insert_eq. auto.
Qed.

(** ** The store after a drain *)

Lemma kapi_Get_answering (key : string) (w : World) :
  outcomes w = [] ->
  kapi_Get key w =
    match etcdclient.lookup_node key (store w) with
    | Some n => (Val (Some (etcdclient.mkResponse "get" n), None), emit (EvGet key) w)
    | None =>
        (Val (None, Some (EtcdError etcdclient.ErrorCodeKeyNotFound "Key not found")),
         emit (EvGet key) w)
    end.
Proof.
  intros Hout. unfold kapi_Get, bind, record, round_trip, ret. simpl. rewrite Hout.
  change (store (emit (EvGet key) w)) with (store w).
  destruct (etcdclient.lookup_node key (store w)); reflexivity.
Qed.

Lemma kapi_Delete_answering (key : string) (w : World) :
  outcomes w = [] ->
  exists err w',
    kapi_Delete key w = (Val err, w') /\
    outcomes w' = [] /\
    taskQueue_closed w' = taskQueue_closed w /\
    no_file key (store w') /\
    (forall k e, store w' !! k = Some e -> store w !! k = Some e).
Proof.
  intros Hout. unfold kapi_Delete, bind, record, round_trip, ret, no_file. simpl.
  rewrite Hout. simpl. destruct (store w !! key) as [[v|]|] eqn:Hlook; simpl.
  - eexists _, _. split; [reflexivity|]. simpl. repeat split; try assumption.
    + intros v'. rewrite lookup_delete_eq. discriminate.
    + intros k e He. apply lookup_delete_Some in He. apply He.
  - eexists _, _. split; [reflexivity|]. simpl. repeat split; try assumption; auto.
    intros v'. rewrite Hlook. discriminate.
  - eexists _, _. split; [reflexivity|]. simpl. repeat split; try assumption; auto.
    intros v'. rewrite Hlook. discriminate.
Qed.

Lemma checkQueue_range_store (m : etcdMinion) (backlog : list etcdclient.Node) : forall w,
  outcomes w = [] ->
  taskQueue_closed w = false ->
  exists w',
    checkQueue_range m backlog w = (Val tt, w') /\
    outcomes w' = [] /\
    (forall k e, store w' !! k = Some e -> store w !! k = Some e) /\
    (forall node, node ∈ backlog -> no_file (etcdclient.Key node) (store w')).
Proof.
  induction backlog as [|node rest IH]; intros w Hout Hopen.
  - exists w. repeat split; auto. intros node Hin. inversion Hin.
  - destruct (kapi_Delete_answering (etcdclient.Key node) w Hout)
      as (err & w1 & Heq1 & Hout1 & Hq1 & Hgone & Hsub1).
    assert (Hrest : forall w2,
              store w2 = store w1 -> outcomes w2 = [] -> taskQueue_closed w2 = false ->
              exists w',
                checkQueue_range m rest w2 = (Val tt, w') /\
                outcomes w' = [] /\
                (forall k e, store w' !! k = Some e -> store w !! k = Some e) /\
                (forall n, n ∈ node :: rest -> no_file (etcdclient.Key n) (store w'))).
    { intros w2 Hst2 Hout2 Hq2.
      destruct (IH w2 Hout2 Hq2) as (w' & Heq & Hout' & Hsub & Hnone).
      exists w'. split; [exact Heq|]. split; [exact Hout'|]. split.
      - intros k e He. apply Hsub1. rewrite <- Hst2. apply Hsub. exact He.
      - intros n Hin. apply elem_of_cons in Hin as [-> | Hin]; [|apply Hnone; exact Hin].
        intros v Hv. apply (Hgone v). rewrite <- Hst2. apply Hsub. exact Hv. }
    change (checkQueue_range m (node :: rest))
      with (let '(t, err) := EtcdUnmarshalTask node in
            (kapi_Delete (etcdclient.Key node) ;;
             match err with
             | Some _ => checkQueue_range m rest
             | None => send t ;; checkQueue_range m rest
             end)%go).
    destruct (EtcdUnmarshalTask node) as [t [e|]]; unfold bind; rewrite Heq1.
    + apply Hrest; [reflexivity | exact Hout1 | congruence].
    + unfold send. rewrite Hq1, Hopen.
      apply Hrest; [reflexivity | exact Hout1 | simpl; congruence].
Qed.

Lemma elem_of_insert_sorted (x n : etcdclient.Node) (ns : list etcdclient.Node) :
  x ∈ etcdclient.insert_sorted n ns <-> x = n \/ x ∈ ns.
Proof.
  induction ns as [|n' rest IH]; simpl.
  - rewrite list_elem_of_singleton. split; [auto | intros [H | H]; [exact H | inversion H]].
  - destruct (String.leb _ _).
    + rewrite elem_of_cons. reflexivity.
    + rewrite !elem_of_cons, IH. tauto.
Qed.

Lemma elem_of_sort_nodes (x : etcdclient.Node) (ns : list etcdclient.Node) :
  x ∈ etcdclient.sort_nodes ns <-> x ∈ ns.
Proof.
  induction ns as [|n rest IH]; simpl; [reflexivity|].
  rewrite elem_of_insert_sorted, elem_of_cons, IH. reflexivity.
Qed.

(** Once the files listed below a directory are gone and none was added, the
    directory lists nothing. *)
Lemma children_drained (d : string) (s s' : gmap string etcdclient.Entry) :
  (forall k e, s' !! k = Some e -> s !! k = Some e) ->
  (forall node, node ∈ etcdclient.children d s -> no_file (etcdclient.Key node) s') ->
  etcdclient.children d s' = [].
Proof.
  intros Hsub Hgone. unfold etcdclient.children.
  destruct (omap (etcdclient.file_below d) (map_to_list s')) as [|n l] eqn:Hom; [reflexivity|].
  exfalso.
  assert (Hin : n ∈ omap (etcdclient.file_below d) (map_to_list s')) by (rewrite Hom; left).
  apply list_elem_of_omap in Hin as ([k e] & Hkv & Hfile).
  apply elem_of_map_to_list in Hkv.
  unfold etcdclient.file_below in Hfile. simpl in Hfile.
  destruct e as [v|]; [|discriminate].
  destruct (String.prefix (d +:+ "/") k) eqn:Hpre; [|discriminate].
  injection Hfile as <-.
  apply (Hgone (etcdclient.mkNode k v false [])) with (v := v); [|exact Hkv].
  unfold etcdclient.children. apply elem_of_sort_nodes.
  apply list_elem_of_omap. exists (k, etcdclient.File v). split.
  - apply elem_of_map_to_list. apply Hsub. exact Hkv.
  - unfold etcdclient.file_below. simpl. rewrite Hpre. reflexivity.
Qed.

(** X6. A drain of a flat queue (task files directly below the queue prefix,
    which is all that a delete without options removes) during which etcd
    answers every call, with the task channel open, leaves no pending entry:
    whatever [checkQueue] returns, a get on the queue after it lists no
    node. *)
Theorem checkQueue_leaves_no_entry (m : etcdMinion) (w : World) :
  flat (queueDir m) (store w) = true ->
  outcomes w = [] ->
  taskQueue_closed w = false ->
  exists r w',
    checkQueue m w = (Val r, w') /\
    forall node,
      etcdclient.lookup_node (queueDir m) (store w') = Some node ->
      etcdclient.Nodes node = [].
Proof.
  intros _ Hout Hopen. unfold checkQueue, bind.
  rewrite (kapi_Get_answering _ _ Hout).
  destruct (etcdclient.lookup_node (queueDir m) (store w)) as [n|] eqn:Hlook.
  - cbn [etcdclient.Node_].
    destruct (etcdclient.Nodes n) as [|node rest] eqn:Hnodes.
    + simpl. eexists _, _. split; [reflexivity|]. simpl.
      intros node Hnode. congruence.
    + cbn [List.length Nat.eqb]. unfold log_Printf, record.
      set (w2 := emit (EvLog (LogFoundPending (S (List.length rest)))) (emit (EvGet (queueDir m)) w)).
      destruct (checkQueue_range_store m (node :: rest) w2 Hout Hopen)
        as (w' & Heq & _ & Hsub & Hgone).
      rewrite Heq. eexists _, _. split; [reflexivity|].
      change (store w2) with (store w) in Hsub.
      assert (Hch : etcdclient.children (queueDir m) (store w) = node :: rest).
      { unfold etcdclient.lookup_node in Hlook.
        destruct (store w !! queueDir m) as [[v|]|].
        - injection Hlook as <-. discriminate Hnodes.
        - injection Hlook as <-. exact Hnodes.
        - destruct (etcdclient.children (queueDir m) (store w)) as [|c cs];
            [discriminate|]. injection Hlook as <-. exact Hnodes. }
      assert (Hempty : etcdclient.children (queueDir m) (store w') = []).
      { apply (children_drained _ (store w)); [exact Hsub|].
        intros nd Hnd. apply Hgone. rewrite <- Hch. exact Hnd. }
      intros nd Hnd. unfold etcdclient.lookup_node in Hnd. rewrite Hempty in Hnd.
      destruct (store w' !! queueDir m) as [[v|]|]; [| |discriminate];
        injection Hnd as <-; reflexivity.
  - simpl. eexists _, _. split; [reflexivity|]. simpl.
    intros node Hnode. congruence.
Qed.

(** ** Classify *)

Lemma sets_app (l1 l2 : list Event) : sets (l1 ++ l2) = sets l1 ++ sets l2.
Proof. unfold sets. apply omap_app. Qed.




(** ** Processing a task *)

Lemma prefix_app (s t : string) : String.prefix s (s +:+ t) = true.
Proof.
  induction s as [|a s IH]; simpl; [destruct t; reflexivity|].
  destruct (ascii_dec a a); [exact IH | contradiction].
Qed.

(** X8. [processTask] returns the error of the run of the catalog and nothing
    else: whatever etcd answers to its two writes, it does not panic, and it
    leaves the channels, the clock and the goroutines alone, deletes nothing
    and sends nothing.  The result it records starts with the line
    [Loaded <n> resources from catalog], followed by the output of the run. *)
Theorem processTask_returns_catalog_error (m : etcdMinion) (t : task.Task) (w : World) :
  exists evs w',
    processTask m t w = (Val (snd (task.Run (task.Catalog_ t))), w') /\
    trace w' = trace w ++ evs /\
    same_process w w' /\
    deletes evs = [] /\ sends evs = [] /\
    writes_at (taskKey m (task.TaskID t)) evs =
      record_of (processing t) ++ record_of (processed (clock w) t) /\
    task.Result (processed (clock w) t) =
      ("Loaded " +:+ strconv.FormatInt (task.Len (task.Catalog_ t)) +:+
       " resources from catalog") +:+ fst (task.Run (task.Catalog_ t)) /\
    String.prefix
      ("Loaded " +:+ strconv.FormatInt (task.Len (task.Catalog_ t)) +:+
       " resources from catalog")
      (task.Result (processed (clock w) t)) = true.
Proof.
  destruct (quietly_processTask m t w) as (evs & w' & (Heq & Htr & Hp) & Hd & Hn & Hw).
  exists evs, w'. repeat split; try assumption; try apply Hp.
  apply prefix_app.
Qed.


(** ** The tick of the periodic runner *)

Lemma SetLastseen_sets (m : etcdMinion) (s : Z) (w : World) :
  exists err evs w',
    quietly (SetLastseen m s) w err evs w' /\
    sets evs = [(filepath.Join [rootDir m; "lastseen"], strconv.FormatInt s, 0)].
Proof.
  unfold SetLastseen.
  destruct (quietly_Set (filepath.Join [rootDir m; "lastseen"]) (strconv.FormatInt s) 0 w)
    as (err & w1 & Hset).
  destruct err as [e|]; eexists _, _, _; split.
  - eapply quietly_bind; [exact Hset|].
    eapply quietly_bind; [apply quietly_log | apply quietly_ret].
  - reflexivity.
  - eapply quietly_bind; [exact Hset|].
    eapply quietly_bind; [apply quietly_ret | apply quietly_ret].
  - reflexivity.
Qed.


(** ** The watcher *)

Lemma listener_error_turn_aux (m : etcdMinion) (b : backoff.Backoff) (err : error) (w : World) :
  exists b' w',
    TaskListener_next m b (WatchErr err) w = (Val b', w') /\
    taskQueue_closed w' = taskQueue_closed w.
Proof.
  unfold TaskListener_next, bind, rand_Float64.
  destruct (random w) as [|r rest].
  - destruct (backoff.Duration b 0) as [d b'].
    eexists _, _. split; reflexivity.
  - destruct (backoff.Duration b r) as [d b'].
    eexists _, _. split; reflexivity.
Qed.

(** X11. On an error of [watcher.Next] the watcher takes the next sample of
    the random source, asks its generator once for a delay with it, logs that
    delay and sleeps for exactly that delay, and goes on with the generator as
    the call left it (one attempt further, its settings unchanged).  It does
    nothing else: no call to etcd, no send, the store and the channels as they
    were, the clock moved by the delay. *)
Theorem listener_error_turn (m : etcdMinion) (b : backoff.Backoff) (err : error) (w : World) :
  exists w',
    TaskListener_next m b (WatchErr err) w =
      (Val (snd (backoff.Duration b (hd 0 (random w)))), w') /\
    trace w' = trace w ++
      [EvLog (LogRetrying err (fst (backoff.Duration b (hd 0 (random w)))));
       EvSleep (fst (backoff.Duration b (hd 0 (random w))))] /\
    clock w' = clock w + fst (backoff.Duration b (hd 0 (random w))) /\
    random w' = tl (random w) /\
    backoff.attempts (snd (backoff.Duration b (hd 0 (random w)))) = backoff.attempts b + 1 /\
    (backoff.Min (snd (backoff.Duration b (hd 0 (random w)))),
     backoff.Max (snd (backoff.Duration b (hd 0 (random w)))),
     backoff.Factor (snd (backoff.Duration b (hd 0 (random w)))),
     backoff.Jitter (snd (backoff.Duration b (hd 0 (random w))))) =
      (backoff.Min b, backoff.Max b, backoff.Factor b, backoff.Jitter b) /\
    store w' = store w /\ outcomes w' = outcomes w /\
    taskQueue_closed w' = taskQueue_closed w /\ done_closed w' = done_closed w /\
    started w' = started w.
Proof.
  unfold TaskListener_next, bind, rand_Float64.
  destruct (random w) as [|r rest] eqn:Hr; cbn [hd tl].
  - destruct (backoff.Duration b 0) as [d b'] eqn:Hd. cbn [fst snd].
    unfold backoff.Duration in Hd. injection Hd as Hd <-.
    eexists. split; [reflexivity|]. simpl.
    rewrite <- app_assoc, Hr. repeat split; reflexivity.
  - destruct (backoff.Duration b r) as [d b'] eqn:Hd. cbn [fst snd].
    unfold backoff.Duration in Hd. injection Hd as Hd <-.
    eexists. split; [reflexivity|]. simpl.
    rewrite <- app_assoc. repeat split; reflexivity.
Qed.

Lemma TaskListener_next_open (m : etcdMinion) (b : backoff.Backoff) (next : WatchNext)
    (w : World) :
  decoder_gives_tasks ->
  taskQueue_closed w = false ->
  exists b' w', TaskListener_next m b next w = (Val b', w') /\ taskQueue_closed w' = false.
Proof.
  intros Hdec Hopen. destruct next as [err|resp].
  - destruct (listener_error_turn_aux m b err w) as (b' & w' & Heq & Hq).
    exists b', w'. split; [exact Heq | congruence].
  - unfold TaskListener_next.
    destruct (gostrings.EqualFold _ _); [eexists _, _; split; [reflexivity | exact Hopen]|].
    destruct (quietly_Delete (etcdclient.Key (etcdclient.Node_ resp)) w)
      as (err & w1 & Heq & _ & Hq & _).
    unfold EtcdUnmarshalTask.
    pose proof (Hdec (etcdclient.Value (etcdclient.Node_ resp))) as Hnn.
    destruct (json_Unmarshal_Task _) as [t [e|]]; unfold bind; rewrite Heq.
    + unfold log_Printf, record, ret. simpl. eexists _, _. split; [reflexivity|].
      simpl. congruence.
    + destruct t as [t|]; [|congruence].
      unfold log_Printf, record, send, ret. simpl. rewrite Hq, Hopen.
      eexists _, _. split; [reflexivity|]. simpl. congruence.
Qed.

Lemma TaskListener_for_open (m : etcdMinion) (nexts : list WatchNext) : forall b w,
  decoder_gives_tasks ->
  taskQueue_closed w = false ->
  exists w', TaskListener_for m b nexts w = (Val Iterating, w') /\ taskQueue_closed w' = false.
Proof.
  induction nexts as [|next rest IH]; intros b w Hdec Hopen.
  - exists w. split; [reflexivity | exact Hopen].
  - destruct (TaskListener_next_open m b next w Hdec Hopen) as (b' & w1 & Heq & Hopen1).
    destruct (IH b' w1 Hdec Hopen1) as (w' & Heq' & Hopen').
    exists w'. split; [|exact Hopen'].
    simpl. unfold bind. rewrite Heq. exact Heq'.
Qed.

Lemma TaskListener_for_never_returns (m : etcdMinion) (nexts : list WatchNext) :
  forall b w r w', TaskListener_for m b nexts w = (Val r, w') -> r = Iterating.
Proof.
  induction nexts as [|next rest IH]; intros b w r w'; simpl.
  - unfold ret. intros H. injection H as <- _. reflexivity.
  - unfold bind. destruct (TaskListener_next m b next w) as [[b'|msg] w1]; [|discriminate].
    apply IH.
Qed.

(** X12. [TaskListener] has no way out: whatever the watcher hands it, it is
    still in its loop unless it panicked.  With the task channel open and a
    decoder that never yields a nil task without an error it does not panic
    either: transport errors, delete events, tasks and malformed payloads, in
    any number and order, leave it iterating. *)
Theorem listener_keeps_watching (m : etcdMinion) (nexts : list WatchNext) (w : World) :
  (forall r w', TaskListener m nexts w = (Val r, w') -> r = Iterating) /\
  (decoder_gives_tasks ->
   taskQueue_closed w = false ->
   exists w', TaskListener m nexts w = (Val Iterating, w')).
Proof.
  split.
  - intros r w'. unfold TaskListener, bind, log_Printf, record.
    apply TaskListener_for_never_returns.
  - intros Hdec Hopen. unfold TaskListener, bind, log_Printf, record.
    destruct (TaskListener_for_open m nexts TaskListener_backoff
                (emit (EvLog (LogWatching (queueDir m))) w) Hdec Hopen) as (w' & Heq & _).
    exists w'. exact Heq.
Qed.

(** ** The lastseen of a negative time *)

Lemma FormatInt_negative (s : Z) :
  - 2 ^ 63 <= s < 0 ->
  exists numeral,
    strconv.FormatInt s = String "-"%char numeral /\
    strconv.decimal_value numeral = Some (- s) /\
    strconv.no_leading_zero numeral = true.
Proof.
  intros Hs. unfold strconv.FormatInt.
  replace (s <? 0) with true by (symmetry; apply Z.ltb_lt; lia).
  exists (strconv.formatBits 65 (- s) EmptyString). split; [reflexivity|].
  assert (Hroom : 0 <= - s < 10 ^ Z.of_nat 65).
  { split; [lia|]. apply Z.le_lt_trans with (2 ^ 63); [lia|]. vm_compute. reflexivity. }
  split.
  - unfold strconv.decimal_value.
    pose proof (formatBits_nonempty 64 (- s)) as Hne.
    destruct (strconv.formatBits 65 (- s) EmptyString) eqn:Heq; [congruence|].
    rewrite <- Heq. rewrite formatBits_value by exact Hroom. f_equal; lia.
  - apply formatBits_no_leading_zero. exact Hroom.
Qed.

(** X13. [SetLastseen] does not refuse a negative time: for a negative [int64]
    it writes, at the same key, a minus sign followed by the decimal numeral of
    the magnitude. *)
Theorem SetLastseen_negative (m : etcdMinion) (s : Z) (w : World) :
  - 2 ^ 63 <= s < 0 ->
  exists numeral err w',
    SetLastseen m s w = (Val err, w') /\
    sets (trace w') =
      sets (trace w) ++ [(filepath.Join [rootDir m; "lastseen"], String "-"%char numeral, 0)] /\
    strconv.decimal_value numeral = Some (- s) /\
    strconv.no_leading_zero numeral = true.
Proof.
  intros Hs. destruct (FormatInt_negative s Hs) as (numeral & Hfmt & Hval & Hlead).
  destruct (SetLastseen_sets m s w) as (err & evs & w' & (Heq & Htr & _) & Hsets).
  exists numeral, err, w'. split; [exact Heq|].
  rewrite Htr, sets_app, Hsets, Hfmt. auto.
Qed.

(** ** What a reader finds after Serve *)

Lemma kapi_Set_nil (key value : string) (ttl : Z) (w w' : World) :
  kapi_Set key value ttl w = (Val None, w') ->
  store w' = <[key := etcdclient.File value]> (store w) /\ same_process w w'.
Proof.
  intros H.
  destruct (kapi_Set_outcome key value ttl w) as (err & w1 & Heq & _ & Hst).
  destruct (quietly_Set key value ttl w) as (err' & w1' & Heq' & _ & Hp).
  rewrite H in Heq, Heq'. injection Heq as <- <-. injection Heq' as _ <-. auto.
Qed.

Lemma SetName_nil (m : etcdMinion) (n : string) (w w' : World) :
  SetName m n w = (Val None, w') ->
  store w' = <[filepath.Join [rootDir m; "name"] := etcdclient.File n]> (store w) /\
  same_process w w'.
Proof.
  unfold SetName, bind.
  destruct (kapi_Set _ n 0 w) as [[[e|]|msg] w1] eqn:Hset; simpl.
  - unfold ret. discriminate.
  - unfold ret. intros H. injection H as <-. eapply kapi_Set_nil. exact Hset.
  - discriminate.
Qed.

Lemma SetLastseen_nil (m : etcdMinion) (s : Z) (w w' : World) :
  SetLastseen m s w = (Val None, w') ->
  store w' =
    <[filepath.Join [rootDir m; "lastseen"] := etcdclient.File (strconv.FormatInt s)]> (store w) /\
  same_process w w'.
Proof.
  unfold SetLastseen, bind.
  destruct (kapi_Set _ _ 0 w) as [[[e|]|msg] w1] eqn:Hset; simpl.
  - unfold ret. discriminate.
  - unfold ret. intros H. injection H as <-. eapply kapi_Set_nil. exact Hset.
  - discriminate.
Qed.

Lemma lastseen_is_not_name (id : string) :
  "/gru/minion/" +:+ id +:+ "/lastseen" <> "/gru/minion/" +:+ id +:+ "/name".
Proof.
  intros H.
  apply (inj (String.append "/gru/minion/")) in H.
  apply (inj (String.append id)) in H.
  discriminate H.
Qed.

(** X14. When [Serve] returns nil for a minion made by [NewEtcdMinion] from a
    name whose identifier has sixteen bytes, a reader of the store finds the
    name at [/gru/minion/<id>/name] and, at [/gru/minion/<id>/lastseen], the
    seconds of the instant of the call in decimal. *)
Theorem Serve_publishes (n : string) (w w' : World) :
  List.length (GenerateUUID n) = 16%nat ->
  Serve (NewEtcdMinion n) w = (Val None, w') ->
  store w' !! ("/gru/minion/" +:+ uuid.String_ (GenerateUUID n) +:+ "/name") =
    Some (etcdclient.File n) /\
  store w' !! ("/gru/minion/" +:+ uuid.String_ (GenerateUUID n) +:+ "/lastseen") =
    Some (etcdclient.File (strconv.FormatInt (time.Unix (clock w)))).
Proof.
  intros Hlen. unfold Serve, bind.
  destruct (SetName (NewEtcdMinion n) (name (NewEtcdMinion n)) w)
    as [[[e1|]|msg1] w1] eqn:Hname; try discriminate.
  apply SetName_nil in Hname as [Hst1 (_ & _ & Hc1 & _)].
  unfold time_Now. rewrite Hc1.
  destruct (SetLastseen (NewEtcdMinion n) (time.Unix (clock w)) w1)
    as [[[e2|]|msg2] w2] eqn:Hseen; try discriminate.
  apply SetLastseen_nil in Hseen as [Hst2 _].
  unfold go, log_Printf, record, ret. simpl. intros H. injection H as <-. simpl.
  rewrite Hst2, Hst1.
  rewrite (Join_under_root n "name" Hlen eq_refl).
  rewrite (Join_under_root n "lastseen" Hlen eq_refl).
  change (name (NewEtcdMinion n)) with n.
  split.
  - rewrite lookup_insert_ne; [apply lookup_insert_eq|].
    apply lastseen_is_not_name.
  - apply lookup_insert_eq.
Qed.

(** ** A payload that decodes to no task *)

(** X15. When the decoder hands back a nil task and no error for a payload (as
    [json.Unmarshal] into a pointer to a pointer does on the literal [null]),
    the watcher deletes the node and then panics on the nil task it is about to
    log, and the drainer deletes the node and sends the nil task, on which the
    receive case of the runner panics. *)
Theorem nil_task_panics (m : etcdMinion) :
  (forall b resp w,
     ~ same_word (etcdclient.Action resp) "delete" ->
     EtcdUnmarshalTask (etcdclient.Node_ resp) = (None, None) ->
     exists w',
       TaskListener_next m b (WatchEvent resp) w = (Panic nil_dereference, w') /\
       trace w' = trace w ++ [EvDelete (etcdclient.Key (etcdclient.Node_ resp))]) /\
  (forall node w,
     EtcdUnmarshalTask node = (None, None) ->
     taskQueue_closed w = false ->
     exists w',
       checkQueue_range m [node] w = (Val tt, w') /\
       trace w' = trace w ++ [EvDelete (etcdclient.Key node); EvSend None] /\
       fst (TaskRunner_select m (RunnerTask None) w') = Panic nil_dereference).
Proof.
  split.
  - intros b resp w Hother Hdec. apply not_delete_event in Hother.
    destruct (quietly_Delete (etcdclient.Key (etcdclient.Node_ resp)) w)
      as (err & w1 & Heq & Htr & _).
    unfold TaskListener_next. rewrite Hother, Hdec. unfold bind. rewrite Heq.
    exists w1. split; [reflexivity | exact Htr].
  - intros node w Hdec Hopen.
    destruct (quietly_Delete (etcdclient.Key node) w) as (err & w1 & Heq & Htr & Hq & _).
    change (checkQueue_range m [node])
      with (let '(t, err) := EtcdUnmarshalTask node in
            (kapi_Delete (etcdclient.Key node) ;;
             match err with
             | Some _ => ret tt
             | None => send t ;; ret tt
             end)%go).
    rewrite Hdec. unfold bind. rewrite Heq. unfold send, ret. rewrite Hq, Hopen.
    eexists. split; [reflexivity|]. split.
    + simpl. rewrite Htr, <- app_assoc. reflexivity.
    + unfold TaskRunner_select, bind, recv. simpl. rewrite Hq, Hopen. reflexivity.
Qed.

(** ** Who does what *)

Lemma emits_ret {A} (P : Event -> Prop) (a : A) : emits P (ret a).
Proof. intros w. exists []. simpl. rewrite app_nil_r. auto. Qed.

Lemma emits_panic {A} (P : Event -> Prop) (msg : string) : emits P (@panic A msg).
Proof. intros w. exists []. simpl. rewrite app_nil_r. auto. Qed.

Lemma emits_bind {A B} (P : Event -> Prop) (c : M A) (k : A -> M B) :
  emits P c -> (forall a, emits P (k a)) -> emits P (bind c k).
Proof.
  intros Hc Hk w. unfold bind. destruct (Hc w) as (evs1 & Htr1 & HP1).
  destruct (c w) as [[a|msg] w1]; simpl in *.
  - destruct (Hk a w1) as (evs2 & Htr2 & HP2).
    exists (evs1 ++ evs2). rewrite Htr2, Htr1, app_assoc. split; [reflexivity|].
    apply Forall_app. auto.
  - exists evs1. auto.
Qed.

Lemma emits_record (P : Event -> Prop) (e : Event) : P e -> emits P (record e).
Proof. intros He w. exists [e]. simpl. auto. Qed.

Lemma emits_quiet {A} (P : Event -> Prop) (c : M A) :
  (forall w, trace (snd (c w)) = trace w) -> emits P c.
Proof. intros H w. exists []. rewrite H, app_nil_r. auto. Qed.

Lemma emits_Get (P : Event -> Prop) (key : string) : P (EvGet key) -> emits P (kapi_Get key).
Proof.
  intros HP w. destruct (quietly_Get key w) as (r & w' & (Heq & Htr & _) & _).
  exists [EvGet key]. rewrite Heq. simpl. auto.
Qed.

Lemma emits_Set (P : Event -> Prop) (key value : string) (ttl : Z) :
  P (EvSet key value ttl) -> emits P (kapi_Set key value ttl).
Proof.
  intros HP w. destruct (quietly_Set key value ttl w) as (r & w' & Heq & Htr & _).
  exists [EvSet key value ttl]. rewrite Heq. simpl. auto.
Qed.

Lemma emits_Delete (P : Event -> Prop) (key : string) :
  P (EvDelete key) -> emits P (kapi_Delete key).
Proof.
  intros HP w. destruct (quietly_Delete key w) as (r & w' & Heq & Htr & _).
  exists [EvDelete key]. rewrite Heq. simpl. auto.
Qed.

Lemma emits_send (P : Event -> Prop) (t : option task.Task) : P (EvSend t) -> emits P (send t).
Proof.
  intros HP w. exists [EvSend t]. unfold send. destruct (taskQueue_closed w); simpl; auto.
Qed.

Lemma emits_SaveTaskResult (m : etcdMinion) (t : task.Task) :
  emits (runner_event m) (SaveTaskResult m t).
Proof.
  unfold SaveTaskResult. destruct (json_Marshal_Task t) as [data [e|]].
  - apply emits_bind; [apply emits_record; exact I | intros _; apply emits_ret].
  - apply emits_bind.
    + apply emits_Set. split; [|reflexivity]. exists (task.TaskID t). reflexivity.
    + intros [e|]; (apply emits_bind; [|intros _; apply emits_ret]).
      * apply emits_record. exact I.
      * apply emits_ret.
Qed.

Lemma emits_processTask (m : etcdMinion) (t : task.Task) :
  emits (runner_event m) (processTask m t).
Proof.
  unfold processTask.
  apply emits_bind; [apply emits_SaveTaskResult|]. intros _.
  apply emits_bind; [apply emits_record; exact I|]. intros _.
  destruct (task.Run _) as [out err].
  apply emits_bind; [apply emits_quiet; reflexivity|]. intros now.
  apply emits_bind; [|intros _; apply emits_ret].
  destruct err as [e|];
    (apply emits_bind; [apply emits_record; exact I | intros _; apply emits_SaveTaskResult]).
Qed.

Lemma emits_TaskRunner_select (m : etcdMinion) (c : RunnerCase) :
  emits (runner_event m) (TaskRunner_select m c).
Proof.
  destruct c as [|offer]; simpl.
  - apply emits_quiet. intros w. destruct (done_closed w); reflexivity.
  - apply emits_bind.
    { intros w. exists [EvRecv (if taskQueue_closed w then None else offer)].
      simpl. split; [reflexivity|]. repeat constructor. }
    intros t. apply emits_bind; [|intros _; apply emits_ret].
    destruct t as [t|]; [|apply emits_panic]. simpl.
    apply emits_bind; [apply emits_quiet; reflexivity|]. intros now.
    apply emits_bind; [apply emits_SaveTaskResult|]. intros _.
    destruct (task.IsConcurrent _).
    + intros w. eexists [EvGo _]. simpl. split; [reflexivity|]. repeat constructor.
    + apply emits_bind; [apply emits_processTask | intros _; apply emits_ret].
Qed.

(** X16. The runner only receives, writes log records and starts goroutines:
    on any sequence of turns, and however it ends, every write it issues is at
    the log key of a task and carries no expiry, and it never reads a key,
    deletes one, sends on the task channel or sleeps.  The same holds of the
    processing it starts. *)
Theorem runner_writes_only_the_log (m : etcdMinion) :
  (forall cases w,
     exists evs,
       trace (snd (TaskRunner m cases w)) = trace w ++ evs /\
       Forall (runner_event m) evs) /\
  (forall t w,
     exists evs,
       trace (snd (processTask m t w)) = trace w ++ evs /\
       Forall (runner_event m) evs).
Proof.
  split.
  - intros cases. unfold TaskRunner.
    apply emits_bind; [apply emits_record; exact I|]. intros _.
    induction cases as [|c rest IH]; simpl; [apply emits_ret|].
    apply emits_bind; [apply emits_TaskRunner_select|].
    intros [e| |]; [apply emits_ret | exact IH | apply emits_ret].
  - intros t. apply emits_processTask.
Qed.

Lemma emits_checkQueue_range (m : etcdMinion) (backlog : list etcdclient.Node) :
  emits sender_event (checkQueue_range m backlog).
Proof.
  induction backlog as [|node rest IH]; simpl; [apply emits_ret|].
  destruct (EtcdUnmarshalTask node) as [t [e|]].
  - apply emits_bind; [apply emits_Delete; exact I | intros _; exact IH].
  - apply emits_bind; [apply emits_Delete; exact I|]. intros _.
    apply emits_bind; [apply emits_send; exact I | intros _; exact IH].
Qed.

Lemma emits_TaskListener_next (m : etcdMinion) (b : backoff.Backoff) (next : WatchNext) :
  emits sender_event (TaskListener_next m b next).
Proof.
  destruct next as [err|resp]; simpl.
  - apply emits_bind.
    { apply emits_quiet. intros w. unfold rand_Float64. destruct (random w); reflexivity. }
    intros r. destruct (backoff.Duration b r) as [d b'].
    apply emits_bind; [apply emits_record; exact I|]. intros _.
    apply emits_bind; [|intros _; apply emits_ret].
    intros w. eexists [EvSleep _]. simpl. split; [reflexivity|]. repeat constructor.
  - destruct (gostrings.EqualFold _ _); [apply emits_ret|].
    destruct (EtcdUnmarshalTask _) as [t [e|]].
    + apply emits_bind; [apply emits_Delete; exact I|]. intros _.
      apply emits_bind; [apply emits_record; exact I | intros _; apply emits_ret].
    + apply emits_bind; [apply emits_Delete; exact I|]. intros _.
      destruct t as [t|]; [|apply emits_panic].
      apply emits_bind; [apply emits_record; exact I|]. intros _.
      apply emits_bind; [apply emits_send; exact I | intros _; apply emits_ret].
Qed.

(** X17. The drainer and the watcher never write: however they end, all that
    [checkQueue] and [TaskListener] do is read the queue, delete nodes, send
    tasks, log and sleep; they issue no set, receive nothing from the task
    channel and start no goroutine. *)
Theorem senders_never_write (m : etcdMinion) :
  (forall w,
     exists evs,
       trace (snd (checkQueue m w)) = trace w ++ evs /\ Forall sender_event evs) /\
  (forall nexts w,
     exists evs,
       trace (snd (TaskListener m nexts w)) = trace w ++ evs /\ Forall sender_event evs).
Proof.
  split.
  - unfold checkQueue. apply emits_bind; [apply emits_Get; exact I|].
    intros [resp err].
    assert (Hgo : @emits (option error) sender_event
              match resp with
              | Some resp0 =>
                  if Nat.eqb (List.length (etcdclient.Nodes (etcdclient.Node_ resp0))) 0
                  then ret None
                  else (log_Printf (LogFoundPending
                                      (List.length (etcdclient.Nodes (etcdclient.Node_ resp0)))) ;;
                        checkQueue_range m (etcdclient.Nodes (etcdclient.Node_ resp0)) ;;
                        ret None)%go
              | None => panic nil_dereference
              end).
    { destruct resp as [resp|]; [|apply emits_panic].
      destruct (Nat.eqb _ 0); [apply emits_ret|].
      apply emits_bind; [apply emits_record; exact I|]. intros _.
      apply emits_bind; [apply emits_checkQueue_range | intros _; apply emits_ret]. }
    destruct err as [[code msg|msg]|]; [| apply emits_ret | exact Hgo].
    destruct (code =? etcdclient.ErrorCodeKeyNotFound); [apply emits_ret | exact Hgo].
  - intros nexts. unfold TaskListener.
    apply emits_bind; [apply emits_record; exact I|]. intros _.
    generalize TaskListener_backoff.
    induction nexts as [|next rest IH]; intros b; simpl; [apply emits_ret|].
    apply emits_bind; [apply emits_TaskListener_next | intros b'; apply IH].
Qed.

(** ** From a queue entry to its log record, in the store *)





End MinionFacts.

(** * Facts about the service resource *)
Section ServiceFacts.

Import service.
Context {bus : Bus}.

(** ** The discipline of the connections *)

Lemma connections_app (limit : nat) (a b : list Call) : forall open,
  connections limit (a ++ b) open =
  match connections limit a open with
  | Some open' => connections limit b open'
  | None => None
  end.
Proof.
  induction a as [|c a IH]; intros open; [reflexivity|].
  destruct c as [[|]| | | | | | | |]; cbn [connections app];
    try (destruct open; [reflexivity|]); try apply IH.
  destruct (Nat.leb (S open) limit); [apply IH | reflexivity].
Qed.

Lemma connections_mono (limit limit' : nat) (calls : list Call) : forall open open',
  (limit <= limit')%nat ->
  connections limit calls open = Some open' ->
  connections limit' calls open = Some open'.
Proof.
  induction calls as [|c calls IH]; intros open open' Hle H; [exact H|].
  destruct c as [[|]| | | | | | | |]; cbn [connections] in *;
    try (destruct open; [discriminate|]); eauto.
  destruct (Nat.leb (S open) limit) eqn:Hl; [|discriminate].
  apply Nat.leb_le in Hl.
  destruct (Nat.leb_spec (S open) limit') as [_|Hgt]; [eauto | lia].
Qed.

Lemma scoped_ret {A} (open limit : nat) (a : A) : scoped open limit (ret a).
Proof. intros tr. exists []. split; [symmetry; apply app_nil_r | reflexivity]. Qed.

Lemma scoped_panic {A} (open limit : nat) (msg : string) : scoped open limit (@panic A msg).
Proof. intros tr. exists []. split; [symmetry; apply app_nil_r | reflexivity]. Qed.

Lemma scoped_bind {A B} (open limit : nat) (c : M A) (k : A -> M B) :
  scoped open limit c -> (forall a, scoped open limit (k a)) -> scoped open limit (bind c k).
Proof.
  intros Hc Hk tr. destruct (Hc tr) as (e1 & Htr & Hn). unfold bind.
  destruct (c tr) as [[a|msg] tr1]; simpl in Htr; subst tr1.
  - destruct (Hk a (tr ++ e1)) as (e2 & Htr2 & Hn2).
    exists (e1 ++ e2). split.
    + rewrite Htr2. symmetry. apply app_assoc.
    + rewrite connections_app, Hn. exact Hn2.
  - exists e1. split; [reflexivity | exact Hn].
Qed.

Lemma scoped_mono {A} (open limit limit' : nat) (c : M A) :
  (limit <= limit')%nat -> scoped open limit c -> scoped open limit' c.
Proof.
  intros Hle Hc tr. destruct (Hc tr) as (e & Htr & Hn).
  exists e. split; [exact Htr | exact (connections_mono _ _ _ _ _ Hle Hn)].
Qed.

Lemma scoped_Log (open limit : nat) (l : Line) : scoped open limit (Log l).
Proof. intros tr. exists [CLog l]. split; reflexivity. Qed.

Lemma scoped_call {A} (open limit : nat) (answer : list Call -> A) (c : Call) :
  method c = true -> scoped (S open) limit (call answer c).
Proof.
  intros Hm tr. exists [c]. split; [reflexivity|].
  destruct c as [[|]| | | | | | | |]; try discriminate Hm; reflexivity.
Qed.

Lemma scoped_with_conn {A} (open limit : nat) (failed : error -> A) (rest : M A) :
  (S open <= limit)%nat ->
  scoped (S open) limit rest ->
  scoped open limit (with_conn failed rest).
Proof.
  intros Hle Hrest tr. unfold with_conn, bind, New.
  destruct (dbus_New tr) as [e|].
  - exists [CNew false]. split; reflexivity.
  - unfold defer_Close.
    destruct (Hrest (tr ++ [CNew true])) as (calls & Htr & Hn).
    destruct (rest (tr ++ [CNew true])) as [r tr1]. simpl in Htr. subst tr1.
    exists (CNew true :: calls ++ [CClose]). split.
    + simpl. rewrite <- !app_assoc. reflexivity.
    + cbn [connections]. apply Nat.leb_le in Hle. rewrite Hle.
      rewrite connections_app, Hn. reflexivity.
Qed.

Lemma scoped_log_enable_changes (open limit : nat) (changes : list EnableUnitFileChange) :
  scoped open limit (log_enable_changes changes).
Proof.
  induction changes as [|c rest IH]; [apply scoped_ret|].
  simpl. apply scoped_bind; [apply scoped_Log | intros _; exact IH].
Qed.

Lemma scoped_log_disable_changes (open limit : nat) (changes : list DisableUnitFileChange) :
  scoped open limit (log_disable_changes changes).
Proof.
  induction changes as [|c rest IH]; [apply scoped_ret|].
  simpl. apply scoped_bind; [apply scoped_Log | intros _; exact IH].
Qed.

Lemma scoped_string_value (open limit : nat) (p : option Property) :
  scoped open limit (string_value p).
Proof.
  destruct p as [p|]; [|apply scoped_panic].
  unfold string_value. destruct (Value p); [apply scoped_ret | apply scoped_panic].
Qed.

Lemma scoped_unitProperty (open limit : nat) (s : Service) (name : string) :
  (S open <= limit)%nat -> scoped open limit (unitProperty s name).
Proof.
  intros Hle. apply scoped_with_conn; [exact Hle|]. apply scoped_call. reflexivity.
Qed.

Lemma scoped_unitIsEnabled (open limit : nat) (s : Service) :
  (S open <= limit)%nat -> scoped open limit (unitIsEnabled s).
Proof.
  intros Hle. apply scoped_bind; [apply scoped_unitProperty; exact Hle|].
  intros [unitState [e|]]; [apply scoped_ret|].
  apply scoped_bind; [apply scoped_string_value|].
  intros value. repeat (match goal with |- context [if ?b then _ else _] => destruct b end);
    apply scoped_ret.
Qed.

Lemma scoped_enableUnit (open limit : nat) (s : Service) :
  (S open <= limit)%nat -> scoped open limit (enableUnit s).
Proof.
  intros Hle. apply scoped_with_conn; [exact Hle|].
  apply scoped_bind; [apply scoped_Log|]. intros _.
  apply scoped_bind; [apply scoped_call; reflexivity|].
  intros [[b changes]|e]; [|apply scoped_ret].
  apply scoped_bind; [apply scoped_log_enable_changes | intros _; apply scoped_ret].
Qed.

Lemma scoped_disableUnit (open limit : nat) (s : Service) :
  (S open <= limit)%nat -> scoped open limit (disableUnit s).
Proof.
  intros Hle. apply scoped_with_conn; [exact Hle|].
  apply scoped_bind; [apply scoped_Log|]. intros _.
  apply scoped_bind; [apply scoped_call; reflexivity|].
  intros [changes|e]; [|apply scoped_ret].
  apply scoped_bind; [apply scoped_log_disable_changes | intros _; apply scoped_ret].
Qed.

Lemma scoped_daemonReload (open limit : nat) (s : Service) :
  (S open <= limit)%nat -> scoped open limit (daemonReload s).
Proof.
  intros Hle. apply scoped_with_conn; [exact Hle|]. apply scoped_call. reflexivity.
Qed.

Lemma scoped_setUnitState (open limit : nat) (s : Service) :
  (S open <= limit)%nat -> scoped open limit (setUnitState s).
Proof.
  intros Hle. apply scoped_bind; [apply scoped_unitIsEnabled; exact Hle|].
  intros [enabled [e|]]; [apply scoped_ret|].
  destruct (Enable s && negb enabled).
  - apply scoped_bind; [apply scoped_enableUnit; exact Hle|].
    intros [e|]; [apply scoped_ret | apply scoped_daemonReload; exact Hle].
  - apply scoped_bind; [apply scoped_disableUnit; exact Hle|].
    intros [e|]; [apply scoped_ret | apply scoped_daemonReload; exact Hle].
Qed.

(** X19. The connections to the bus are scoped: whatever the bus answers, and
    whether the call returns, returns an error or panics, [Evaluate] and
    [Update] close every connection they opened and never hold more than one,
    and [Create] and [Delete] close every connection they opened and never
    hold more than two (their own, kept until they end, and the one of the
    step in progress).  No connection is closed twice, and no method is called
    on a connection that is not open. *)
Theorem connections_are_scoped (s : Service) (tr : list Call) :
  (exists calls,
     snd (Evaluate s tr) = tr ++ calls /\ connections 1 calls 0 = Some 0%nat) /\
  (exists calls,
     snd (Update s tr) = tr ++ calls /\ connections 1 calls 0 = Some 0%nat) /\
  (exists calls,
     snd (Create s tr) = tr ++ calls /\ connections 2 calls 0 = Some 0%nat) /\
  (exists calls,
     snd (Delete s tr) = tr ++ calls /\ connections 2 calls 0 = Some 0%nat).
Proof.
  assert (Hjob : forall r : (Z * string) + error,
            scoped 1 2 match r with
                       | inr e => ret (Some e)
                       | inl (jobID, result) =>
                           bind (Log (LogJob jobID result)) (fun _ => setUnitState s)
                       end).
  { intros [[jobID result]|e]; [|apply scoped_ret].
    apply scoped_bind; [apply scoped_Log|]. intros _. apply scoped_setUnitState. lia. }
  split; [|split; [|split]].
  - apply (@scoped_bind _ _ 0 1); [apply scoped_unitProperty; lia|].
    intros [activeState [e|]]; [apply scoped_ret|].
    apply scoped_bind; [apply scoped_string_value|]. intros value.
    apply scoped_bind; [apply scoped_unitIsEnabled; lia|].
    intros [enabled [e|]]; [apply scoped_ret|].
    destruct (negb (Bool.eqb (Enable s) enabled)); apply scoped_ret.
  - apply (scoped_setUnitState 0 1). lia.
  - apply (@scoped_with_conn _ 0 2); [lia|].
    apply scoped_bind; [apply scoped_Log|]. intros _.
    apply scoped_bind; [apply scoped_call; reflexivity | exact Hjob].
  - apply (@scoped_with_conn _ 0 2); [lia|].
    apply scoped_bind; [apply scoped_Log|]. intros _.
    apply scoped_bind; [apply scoped_call; reflexivity | exact Hjob].
Qed.


(** ** What is asked of systemd *)

Lemma asked_app (a b : list Call) : asked (a ++ b) = asked a ++ asked b.
Proof. apply List.filter_app. Qed.

Lemma log_enable_changes_run (changes : list EnableUnitFileChange) : forall tr,
  exists calls,
    log_enable_changes changes tr = (Val tt, tr ++ calls) /\ asked calls = [].
Proof.
  induction changes as [|c rest IH]; intros tr.
  - exists []. split; [unfold log_enable_changes, ret; rewrite app_nil_r|]; reflexivity.
  - cbn [log_enable_changes]. unfold bind, Log, call.
    destruct (IH (tr ++ [CLog (LogEnableChange (EType c) (EFilename c) (EDestination c))]))
      as (calls & -> & Hasked).
    eexists (_ :: calls). split; [rewrite <- app_assoc; reflexivity | exact Hasked].
Qed.

Lemma log_disable_changes_run (changes : list DisableUnitFileChange) : forall tr,
  exists calls,
    log_disable_changes changes tr = (Val tt, tr ++ calls) /\ asked calls = [].
Proof.
  induction changes as [|c rest IH]; intros tr.
  - exists []. split; [unfold log_disable_changes, ret; rewrite app_nil_r|]; reflexivity.
  - cbn [log_disable_changes]. unfold bind, Log, call.
    destruct (IH (tr ++ [CLog (LogDisableChange (DType c) (DFilename c))]))
      as (calls & -> & Hasked).
    eexists (_ :: calls). split; [rewrite <- app_assoc; reflexivity | exact Hasked].
Qed.

(** [unitProperty]: a connection refused, or the one request between the
    opening and the closing of a connection; a nil error comes with the answer
    of the bus. *)
Lemma unitProperty_run (s : Service) (name : string) (tr : list Call) :
  exists r calls,
    unitProperty s name tr = (Val r, tr ++ calls) /\
    (calls = [CNew false] /\ snd r <> None \/
     calls = [CNew true; CGetUnitProperty (unit_ s) name; CClose] /\
     (snd r = None -> fst r <> None)).
Proof.
  unfold unitProperty, with_conn, bind, New.
  destruct (dbus_New tr) as [e|].
  - eexists _, [_]. split; [reflexivity|]. left. split; [reflexivity | discriminate].
  - unfold defer_Close, GetUnitProperty, call.
    eexists _, [_; _; _]. split; [rewrite <- !app_assoc; reflexivity|].
    right. split; [reflexivity|]. cbn.
    destruct (conn_GetUnitProperty _ _ _); cbn; [discriminate | discriminate].
Qed.

(** [unitIsEnabled] makes the request of [unitProperty] for the unit file
    state and nothing more. *)
Lemma unitIsEnabled_run (s : Service) (tr : list Call) :
  exists calls,
    snd (unitIsEnabled s tr) = tr ++ calls /\
    (calls = [CNew false] /\ (forall b tr', unitIsEnabled s tr <> (Val (b, None), tr')) \/
     calls = [CNew true; CGetUnitProperty (unit_ s) "UnitFileState"; CClose]).
Proof.
  unfold unitIsEnabled, bind.
  destruct (unitProperty_run s "UnitFileState" tr) as ([p err] & calls & -> & Hcalls).
  exists calls. cbn [snd] in Hcalls.
  destruct err as [e|].
  - split; [reflexivity|].
    destruct Hcalls as [[-> _]|[-> _]]; [left | right; reflexivity].
    split; [reflexivity | intros b tr'; discriminate].
  - destruct Hcalls as [[_ Hne]|[-> Hp]]; [congruence|].
    split; [|right; reflexivity].
    destruct p as [p|]; [|reflexivity]. unfold string_value.
    destruct (Value p) as [value|]; [|reflexivity]. unfold ret.
    repeat (match goal with |- context [if ?b then _ else _] => destruct b end); reflexivity.
Qed.

(** X20. [Evaluate] only reads: whatever the bus answers and however the call
    ends, all it does is open and close connections and ask for properties of
    its own unit, the active state first and the unit file state after it; it
    starts, stops, enables, disables and reloads nothing, and logs nothing. *)
Theorem Evaluate_reads_only (s : Service) (tr : list Call) :
  exists calls,
    snd (Evaluate s tr) = tr ++ calls /\
    forallb (reads_only (unit_ s)) calls = true /\
    asked calls `prefix_of`
      [CGetUnitProperty (unit_ s) "ActiveState"; CGetUnitProperty (unit_ s) "UnitFileState"].
Proof.
  assert (Hsame : String.eqb (unit_ s) (unit_ s) = true) by apply String.eqb_refl.
  unfold Evaluate, bind.
  destruct (unitProperty_run s "ActiveState" tr) as ([p err] & calls & -> & Hcalls).
  cbn [fst snd] in Hcalls.
  assert (Hfirst : forallb (reads_only (unit_ s)) calls = true /\
                   (asked calls = [] \/
                    asked calls = [CGetUnitProperty (unit_ s) "ActiveState"])).
  { destruct Hcalls as [[-> _]|[-> _]]; cbn; rewrite ?Hsame; auto. }
  destruct Hfirst as [Hread Hasked].
  assert (Hstop : forallb (reads_only (unit_ s)) calls = true /\
                  asked calls `prefix_of`
                    [CGetUnitProperty (unit_ s) "ActiveState";
                     CGetUnitProperty (unit_ s) "UnitFileState"]).
  { split; [exact Hread|]. destruct Hasked as [-> | ->].
    - apply prefix_nil.
    - exists [CGetUnitProperty (unit_ s) "UnitFileState"]. reflexivity. }
  destruct err as [e|]; [exists calls; split; [reflexivity | exact Hstop]|].
  destruct p as [p|]; [|exists calls; split; [reflexivity | exact Hstop]].
  unfold string_value.
  destruct (Value p) as [value|]; [|exists calls; split; [reflexivity | exact Hstop]].
  unfold ret at 1.
  destruct Hcalls as [[_ Hne]|[-> _]]; [congruence|].
  destruct (unitIsEnabled_run s (tr ++ [CNew true; CGetUnitProperty (unit_ s) "ActiveState"; CClose]))
    as (calls2 & Htr2 & Hcalls2).
  destruct (unitIsEnabled s _) as [[[enabled [e|]]|msg] tr2]; cbn [snd] in Htr2; subst tr2;
    try destruct (negb (Bool.eqb (Enable s) enabled)); unfold ret; cbn [snd];
    (eexists (_ ++ calls2); split; [rewrite <- app_assoc; reflexivity|];
     rewrite forallb_app, asked_app;
     destruct Hcalls2 as [[-> _] | ->]; cbn; rewrite ?Hsame; split; try reflexivity;
     try (eexists; reflexivity)).
Qed.

Lemma unitProperty_wanted (x : string) (s : Service) (name : string) :
  unitProperty (wanted x s) name = unitProperty s name.
Proof. reflexivity. Qed.

Lemma unitIsEnabled_wanted (x : string) (s : Service) :
  unitIsEnabled (wanted x s) = unitIsEnabled s.
Proof. reflexivity. Qed.

(** X21. The wanted state plays no part in an evaluation: [Evaluate] hands it
    back as [Want] and compares it with nothing, so that the same service
    wanted in another state makes the same calls and gets the same current
    state, the same [Outdated] and the same error.  [Outdated] tells only
    that the unit is not enabled as wanted, and is set only together with a
    nil error; the current state is [running], [stopped] or [unknown]. *)
Theorem Evaluate_wanted_state_plays_no_part (s : Service) (x : string) (tr : list Call) :
  Evaluate (wanted x s) tr =
    match Evaluate s tr with
    | (Val (st, err), tr') => (Val (mkState (Current st) x (Outdated st), err), tr')
    | (Panic msg, tr') => (Panic msg, tr')
    end /\
  (forall st err tr',
     Evaluate s tr = (Val (st, err), tr') ->
     Want st = State_ (Base_ s) /\
     In (Current st) ["unknown"; "running"; "stopped"] /\
     (Outdated st = true ->
      err = None /\
      exists tr1, unitIsEnabled s tr1 = (Val (negb (Enable s), None), tr'))).
Proof.
  assert (Hcur : forall value,
            In (current_of value "unknown") ["unknown"; "running"; "stopped"]).
  { intros value. unfold current_of.
    destruct (one_of value _); [right; left; reflexivity|].
    destruct (one_of value _); [right; right; left; reflexivity | left; reflexivity]. }
  unfold Evaluate. rewrite unitProperty_wanted, unitIsEnabled_wanted. unfold bind, ret.
  change (Enable (wanted x s)) with (Enable s).
  change (State_ (Base_ (wanted x s))) with x.
  destruct (unitProperty s "ActiveState" tr) as [[[p [e|]]|msg] tr1].
  - split; [reflexivity|]. intros st err tr' [= <- <- <-]. cbn.
    split; [reflexivity|]. split; [left; reflexivity | discriminate].
  - destruct p as [p|]; [|split; [reflexivity | discriminate]].
    unfold string_value, ret.
    destruct (Value p) as [value|]; [|split; [reflexivity | discriminate]].
    cbn [Current Want Outdated].
    destruct (unitIsEnabled s tr1) as [[[enabled [e|]]|msg] tr2] eqn:Hen.
    + split; [reflexivity|]. intros st err tr' [= <- <- <-]. cbn.
      split; [reflexivity|]. split; [apply Hcur | discriminate].
    + destruct (negb (Bool.eqb (Enable s) enabled)) eqn:Hdiff.
      * split; [reflexivity|]. intros st err tr' [= <- <- <-]. cbn.
        split; [reflexivity|]. split; [apply Hcur|]. intros _. split; [reflexivity|].
        exists tr1. rewrite Hen.
        destruct (Enable s), enabled; try discriminate Hdiff; reflexivity.
      * split; [reflexivity|]. intros st err tr' [= <- <- <-]. cbn.
        split; [reflexivity|]. split; [apply Hcur | discriminate].
    + split; [reflexivity | discriminate].
  - split; [reflexivity | discriminate].
Qed.

(** ** Enabling, disabling and reloading *)

Lemma enableUnit_run (s : Service) (tr : list Call) :
  exists r calls,
    enableUnit s tr = (Val r, tr ++ calls) /\
    (dbus_New tr <> None /\ r <> None /\ asked calls = [] \/
     dbus_New tr = None /\ asked calls = [CEnableUnitFiles [unit_ s] false false]).
Proof.
  unfold enableUnit, with_conn, bind, New.
  destruct (dbus_New tr) as [e|].
  - eexists _, [_]. split; [reflexivity|]. left. repeat split; discriminate.
  - unfold defer_Close, Log, EnableUnitFiles, call.
    destruct (conn_EnableUnitFiles _ _ _ _) as [[b changes]|e].
    + destruct (log_enable_changes_run changes
                  (((tr ++ [CNew true]) ++ [CLog LogEnabling]) ++
                   [CEnableUnitFiles [unit_ s] false false])) as (calls & -> & Hasked).
      eexists _, (_ :: _ :: _ :: calls ++ [CClose]).
      split; [unfold ret; rewrite <- !app_assoc; reflexivity|].
      right. split; [reflexivity|]. cbn. rewrite asked_app, Hasked. reflexivity.
    + eexists _, [_; _; _; _]. split; [unfold ret; rewrite <- !app_assoc; reflexivity|].
      right. split; reflexivity.
Qed.

Lemma disableUnit_run (s : Service) (tr : list Call) :
  exists r calls,
    disableUnit s tr = (Val r, tr ++ calls) /\
    (dbus_New tr <> None /\ r <> None /\ asked calls = [] \/
     dbus_New tr = None /\ asked calls = [CDisableUnitFiles [unit_ s] false]).
Proof.
  unfold disableUnit, with_conn, bind, New.
  destruct (dbus_New tr) as [e|].
  - eexists _, [_]. split; [reflexivity|]. left. repeat split; discriminate.
  - unfold defer_Close, Log, DisableUnitFiles, call.
    destruct (conn_DisableUnitFiles _ _ _) as [changes|e].
    + destruct (log_disable_changes_run changes
                  (((tr ++ [CNew true]) ++ [CLog LogDisabling]) ++
                   [CDisableUnitFiles [unit_ s] false])) as (calls & -> & Hasked).
      eexists _, (_ :: _ :: _ :: calls ++ [CClose]).
      split; [unfold ret; rewrite <- !app_assoc; reflexivity|].
      right. split; [reflexivity|]. cbn. rewrite asked_app, Hasked. reflexivity.
    + eexists _, [_; _; _; _]. split; [unfold ret; rewrite <- !app_assoc; reflexivity|].
      right. split; reflexivity.
Qed.

Lemma daemonReload_run (s : Service) (tr : list Call) :
  exists r calls,
    daemonReload s tr = (Val r, tr ++ calls) /\
    (r <> None /\ asked calls = [] \/ asked calls = [CReload]).
Proof.
  unfold daemonReload, with_conn, bind, New.
  destruct (dbus_New tr) as [e|].
  - eexists _, [_]. split; [reflexivity|]. left. split; [discriminate | reflexivity].
  - unfold defer_Close, Reload, call.
    eexists _, [_; _; _]. split; [rewrite <- !app_assoc; reflexivity|]. right. reflexivity.
Qed.

(** The change of a unit found enabled or not, and the reload after it. *)
Lemma change_then_reload (s : Service) (enabled : bool) (tr : list Call) :
  exists r calls,
    (if Enable s && negb enabled then
       bind (enableUnit s)
         (fun err => match err with Some e => ret (Some e) | None => daemonReload s end)
     else
       bind (disableUnit s)
         (fun err => match err with Some e => ret (Some e) | None => daemonReload s end)) tr =
      (Val r, tr ++ calls) /\
    (asked calls = [] \/ asked calls = [change_of s enabled] \/
     asked calls = [change_of s enabled; CReload]) /\
    (dbus_New tr = None -> asked calls <> []) /\
    (r = None -> asked calls = [change_of s enabled; CReload]).
Proof.
  unfold change_of. destruct (Enable s && negb enabled); unfold bind.
  - destruct (enableUnit_run s tr) as (r1 & c1 & -> & H1).
    destruct r1 as [e|].
    + exists (Some e), c1. split; [reflexivity|].
      destruct H1 as [(Hnew & _ & ->)|(Hnew & ->)].
      * split; [auto|]. split; [congruence | discriminate].
      * split; [auto|]. split; [discriminate | discriminate].
    + destruct H1 as [(_ & Hne & _)|(Hnew & H1)]; [congruence|].
      destruct (daemonReload_run s (tr ++ c1)) as (r2 & c2 & -> & H2).
      exists r2, (c1 ++ c2). split; [rewrite app_assoc; reflexivity|].
      rewrite asked_app, H1.
      destruct H2 as [(Hne & ->)| ->]; cbn.
      * split; [auto|]. split; [discriminate | congruence].
      * split; [auto|]. split; [discriminate | reflexivity].
  - destruct (disableUnit_run s tr) as (r1 & c1 & -> & H1).
    destruct r1 as [e|].
    + exists (Some e), c1. split; [reflexivity|].
      destruct H1 as [(Hnew & _ & ->)|(Hnew & ->)].
      * split; [auto|]. split; [congruence | discriminate].
      * split; [auto|]. split; [discriminate | discriminate].
    + destruct H1 as [(_ & Hne & _)|(Hnew & H1)]; [congruence|].
      destruct (daemonReload_run s (tr ++ c1)) as (r2 & c2 & -> & H2).
      exists r2, (c1 ++ c2). split; [rewrite app_assoc; reflexivity|].
      rewrite asked_app, H1.
      destruct H2 as [(Hne & ->)| ->]; cbn.
      * split; [auto|]. split; [discriminate | congruence].
      * split; [auto|]. split; [discriminate | reflexivity].
Qed.

Lemma setUnitState_after (s : Service) (tr tr1 : list Call) (enabled : bool) :
  unitIsEnabled s tr = (Val (enabled, None), tr1) ->
  exists r calls,
    setUnitState s tr = (Val r, tr1 ++ calls) /\
    (asked calls = [] \/ asked calls = [change_of s enabled] \/
     asked calls = [change_of s enabled; CReload]) /\
    (dbus_New tr1 = None -> asked calls <> []) /\
    (r = None -> asked calls = [change_of s enabled; CReload]).
Proof.
  intros Hen. unfold setUnitState. unfold bind at 1. rewrite Hen.
  apply change_then_reload.
Qed.

(** X22. What [setUnitState] does once it has read whether the unit is
    enabled: it enables the unit when the service is to be enabled and the
    unit is not, and in every other case it disables the unit, also a unit
    that is enabled as wanted.  The reload is asked for after the change
    succeeded, and nil is returned only when both were asked for; nothing else
    is asked of systemd, and with a bus that accepts the connection the change
    is asked for. *)
Theorem setUnitState_decision (s : Service) (tr tr1 : list Call) (enabled : bool) :
  unitIsEnabled s tr = (Val (enabled, None), tr1) ->
  exists r calls,
    setUnitState s tr = (Val r, tr1 ++ calls) /\
    (asked calls = [] \/ asked calls = [change_of s enabled] \/
     asked calls = [change_of s enabled; CReload]) /\
    (dbus_New tr1 = None -> asked calls <> []) /\
    (r = None -> asked calls = [change_of s enabled; CReload]) /\
    (change_of s enabled =
       if enabled then CDisableUnitFiles [unit_ s] false
       else if Enable s then CEnableUnitFiles [unit_ s] false false
       else CDisableUnitFiles [unit_ s] false).
Proof.
  intros Hen. destruct (setUnitState_after s tr tr1 enabled Hen) as (r & calls & H1 & H2 & H3 & H4).
  exists r, calls. repeat (split; [assumption|]).
  unfold change_of. destruct (Enable s), enabled; reflexivity.
Qed.

(** ** Starting and stopping *)

Lemma setUnitState_nil (s : Service) (tr tr' : list Call) :
  setUnitState s tr = (Val None, tr') ->
  exists calls enabled,
    tr' = tr ++ calls /\
    asked calls =
      [CGetUnitProperty (unit_ s) "UnitFileState"; change_of s enabled; CReload].
Proof.
  intros Hset.
  destruct (unitIsEnabled_run s tr) as (calls0 & Htr0 & Hcalls0).
  destruct (unitIsEnabled s tr) as [[[enabled [e|]]|msg] tr1] eqn:Hen.
  - unfold setUnitState, bind in Hset. rewrite Hen in Hset. discriminate Hset.
  - cbn [snd] in Htr0. subst tr1.
    destruct Hcalls0 as [[_ Hno] | ->]; [exfalso; exact (Hno _ _ eq_refl)|].
    destruct (setUnitState_after s tr _ enabled Hen) as (r & calls & Heq & _ & _ & Hnil).
    rewrite Heq in Hset. injection Hset as -> <-.
    exists ([CNew true; CGetUnitProperty (unit_ s) "UnitFileState"; CClose] ++ calls), enabled.
    split; [symmetry; apply app_assoc|]. rewrite asked_app, (Hnil eq_refl). reflexivity.
  - unfold setUnitState, bind in Hset. rewrite Hen in Hset. discriminate Hset.
Qed.

(** X23. [Create] and [Delete] return nil only after the whole sequence: the
    unit was started (or stopped), its unit file state was read, the unit was
    enabled or disabled as [setUnitState] decides, and systemd was reloaded,
    in that order and with nothing else asked.  When the start (or the stop)
    fails, an error is returned and nothing more is asked of systemd. *)
Theorem job_then_unit_state (s : Service) (tr : list Call) :
  (forall tr',
     Create s tr = (Val None, tr') ->
     exists calls enabled,
       tr' = tr ++ calls /\
       asked calls =
         [CStartUnit (unit_ s) "replace"; CGetUnitProperty (unit_ s) "UnitFileState";
          change_of s enabled; CReload]) /\
  (forall tr',
     Delete s tr = (Val None, tr') ->
     exists calls enabled,
       tr' = tr ++ calls /\
       asked calls =
         [CStopUnit (unit_ s) "replace"; CGetUnitProperty (unit_ s) "UnitFileState";
          change_of s enabled; CReload]) /\
  (forall e,
     conn_StartUnit (tr ++ [CNew true; CLog LogStarting]) (unit_ s) "replace" = inr e ->
     exists e' calls,
       Create s tr = (Val (Some e'), tr ++ calls) /\
       asked calls `prefix_of` [CStartUnit (unit_ s) "replace"]) /\
  (forall e,
     conn_StopUnit (tr ++ [CNew true; CLog LogStopping]) (unit_ s) "replace" = inr e ->
     exists e' calls,
       Delete s tr = (Val (Some e'), tr ++ calls) /\
       asked calls `prefix_of` [CStopUnit (unit_ s) "replace"]).
Proof.
  split; [|split; [|split]].
  - intros tr' Hrun. unfold Create, with_conn, bind, New in Hrun.
    destruct (dbus_New tr) as [e|]; [discriminate Hrun|].
    unfold defer_Close, Log, StartUnit, call in Hrun.
    destruct (conn_StartUnit _ _ _) as [[jobID result]|e].
    + destruct (setUnitState s _) as [[[e|]|msg] tr2] eqn:Hset; try discriminate Hrun.
      injection Hrun as <-.
      destruct (setUnitState_nil s _ _ Hset) as (calls & enabled & -> & Hasked).
      exists ([CNew true; CLog LogStarting; CStartUnit (unit_ s) "replace";
               CLog (LogJob jobID result)] ++ calls ++ [CClose]), enabled.
      split; [rewrite <- !app_assoc; reflexivity|].
      rewrite !asked_app, Hasked. reflexivity.
    + discriminate Hrun.
  - intros tr' Hrun. unfold Delete, with_conn, bind, New in Hrun.
    destruct (dbus_New tr) as [e|]; [discriminate Hrun|].
    unfold defer_Close, Log, StopUnit, call in Hrun.
    destruct (conn_StopUnit _ _ _) as [[jobID result]|e].
    + destruct (setUnitState s _) as [[[e|]|msg] tr2] eqn:Hset; try discriminate Hrun.
      injection Hrun as <-.
      destruct (setUnitState_nil s _ _ Hset) as (calls & enabled & -> & Hasked).
      exists ([CNew true; CLog LogStopping; CStopUnit (unit_ s) "replace";
               CLog (LogJob jobID result)] ++ calls ++ [CClose]), enabled.
      split; [rewrite <- !app_assoc; reflexivity|].
      rewrite !asked_app, Hasked. reflexivity.
    + discriminate Hrun.
  - intros e Hjob. unfold Create, with_conn, bind, New.
    destruct (dbus_New tr) as [e0|].
    + exists e0, [CNew false]. split; [reflexivity | apply prefix_nil].
    + change (tr ++ [CNew true; CLog LogStarting])
        with (tr ++ [CNew true] ++ [CLog LogStarting]) in Hjob.
      rewrite app_assoc in Hjob.
      unfold defer_Close, Log, StartUnit, call. rewrite Hjob.
      exists e, [CNew true; CLog LogStarting; CStartUnit (unit_ s) "replace"; CClose].
      split; [unfold ret; rewrite <- !app_assoc; reflexivity | reflexivity].
  - intros e Hjob. unfold Delete, with_conn, bind, New.
    destruct (dbus_New tr) as [e0|].
    + exists e0, [CNew false]. split; [reflexivity | apply prefix_nil].
    + change (tr ++ [CNew true; CLog LogStopping])
        with (tr ++ [CNew true] ++ [CLog LogStopping]) in Hjob.
      rewrite app_assoc in Hjob.
      unfold defer_Close, Log, StopUnit, call. rewrite Hjob.
      exists e, [CNew true; CLog LogStopping; CStopUnit (unit_ s) "replace"; CClose].
      split; [unfold ret; rewrite <- !app_assoc; reflexivity | reflexivity].
Qed.

(** X24. A service as [NewService] makes it is to be enabled, and its unit is
    the name followed by [.service]; without systemd there is no service but
    [ErrNoSystemd].  When such a service finds its unit enabled already, an
    [Update] over a bus that accepts the connection does not leave the unit
    alone: it asks systemd to disable it. *)
Theorem fresh_service_on_enabled_unit (name : string) :
  (util_IsRunningSystemd = false -> NewService name = (None, Some ErrNoSystemd)) /\
  (forall s tr tr1,
     NewService name = (Some s, None) ->
     unitIsEnabled s tr = (Val (true, None), tr1) ->
     dbus_New tr1 = None ->
     unit_ s = name +:+ ".service" /\ Enable s = true /\
     exists r calls,
       Update s tr = (Val r, tr1 ++ calls) /\
       (asked calls = [CDisableUnitFiles [name +:+ ".service"] false] \/
        asked calls = [CDisableUnitFiles [name +:+ ".service"] false; CReload])).
Proof.
  split.
  - intros Hno. unfold NewService. rewrite Hno. reflexivity.
  - intros s tr tr1 Hnew Hen Hconn. unfold NewService in Hnew.
    destruct util_IsRunningSystemd; [|discriminate Hnew].
    injection Hnew as <-. split; [reflexivity|]. split; [reflexivity|].
    destruct (setUnitState_after _ tr tr1 true Hen) as (r & calls & Heq & Hasked & Hsome & _).
    exists r, calls. split; [exact Heq|].
    destruct Hasked as [Hnone | [Hone | Htwo]].
    + exfalso. exact (Hsome Hconn Hnone).
    + left. exact Hone.
    + right. exact Htwo.
Qed.

End ServiceFacts.

(** * The minion at work on concrete inputs *)

Example FormatInt_lastseen : strconv.FormatInt 1450357761 = "1450357761".
Proof. reflexivity. Qed.

Example Clean_sample : filepath.Clean "/a//b/./c/../d/" = "/a/b/d".
Proof. reflexivity. Qed.

Example Kevin_queueDir :
  queueDir Sample.Kevin = "/gru/minion/4b657669-6e00-0000-0000-000000000000/queue".
Proof. reflexivity. Qed.

(** With no queue directory in the store, the drainer returns the not-found
    error of the get. *)
Lemma checkQueue_not_found_is_returned_witness :
  checkQueue (imports := Sample.imports) Sample.Kevin Sample.fresh =
    (Val (Some (EtcdError etcdclient.ErrorCodeKeyNotFound "Key not found")),
     emit (EvGet (queueDir Sample.Kevin)) Sample.fresh) /\
  sends (trace (emit (EvGet (queueDir Sample.Kevin)) Sample.fresh)) =
    sends (trace Sample.fresh).
Proof.
  apply (checkQueue_not_found_is_returned (imports := Sample.imports)).
  vm_compute. reflexivity.
Defined.

(** After three turns on the closed done signal, both loops are where they
    were. *)
Lemma done_leaves_the_loops_iterating_witness :
  TaskRunner_for (imports := Sample.imports) Sample.Kevin (repeat RunnerDone 3)
    (set_done_closed true Sample.fresh) =
    (Val Iterating, set_done_closed true Sample.fresh) /\
  periodicRunner_for (imports := Sample.imports) Sample.Kevin (repeat TickerDone 3)
    (set_done_closed true Sample.fresh) =
    (Val Iterating, set_done_closed true Sample.fresh).
Proof.
  destruct (done_leaves_the_loops_iterating (imports := Sample.imports) Sample.Kevin
              (set_done_closed true Sample.fresh) 3) as (H1 & H2 & _).
  - reflexivity.
  - split; [exact H1 | exact H2].
Defined.

(** A get that fails with the etcd error 300 makes the drainer panic, and so
    does a receive of the runner after [Stop]. *)
Lemma expected_errors_panic_witness :
  checkQueue (imports := Sample.imports) Sample.Kevin
    (set_outcomes [Some (EtcdError 300 "Raft Internal Error")] Sample.fresh) =
    (Panic nil_dereference, emit (EvGet (queueDir Sample.Kevin)) Sample.fresh) /\
  fst (TaskRunner_select (imports := Sample.imports) Sample.Kevin (RunnerTask None)
         (snd (Stop Sample.Kevin Sample.fresh))) = Panic nil_dereference.
Proof.
  destruct (expected_errors_panic (imports := Sample.imports) Sample.Kevin
              (set_outcomes [Some (EtcdError 300 "Raft Internal Error")] Sample.fresh)
              (emit (EvGet (queueDir Sample.Kevin)) Sample.fresh)
              300 "Raft Internal Error") as (H1 & H2).
  - vm_compute. discriminate.
  - vm_compute. reflexivity.
  - split; [exact H1|].
    apply (H2 Sample.fresh (snd (Stop Sample.Kevin Sample.fresh)) None None).
    vm_compute. reflexivity.
Defined.







(** C7 (counterexample). Three errors in a row on which the random source
    yields a low, a high and a low sample: the watcher sleeps 1 second, then
    1.999999999 seconds, then 1 second again, far below the cap. *)
Lemma jittered_delays_go_down :
  sleeps (trace (snd (TaskListener (imports := Sample.imports) Sample.Kevin
                        [WatchErr (OtherError "connection refused");
                         WatchErr (OtherError "connection refused");
                         WatchErr (OtherError "connection refused")]
                        (set_random [0; 2 ^ 53 - 1; 0] Sample.fresh)))) =
    [1000000000; 1999999999; 1000000000] /\
  non_decreasing [1000000000; 1999999999; 1000000000] = false.
Proof. vm_compute. split; reflexivity. Qed.

(** Two errors, then an event, then an error again. *)
Lemma watcher_backoff_envelope_witness :
  (exists w' ds,
     TaskListener_for (imports := Sample.imports) Sample.Kevin TaskListener_backoff
       (map WatchErr [OtherError "connection refused"; OtherError "connection refused"])
       Sample.fresh = (Val Iterating, w') /\
     sleeps (trace w') = ds /\ List.length ds = 2%nat) /\
  envelope 3 <= envelope 12 <= 10 * time.Minute /\
  (exists w3,
     TaskListener_next (imports := Sample.imports) Sample.Kevin (backoff.Reset (retrying 5))
       (WatchErr (OtherError "connection refused")) Sample.fresh = (Val (retrying 1), w3) /\
     sleeps (trace w3) = [1 * time.Second]).
Proof.
  pose proof (watcher_backoff_envelope (imports := Sample.imports) Sample.Kevin)
    as (_ & Hbounds & Hmono & Hreset).
  split; [|split].
  - destruct (Hbounds [OtherError "connection refused"; OtherError "connection refused"]
                Sample.fresh) as (w' & ds & Heq & Hs & Hl & _).
    exists w', ds. split; [exact Heq|]. split; [exact Hs | exact Hl].
  - apply Hmono. lia.
  - apply (Hreset 5 (Sample.event "create" "a" "T1") Sample.fresh
             (backoff.Reset (retrying 5))
             (snd (TaskListener_next (imports := Sample.imports) Sample.Kevin (retrying 5)
                     (WatchEvent (Sample.event "create" "a" "T1")) Sample.fresh))
             (OtherError "connection refused") Sample.fresh).
    + lia.
    + vm_compute. reflexivity.
Defined.

(** [Serve] when the first write fails, when the second fails, and when both
    go through. *)
Lemma Serve_starts_all_or_nothing_witness :
  (fst (Serve Sample.Kevin (set_outcomes [Some (OtherError "unreachable")] Sample.fresh)) =
     Val (Some (OtherError "unreachable")) /\
   started (snd (Serve Sample.Kevin
                   (set_outcomes [Some (OtherError "unreachable")] Sample.fresh))) = []) /\
  (fst (Serve Sample.Kevin
          (set_outcomes [None; Some (OtherError "unreachable")] Sample.fresh)) =
     Val (Some (OtherError "unreachable")) /\
   started (snd (Serve Sample.Kevin
                   (set_outcomes [None; Some (OtherError "unreachable")] Sample.fresh))) = []) /\
  (exists w3,
     Serve Sample.Kevin Sample.fresh = (Val None, w3) /\
     started w3 = [WClassify; WCheckQueue; WPeriodicRunner; WTaskRunner; WTaskListener]).
Proof.
  split; [|split].
  - destruct (proj1 (Serve_starts_all_or_nothing Sample.Kevin
                       (set_outcomes [Some (OtherError "unreachable")] Sample.fresh))
                (OtherError "unreachable")
                (snd (SetName Sample.Kevin (name Sample.Kevin)
                        (set_outcomes [Some (OtherError "unreachable")] Sample.fresh))))
      as (Heq & Hst).
    + vm_compute. reflexivity.
    + rewrite Heq. split; [reflexivity | exact Hst].
  - destruct (proj1 (proj2 (Serve_starts_all_or_nothing Sample.Kevin
                       (set_outcomes [None; Some (OtherError "unreachable")] Sample.fresh)))
                (OtherError "unreachable")
                (snd (SetName Sample.Kevin (name Sample.Kevin)
                        (set_outcomes [None; Some (OtherError "unreachable")] Sample.fresh)))
                (snd (Serve Sample.Kevin
                        (set_outcomes [None; Some (OtherError "unreachable")] Sample.fresh))))
      as (Heq & Hst).
    + vm_compute. reflexivity.
    + vm_compute. reflexivity.
    + rewrite Heq. split; [reflexivity | exact Hst].
  - apply (proj2 (proj2 (Serve_starts_all_or_nothing Sample.Kevin Sample.fresh))
             (snd (SetName Sample.Kevin (name Sample.Kevin) Sample.fresh))
             (snd (SetLastseen Sample.Kevin (time.Unix (clock Sample.fresh))
                     (snd (SetName Sample.Kevin (name Sample.Kevin) Sample.fresh))))).
    + vm_compute. reflexivity.
    + vm_compute. reflexivity.
Defined.



(** Kevin writes 1450357761 and a reader of the store finds it. *)
Lemma SetLastseen_writes_decimal_witness :
  exists w',
    SetLastseen Sample.Kevin 1450357761 Sample.fresh = (Val None, w') /\
    etcdclient.lookup_node "/gru/minion/4b657669-6e00-0000-0000-000000000000/lastseen"
      (store w') =
      Some (etcdclient.mkNode "/gru/minion/4b657669-6e00-0000-0000-000000000000/lastseen"
              "1450357761" false []) /\
    strconv.decimal_value "1450357761" = Some 1450357761.
Proof.
  destruct (SetLastseen_writes_decimal (imports := Sample.imports) Sample.Kevin 1450357761
              Sample.fresh) as (w' & Heq & _ & Hread & Hval & _).
  - lia.
  - exact I.
  - vm_compute. discriminate.
  - exists w'. split; [exact Heq|]. split; [exact Hread | exact Hval].
Defined.

(** * Further properties on concrete inputs *)

(** The prefixes of Kevin and the log key of the first task of the sample. *)
Lemma NewEtcdMinion_layout_witness :
  queueDir Sample.Kevin = "/gru/minion/4b657669-6e00-0000-0000-000000000000/queue" /\
  classifierDir Sample.Kevin = "/gru/minion/4b657669-6e00-0000-0000-000000000000/classifier" /\
  taskKey Sample.Kevin (task.TaskID Sample.T1) =
    "/gru/minion/4b657669-6e00-0000-0000-000000000000/log/7461736b-2d6f-6e65-0000-000000000000".
Proof.
  destruct (NewEtcdMinion_layout (imports := Sample.imports) "Kevin" (task.TaskID Sample.T1))
    as (_ & _ & _ & Hq & Hc & _ & Hk).
  - reflexivity.
  - reflexivity.
  - split; [exact Hq|]. split; [exact Hc | exact Hk].
Defined.

(** A first and a second [Stop]. *)
Lemma Stop_closes_once_witness :
  (exists w',
     Stop Sample.Kevin Sample.fresh = (Val None, w') /\
     taskQueue_closed w' = true /\ done_closed w' = true /\
     fst (Stop Sample.Kevin w') = Panic close_of_closed) /\
  fst (Stop Sample.Kevin (set_taskQueue_closed true Sample.fresh)) = Panic close_of_closed.
Proof.
  split.
  - destruct (proj1 (Stop_closes_once Sample.Kevin Sample.fresh) eq_refl eq_refl)
      as (w' & Heq & Hq & Hd & _ & _ & _ & Hagain).
    exists w'. auto.
  - apply (proj2 (Stop_closes_once Sample.Kevin (set_taskQueue_closed true Sample.fresh))).
    reflexivity.
Defined.


(** A task that cannot be serialized is not written. *)
Lemma SaveTaskResult_outcomes_witness :
  exists w',
    SaveTaskResult (imports := Strict.imports) Sample.Kevin Sample.zero_task Sample.fresh =
      (Val (Some (OtherError "json: error calling MarshalJSON")), w') /\
    trace w' =
      [EvLog (LogFailedSerializeTask [] (OtherError "json: error calling MarshalJSON"))] /\
    store w' = store Sample.fresh.
Proof.
  destruct (SaveTaskResult_outcomes (imports := Strict.imports) Sample.Kevin Sample.zero_task
              Sample.fresh) as (err & w' & Heq & Hst & Hfail).
  destruct (Hfail "" (OtherError "json: error calling MarshalJSON") eq_refl)
    as (-> & Htr & _).
  exists w'. split; [exact Heq|]. split; [exact Htr | exact Hst].
Defined.

(** After a drain of a queue of two entries, a get lists nothing. *)
Lemma checkQueue_leaves_no_entry_witness :
  exists r w',
    checkQueue (imports := Sample.imports) Sample.Kevin
      (set_store (<[filepath.Join [queueDir Sample.Kevin; "b"] := etcdclient.File "junk"]>
                    (store (Sample.queued "a" "T1"))) Sample.fresh) = (Val r, w') /\
    etcdclient.lookup_node (queueDir Sample.Kevin) (store w') = None.
Proof.
  destruct (checkQueue_leaves_no_entry (imports := Sample.imports) Sample.Kevin
              (set_store (<[filepath.Join [queueDir Sample.Kevin; "b"] := etcdclient.File "junk"]>
                            (store (Sample.queued "a" "T1"))) Sample.fresh))
    as (r & w' & Heq & Hnone).
  - vm_compute. reflexivity.
  - reflexivity.
  - reflexivity.
  - exists r, w'. split; [exact Heq|].
    destruct (etcdclient.lookup_node (queueDir Sample.Kevin) (store w')) as [n|] eqn:Hlook;
      [|reflexivity].
    exfalso. pose proof (Hnone n eq_refl) as Hn.
    unfold etcdclient.lookup_node in Hlook.
    assert (Hw : w' = snd (checkQueue (imports := Sample.imports) Sample.Kevin
              (set_store (<[filepath.Join [queueDir Sample.Kevin; "b"] := etcdclient.File "junk"]>
                            (store (Sample.queued "a" "T1"))) Sample.fresh)))
      by (rewrite Heq; reflexivity).
    rewrite Hw in Hlook. vm_compute in Hlook. discriminate Hlook.
Defined.



(** Errors, a delete event, a task and a malformed payload, in a row. *)
Lemma listener_keeps_watching_witness :
  exists w',
    TaskListener (imports := Strict.imports) Sample.Kevin
      [WatchErr (OtherError "connection refused");
       WatchEvent (Sample.event "delete" "a" "");
       WatchEvent (Sample.event "set" "b" "T1");
       WatchEvent (Sample.event "set" "z" "null")]
      Sample.fresh = (Val Iterating, w').
Proof.
  apply (proj2 (listener_keeps_watching (imports := Strict.imports) Sample.Kevin _ Sample.fresh)).
  - intros data. unfold json_Unmarshal_Task. simpl. unfold Strict.decode.
    destruct (String.eqb data "T1"); [discriminate|].
    destruct (String.eqb data "T2"); discriminate.
  - reflexivity.
Defined.

(** The lastseen of five seconds before the epoch. *)
Lemma SetLastseen_negative_witness :
  exists numeral err w',
    SetLastseen Sample.Kevin (-5) Sample.fresh = (Val err, w') /\
    sets (trace w') =
      [(filepath.Join [rootDir Sample.Kevin; "lastseen"], String "-"%char numeral, 0)] /\
    strconv.decimal_value numeral = Some 5.
Proof.
  destruct (SetLastseen_negative Sample.Kevin (-5) Sample.fresh)
    as (numeral & err & w' & Heq & Hs & Hv & _).
  - lia.
  - exists numeral, err, w'. split; [exact Heq|]. split; [exact Hs | exact Hv].
Defined.

(** What a reader finds once Kevin serves. *)
Lemma Serve_publishes_witness :
  store (snd (Serve Sample.Kevin Sample.fresh)) !!
    "/gru/minion/4b657669-6e00-0000-0000-000000000000/name" = Some (etcdclient.File "Kevin") /\
  store (snd (Serve Sample.Kevin Sample.fresh)) !!
    "/gru/minion/4b657669-6e00-0000-0000-000000000000/lastseen" =
    Some (etcdclient.File "1450357761").
Proof.
  apply (Serve_publishes (imports := Sample.imports) "Kevin" Sample.fresh
           (snd (Serve Sample.Kevin Sample.fresh))).
  - reflexivity.
  - vm_compute. reflexivity.
Defined.

(** The payload [null] in the sample. *)
Lemma nil_task_panics_witness :
  fst (TaskListener_next (imports := Sample.imports) Sample.Kevin TaskListener_backoff
         (WatchEvent (Sample.event "set" "z" "null")) Sample.fresh) = Panic nil_dereference /\
  (exists w',
     checkQueue_range (imports := Sample.imports) Sample.Kevin
       [etcdclient.mkNode "/q/z" "null" false []] Sample.fresh = (Val tt, w') /\
     fst (TaskRunner_select (imports := Sample.imports) Sample.Kevin (RunnerTask None) w') =
       Panic nil_dereference).
Proof.
  pose proof (nil_task_panics (imports := Sample.imports) Sample.Kevin) as [Hwatch Hdrain].
  split.
  - destruct (Hwatch TaskListener_backoff (Sample.event "set" "z" "null") Sample.fresh)
      as (w' & Heq & _).
    + unfold same_word. simpl. discriminate.
    + reflexivity.
    + rewrite Heq. reflexivity.
  - destruct (Hdrain (etcdclient.mkNode "/q/z" "null" false []) Sample.fresh eq_refl eq_refl)
      as (w' & Heq & _ & Hpanic).
    exists w'. split; [exact Heq | exact Hpanic].
Defined.


(** * The service resource on concrete hosts *)

(** A unit that is stopped and enabled, for a service wanted running and
    enabled: the evaluation does not report it outdated.  On a host where the
    unit is disabled it does, after having found the unit not enabled. *)
Lemma Evaluate_wanted_state_plays_no_part_witness :
  fst (service.Evaluate
         (bus := service.host (service.VString "inactive") (service.VString "enabled")
                   (inl (7, "done")))
         (service.wanted "running" service.nginx) []) =
    Val (service.mkState "stopped" "running" false, None) /\
  exists tr1,
    service.unitIsEnabled
      (bus := service.host (service.VString "inactive") (service.VString "disabled")
                (inl (7, "done")))
      service.nginx tr1 =
    (Val (false, None),
     snd (service.Evaluate
            (bus := service.host (service.VString "inactive") (service.VString "disabled")
                      (inl (7, "done")))
            service.nginx [])).
Proof.
  split.
  - rewrite (proj1 (Evaluate_wanted_state_plays_no_part
                      (bus := service.host (service.VString "inactive")
                                (service.VString "enabled") (inl (7, "done")))
                      service.nginx "running" [])).
    reflexivity.
  - destruct (proj2 (Evaluate_wanted_state_plays_no_part
                       (bus := service.host (service.VString "inactive")
                                 (service.VString "disabled") (inl (7, "done")))
                       service.nginx "running" [])
                (service.mkState "stopped" "running" true) None _ eq_refl)
      as (_ & _ & Hout).
    destruct (Hout eq_refl) as (_ & tr1 & Hen).
    exists tr1. exact Hen.
Defined.

(** The unit of [nginx] found enabled: the unit is disabled and systemd
    reloaded. *)
Lemma setUnitState_decision_witness :
  exists calls,
    service.setUnitState
      (bus := service.host (service.VString "active") (service.VString "enabled")
                (inl (7, "done")))
      service.nginx [] =
      (Val None,
       [service.CNew true; service.CGetUnitProperty "nginx.service" "UnitFileState";
        service.CClose] ++ calls) /\
    service.asked calls =
      [service.CDisableUnitFiles ["nginx.service"] false; service.CReload].
Proof.
  destruct (setUnitState_decision
              (bus := service.host (service.VString "active") (service.VString "enabled")
                        (inl (7, "done")))
              service.nginx []
              [service.CNew true; service.CGetUnitProperty "nginx.service" "UnitFileState";
               service.CClose] true eq_refl)
    as (r & calls & Heq & _ & _ & Hnil & _).
  assert (Hr : r = None).
  { assert (H : fst (service.setUnitState
                       (bus := service.host (service.VString "active")
                                 (service.VString "enabled") (inl (7, "done")))
                       service.nginx []) = Val None) by reflexivity.
    rewrite Heq in H. injection H as ->. reflexivity. }
  subst r. exists calls. split; [exact Heq | exact (Hnil eq_refl)].
Defined.

(** [nginx] started on a host where its unit is disabled, and on a host where
    the job is refused. *)
Lemma job_then_unit_state_witness :
  (exists calls,
     snd (service.Create
            (bus := service.host (service.VString "inactive") (service.VString "disabled")
                      (inl (7, "done")))
            service.nginx []) = calls /\
     exists enabled,
       service.asked calls =
         [service.CStartUnit "nginx.service" "replace";
          service.CGetUnitProperty "nginx.service" "UnitFileState";
          service.change_of service.nginx enabled; service.CReload]) /\
  (exists e' calls,
     service.Create
       (bus := service.host (service.VString "inactive") (service.VString "disabled")
                 (inr (OtherError "Unit nginx.service not found.")))
       service.nginx [] = (Val (Some e'), calls) /\
     service.asked calls `prefix_of` [service.CStartUnit "nginx.service" "replace"]).
Proof.
  split.
  - destruct (proj1 (job_then_unit_state
                       (bus := service.host (service.VString "inactive")
                                 (service.VString "disabled") (inl (7, "done")))
                       service.nginx []) _ eq_refl) as (calls & enabled & Htr & Hasked).
    exists calls. split; [exact Htr|]. exists enabled. exact Hasked.
  - destruct (proj1 (proj2 (proj2 (job_then_unit_state
                       (bus := service.host (service.VString "inactive")
                                 (service.VString "disabled")
                                 (inr (OtherError "Unit nginx.service not found.")))
                       service.nginx []))) (OtherError "Unit nginx.service not found.") eq_refl)
      as (e' & calls & Heq & Hasked).
    exists e', calls. split; [exact Heq | exact Hasked].
Defined.

(** [nginx], fresh, on a host where its unit is enabled. *)
Lemma fresh_service_on_enabled_unit_witness :
  exists r calls,
    service.Update
      (bus := service.host (service.VString "active") (service.VString "enabled")
                (inl (7, "done")))
      service.nginx [] =
      (Val r,
       [service.CNew true; service.CGetUnitProperty "nginx.service" "UnitFileState";
        service.CClose] ++ calls) /\
    (service.asked calls = [service.CDisableUnitFiles ["nginx.service"] false] \/
     service.asked calls =
       [service.CDisableUnitFiles ["nginx.service"] false; service.CReload]).
Proof.
  destruct (proj2 (fresh_service_on_enabled_unit
                     (bus := service.host (service.VString "active")
                               (service.VString "enabled") (inl (7, "done")))
                     "nginx")
              service.nginx []
              [service.CNew true; service.CGetUnitProperty "nginx.service" "UnitFileState";
               service.CClose]
              eq_refl eq_refl eq_refl) as (_ & _ & r & calls & Heq & Hasked).
  exists r, calls. split; [exact Heq | exact Hasked].
Defined.
